(** * Decentralized identity: off-chain record transitions, token names
      and the DID-document projection

    Shallow embedding of the three off-chain implementations of the
    Cardano decentralized-identity template

      - Lucid Evolution   (offchain/lucid-evolution, TypeScript, [bigint])
      - MeshJS            (identity.ts / did-resolver.ts, TypeScript, [number])
      - Cardano Client Lib (offchain/ccl-java, Java, [long] / [int])

    together with the owner-authorisation rule of the on-chain validator,
    whose Aiken source is not part of the off-chain tree. *)

From Stdlib Require Import ZArith NArith Lia List String Ascii Bool DecimalString DecimalNat.
From stdpp Require Import base gmap strings.
Import ListNotations.

Local Open Scope Z_scope.

(* ===================================================================== *)
(** ** Integer representations used by the three implementations *)
(* ===================================================================== *)

Module Num.

(** Two's-complement wrap-around of a [w]-bit signed integer. *)
Definition wrap (w : Z) (z : Z) : Z := (z + 2 ^ (w - 1)) mod 2 ^ w - 2 ^ (w - 1).

(** Java [long] and [int]. *)
Definition long (z : Z) : Z := wrap 64 z.
Definition int (z : Z) : Z := wrap 32 z.

Definition Long_MAX_VALUE : Z := 2 ^ 63 - 1.
Definition Long_MIN_VALUE : Z := - 2 ^ 63.
Definition Integer_MAX_VALUE : Z := 2 ^ 31 - 1.
Definition Integer_MIN_VALUE : Z := - 2 ^ 31.

Definition is_long (z : Z) : Prop := Long_MIN_VALUE <= z <= Long_MAX_VALUE.
Definition is_int (z : Z) : Prop := Integer_MIN_VALUE <= z <= Integer_MAX_VALUE.

(** JavaScript [number]: an IEEE-754 double.  The records only ever hold
    integer values, so a [number] is modelled by the integer it denotes
    and an arithmetic result is the exact result rounded to the nearest
    double, ties to even (53-bit significand).  Overflow to [Infinity]
    (magnitudes of 2^1024 and more) is outside the model. *)
Definition MAX_EXACT : Z := 2 ^ 53.

Definition round_double (z : Z) : Z :=
  let a := Z.abs z in
  if a <=? MAX_EXACT then z
  else
    let e := Z.log2 a - 52 in
    let q := Z.shiftr a e in
    let r := a - Z.shiftl q e in
    let half := Z.shiftl 1 (e - 1) in
    let q' :=
      if r <? half then q
      else if half <? r then q + 1
      else if Z.even q then q else q + 1 in
    Z.sgn z * Z.shiftl q' e.

(** [a + b] and [a - b] on numbers. *)
Definition nadd (a b : Z) : Z := round_double (a + b).
Definition nsub (a b : Z) : Z := round_double (a - b).

(** ECMAScript [ToUint32] on an integer-valued number. *)
Definition ToUint32 (z : Z) : Z := z mod 2 ^ 32.

End Num.

(* ===================================================================== *)
(** ** Bytes, hexadecimal text and SHA-256

    The token-name helpers call three library routines: a hex codec
    ([decodeHex]/[encodeHex], [HexUtil]), big-endian integer stores
    ([DataView.setUint32], [ByteBuffer.putInt]) and SHA-256
    ([@noble/hashes], [MessageDigest]).  They are given here as executable
    functions; SHA-256 follows FIPS 180-4. *)
(* ===================================================================== *)

Module Bytes.

Definition byte : Type := Byte.byte.

Definition to_Z (b : byte) : Z := Z.of_N (Byte.to_N b).

(** The byte holding the low eight bits of [z]. *)
Definition of_Z (z : Z) : byte :=
  match Byte.of_N (Z.to_N (z mod 256)) with
  | Some b => b
  | None => Byte.x00
  end.

(** [n]-byte big-endian encoding of [z] (its low [8 n] bits). *)
Fixpoint bigEndian (n : nat) (z : Z) : list byte :=
  match n with
  | O => []
  | S n' => bigEndian n' (z / 256) ++ [of_Z z]
  end.

(** Big-endian value of a byte string, continuing from [acc]. *)
Fixpoint toNumber (bs : list byte) (acc : Z) : Z :=
  match bs with
  | [] => acc
  | b :: rest => toNumber rest (acc * 256 + to_Z b)
  end.

End Bytes.

Module Hex.
Import Bytes.

Definition digit (n : Z) : ascii :=
  match String.get (Z.to_nat n) "0123456789abcdef" with
  | Some c => c
  | None => "0"%char
  end.

Definition value (c : ascii) : option Z :=
  let n := Z.of_N (N_of_ascii c) in
  if (48 <=? n) && (n <=? 57) then Some (n - 48)
  else if (97 <=? n) && (n <=? 102) then Some (n - 87)
  else if (65 <=? n) && (n <=? 70) then Some (n - 55)
  else None.

(** [encodeHex]: lower-case, two digits per byte. *)
Fixpoint encodeHex (bs : list byte) : string :=
  match bs with
  | [] => EmptyString
  | b :: rest =>
      String (digit (to_Z b / 16)) (String (digit (to_Z b mod 16)) (encodeHex rest))
  end.

(** [decodeHex]: [None] stands for the exception raised on an odd
    length or on a character that is not a hex digit. *)
Fixpoint decodeHex (s : string) : option (list byte) :=
  match s with
  | EmptyString => Some []
  | String hi (String lo rest) =>
      match value hi, value lo, decodeHex rest with
      | Some h, Some l, Some bs => Some (of_Z (h * 16 + l) :: bs)
      | _, _, _ => None
      end
  | String _ EmptyString => None
  end.

End Hex.

Module Sha256.
Import Bytes.

Definition w32 (z : Z) : Z := z mod 2 ^ 32.
Definition add32 (a b : Z) : Z := w32 (a + b).
Definition rotr (n x : Z) : Z := Z.lor (Z.shiftr x n) (w32 (Z.shiftl x (32 - n))).
Definition shr (n x : Z) : Z := Z.shiftr x n.

Definition Ch (x y z : Z) : Z := Z.lxor (Z.land x y) (Z.land (w32 (Z.lnot x)) z).
Definition Maj (x y z : Z) : Z := Z.lxor (Z.lxor (Z.land x y) (Z.land x z)) (Z.land y z).
Definition bsig0 (x : Z) : Z := Z.lxor (Z.lxor (rotr 2 x) (rotr 13 x)) (rotr 22 x).
Definition bsig1 (x : Z) : Z := Z.lxor (Z.lxor (rotr 6 x) (rotr 11 x)) (rotr 25 x).
Definition ssig0 (x : Z) : Z := Z.lxor (Z.lxor (rotr 7 x) (rotr 18 x)) (shr 3 x).
Definition ssig1 (x : Z) : Z := Z.lxor (Z.lxor (rotr 17 x) (rotr 19 x)) (shr 10 x).

(** The first sixty-four primes. *)
Definition primes : list Z :=
  [2; 3; 5; 7; 11; 13; 17; 19; 23; 29; 31; 37; 41; 43; 47; 53;
   59; 61; 67; 71; 73; 79; 83; 89; 97; 101; 103; 107; 109; 113; 127; 131;
   137; 139; 149; 151; 157; 163; 167; 173; 179; 181; 191; 193; 197; 199; 211; 223;
   227; 229; 233; 239; 241; 251; 257; 263; 269; 271; 277; 281; 283; 293; 307; 311].

(** Integer cube root, one result bit at a time. *)
Fixpoint cbrtBits (bits : nat) (n r : Z) : Z :=
  match bits with
  | O => r
  | S b =>
      let c := r + 2 ^ Z.of_nat b in
      cbrtBits b n (if c * c * c <=? n then c else r)
  end.

(** First 32 bits of the fractional part of a square / cube root. *)
Definition fracSqrt (p : Z) : Z := w32 (Z.sqrt (p * 2 ^ 64)).
Definition fracCbrt (p : Z) : Z := w32 (cbrtBits 40 (p * 2 ^ 96) 0).

Definition K : list Z := Eval vm_compute in List.map fracCbrt primes.
Definition H0 : list Z := Eval vm_compute in List.map fracSqrt (firstn 8 primes).

(** Padding: 0x80, zero bytes up to 56 modulo 64, the bit length. *)
Definition pad (msg : list byte) : list byte :=
  let l := Z.of_nat (length msg) in
  msg ++ [Byte.x80] ++ repeat Byte.x00 (Z.to_nat ((55 - l) mod 64)) ++ bigEndian 8 (8 * l).

Fixpoint words (bs : list byte) : list Z :=
  match bs with
  | a :: b :: c :: d :: rest => toNumber [a; b; c; d] 0 :: words rest
  | _ => []
  end.

(** Message schedule: [n] further words after those in [W]. *)
Fixpoint schedule (n : nat) (W : list Z) : list Z :=
  match n with
  | O => W
  | S n' =>
      let t := length W in
      let back (k : nat) := nth (t - k) W 0 in
      schedule n'
        (W ++ [add32 (add32 (add32 (ssig1 (back 2%nat)) (back 7%nat)) (ssig0 (back 15%nat)))
                     (back 16%nat)])
  end.

Record State : Type := mkState {
  sa : Z; sb : Z; sc : Z; sd : Z; se : Z; sf : Z; sg : Z; sh : Z
}.

Definition round (s : State) (kw : Z * Z) : State :=
  let '(k, w) := kw in
  let t1 := add32 (add32 (add32 (add32 (sh s) (bsig1 (se s))) (Ch (se s) (sf s) (sg s))) k) w in
  let t2 := add32 (bsig0 (sa s)) (Maj (sa s) (sb s) (sc s)) in
  mkState (add32 t1 t2) (sa s) (sb s) (sc s) (add32 (sd s) t1) (se s) (sf s) (sg s).

Definition compress (H : State) (block : list Z) : State :=
  let s := fold_left round (combine K (schedule 48 block)) H in
  mkState (add32 (sa H) (sa s)) (add32 (sb H) (sb s)) (add32 (sc H) (sc s))
          (add32 (sd H) (sd s)) (add32 (se H) (se s)) (add32 (sf H) (sf s))
          (add32 (sg H) (sg s)) (add32 (sh H) (sh s)).

Fixpoint blocks (n : nat) (ws : list Z) (H : State) : State :=
  match n with
  | O => H
  | S n' => blocks n' (skipn 16 ws) (compress H (firstn 16 ws))
  end.

Definition initial : State :=
  mkState (nth 0 H0 0) (nth 1 H0 0) (nth 2 H0 0) (nth 3 H0 0)
          (nth 4 H0 0) (nth 5 H0 0) (nth 6 H0 0) (nth 7 H0 0).

Definition digestState (msg : list byte) : State :=
  let ws := words (pad msg) in
  blocks (length ws / 16) ws initial.

(** The eight state words read as one 256-bit number. *)
Definition stateNumber (s : State) : Z :=
  ((((((sa s * 2 ^ 32 + sb s) * 2 ^ 32 + sc s) * 2 ^ 32 + sd s) * 2 ^ 32 + se s)
      * 2 ^ 32 + sf s) * 2 ^ 32 + sg s) * 2 ^ 32 + sh s.

Definition sha256 (msg : list byte) : list byte :=
  bigEndian 32 (stateNumber (digestState msg)).

End Sha256.

(** An input reference: transaction-hash bytes and output index. *)
Record OutputReference : Type := mkOutputReference {
  refTxHash : list Bytes.byte;
  refOutputIndex : Z
}.

(** The token name in the words of the specification: the SHA-256 hash of
    the transaction-hash bytes followed by the output index as a 4-byte
    big-endian integer. *)
Definition preimage (r : OutputReference) : list Bytes.byte :=
  refTxHash r ++ Bytes.bigEndian 4 (refOutputIndex r).

Definition tokenNameSpec (r : OutputReference) : list Bytes.byte :=
  Sha256.sha256 (preimage r).

(* ===================================================================== *)
(** ** Record model

    [Delegate], [Attribute] and [IdentityDatum] have the same shape in the
    three implementations; the integer fields are [bigint] (Lucid),
    [number] (MeshJS) and [long] (Java).  Strings are sequences of code
    units.  The two [validUntil] fields and the [name]/[value] fields of
    an attribute carry a prefix because they share one name space here. *)
(* ===================================================================== *)

Record Delegate : Type := mkDelegate {
  delegateAddress : string;
  delegateType : string;
  validUntil : Z
}.

Record Attribute : Type := mkAttribute {
  attrName : string;
  attrValue : string;
  attrValidUntil : Z
}.

Record IdentityDatum : Type := mkIdentityDatum {
  identity : string;
  owner : string;
  delegates : list Delegate;
  attributes : list Attribute;
  nonce : Z
}.

(** The action vocabulary (spend redeemer), constructor index 0..4. *)
Inductive Action : Type :=
| ChangeOwner (new_owner : string)
| AddDelegate (delegate_type delegate : string) (validity : Z)
| RevokeDelegate (delegate_type delegate : string)
| SetAttribute (name value : string) (validity : Z)
| RevokeAttribute (name value : string).

(** What a transaction builder hands to the ledger: the continuing datum,
    the redeemer, the signer it requires and the declared validity
    interval (absent when the builder declares none). *)
Record Tx : Type := mkTx {
  txDatum : IdentityDatum;
  txRedeemer : Action;
  txSigner : string;
  txValidFrom : option Z;
  txValidTo : option Z
}.

(** Key-field predicates of the two collections. *)
Definition sameDelegate (address type : string) (d : Delegate) : bool :=
  (delegateAddress d =? address)%string && (delegateType d =? type)%string.

Definition sameAttribute (name value : string) (a : Attribute) : bool :=
  (attrName a =? name)%string && (attrValue a =? value)%string.

(* ===================================================================== *)
(** ** Cardano Client Lib (Java): [Identity.java] *)
(* ===================================================================== *)

Module Java.

(** [long] arithmetic. *)
Definition ladd (a b : Z) : Z := Num.long (a + b).
Definition lmul (a b : Z) : Z := Num.long (a * b).

(** [Delegate.isValid] and [Attribute.isValid]. *)
Definition Delegate_isValid (d : Delegate) (currentTime : Z) : bool :=
  (validUntil d =? 0) || (validUntil d >? currentTime).

Definition Attribute_isValid (a : Attribute) (currentTime : Z) : bool :=
  (attrValidUntil a =? 0) || (attrValidUntil a >? currentTime).

(** [ArrayList.removeIf] on a fresh copy, and [add] at the end. *)
Definition removeIf {A : Type} (p : A -> bool) (l : list A) : list A :=
  List.filter (fun x => negb (p x)) l.

Definition add {A : Type} (l : list A) (x : A) : list A := l ++ [x].

Definition withNewOwner (D : IdentityDatum) (newOwner : string) : IdentityDatum :=
  mkIdentityDatum (identity D) newOwner (delegates D) (attributes D) (ladd (nonce D) 1).

Definition withAddedDelegate (D : IdentityDatum) (delegate : Delegate) : IdentityDatum :=
  let newDelegates :=
    removeIf (fun d => (delegateAddress d =? delegateAddress delegate)%string
                       && (delegateType d =? delegateType delegate)%string)
             (delegates D) in
  let newDelegates := add newDelegates delegate in
  mkIdentityDatum (identity D) (owner D) newDelegates (attributes D) (ladd (nonce D) 1).

Definition withRevokedDelegate (D : IdentityDatum) (delegateAddress0 delegateType0 : string)
  : IdentityDatum :=
  let newDelegates :=
    removeIf (fun d => (delegateAddress d =? delegateAddress0)%string
                       && (delegateType d =? delegateType0)%string)
             (delegates D) in
  mkIdentityDatum (identity D) (owner D) newDelegates (attributes D) (ladd (nonce D) 1).

Definition withSetAttribute (D : IdentityDatum) (attribute : Attribute) : IdentityDatum :=
  let newAttributes :=
    removeIf (fun a => (attrName a =? attrName attribute)%string) (attributes D) in
  let newAttributes := add newAttributes attribute in
  mkIdentityDatum (identity D) (owner D) (delegates D) newAttributes (ladd (nonce D) 1).

Definition withRevokedAttribute (D : IdentityDatum) (name value : string) : IdentityDatum :=
  let newAttributes :=
    removeIf (fun a => (attrName a =? name)%string && (attrValue a =? value)%string)
             (attributes D) in
  mkIdentityDatum (identity D) (owner D) (delegates D) newAttributes (ladd (nonce D) 1).

(** The builders.  [ownerAddress] is the configured account that signs,
    [currentTime] is [Instant.now().toEpochMilli()], [slot] the latest
    block's slot; the validity interval is declared in slots.
    [validityDays] is an [int], widened to [long] by the [24L] factor. *)
Definition validUntilOf (currentTime validityDays : Z) : Z :=
  if validityDays =? 0 then 0
  else ladd currentTime (lmul (lmul (lmul (lmul validityDays 24) 60) 60) 1000).

Definition validityMsOf (validityDays : Z) : Z :=
  if validityDays =? 0 then 0
  else lmul (lmul (lmul (lmul validityDays 24) 60) 60) 1000.

Definition changeOwner (ownerAddress : string) (currentDatum : IdentityDatum)
    (newOwnerPkh : string) : Tx :=
  mkTx (withNewOwner currentDatum newOwnerPkh) (ChangeOwner newOwnerPkh)
       ownerAddress None None.

Definition addDelegate (ownerAddress : string) (currentDatum : IdentityDatum)
    (currentTime slot : Z) (delegateType0 delegatePkh : string) (validityDays : Z) : Tx :=
  let validUntil0 := validUntilOf currentTime validityDays in
  let validityMs := validityMsOf validityDays in
  let newDelegate := mkDelegate delegatePkh delegateType0 validUntil0 in
  mkTx (withAddedDelegate currentDatum newDelegate)
       (AddDelegate delegateType0 delegatePkh validityMs)
       ownerAddress (Some (ladd slot (-100))) (Some (ladd slot 1000)).

Definition revokeDelegate (ownerAddress : string) (currentDatum : IdentityDatum)
    (delegateType0 delegatePkh : string) : Tx :=
  mkTx (withRevokedDelegate currentDatum delegatePkh delegateType0)
       (RevokeDelegate delegateType0 delegatePkh)
       ownerAddress None None.

Definition setAttribute (ownerAddress : string) (currentDatum : IdentityDatum)
    (currentTime slot : Z) (name value : string) (validityDays : Z) : Tx :=
  let validUntil0 := validUntilOf currentTime validityDays in
  let validityMs := validityMsOf validityDays in
  let newAttribute := mkAttribute name value validUntil0 in
  mkTx (withSetAttribute currentDatum newAttribute)
       (SetAttribute name value validityMs)
       ownerAddress (Some (ladd slot (-100))) (Some (ladd slot 1000)).

Definition revokeAttribute (ownerAddress : string) (currentDatum : IdentityDatum)
    (name value : string) : Tx :=
  mkTx (withRevokedAttribute currentDatum name value)
       (RevokeAttribute name value)
       ownerAddress None None.

(** [ByteBuffer.putInt]: four bytes, most significant first. *)
Definition putInt (value : Z) : list Bytes.byte :=
  let x := Num.int value in
  [Bytes.of_Z (Z.shiftr x 24); Bytes.of_Z (Z.shiftr x 16);
   Bytes.of_Z (Z.shiftr x 8); Bytes.of_Z x].

(** [HexUtil.decodeHexString] of cardano-client-lib: a leading ["0x"] is
    dropped, then every two characters give one byte, each character read
    with [Character.digit(c, 16)]; [None] stands for the
    [IllegalArgumentException] raised on an odd number of characters or
    on a character that is no digit of radix 16.  A character of the model
    is a code unit below 256, and among those the digits of radix 16 are
    [0-9], [a-f] and [A-F]. *)
Definition decodeHexString (hexString : string) : option (list Bytes.byte) :=
  match hexString with
  | String "0" (String "x" rest) => Hex.decodeHex rest
  | _ => Hex.decodeHex hexString
  end.

(** [Identity.computeIdentityTokenName]; [outputIndex] is an [int]. *)
Definition computeIdentityTokenName (txHash : string) (outputIndex : Z) : option string :=
  match decodeHexString txHash with
  | None => None
  | Some txHashBytes =>
      let buffer := txHashBytes ++ putInt outputIndex in
      let hash := Sha256.sha256 buffer in
      Some (Hex.encodeHex hash)
  end.

End Java.

(* ===================================================================== *)
(** ** MeshJS (TypeScript, [number]): [MeshIdentityContract]

    Each builder first fetches the identity UTxO and throws when it or
    its NFT is missing; the functions below are the remainder of the
    builder, from the parsed [currentDatum] on.  [pkh] is the wallet's key
    hash, [currentTime] the single [Date.now()] reading of the builder. *)
(* ===================================================================== *)

Module Mesh.

Definition isDelegateValid (delegate : Delegate) (currentTime : Z) : bool :=
  (validUntil delegate =? 0) || (validUntil delegate >? currentTime).

Definition isAttributeValid (attribute : Attribute) (currentTime : Z) : bool :=
  (attrValidUntil attribute =? 0) || (attrValidUntil attribute >? currentTime).

Definition changeOwner (pkh : string) (currentDatum : IdentityDatum)
    (newOwnerPkh : string) : Tx :=
  let newDatum :=
    mkIdentityDatum (identity currentDatum) newOwnerPkh (delegates currentDatum)
                    (attributes currentDatum) (Num.nadd (nonce currentDatum) 1) in
  mkTx newDatum (ChangeOwner newOwnerPkh) pkh None None.

Definition addDelegate (pkh : string) (currentDatum : IdentityDatum) (currentTime : Z)
    (delegateType0 delegatePkh : string) (validityMs : Z) : Tx :=
  let validUntil0 := if validityMs =? 0 then 0 else Num.nadd currentTime validityMs in
  let existingDelegates :=
    List.filter (fun d => negb ((delegateAddress d =? delegatePkh)%string
                                && (delegateType d =? delegateType0)%string))
                (delegates currentDatum) in
  let newDelegates := existingDelegates ++ [mkDelegate delegatePkh delegateType0 validUntil0] in
  let newDatum :=
    mkIdentityDatum (identity currentDatum) (owner currentDatum) newDelegates
                    (attributes currentDatum) (Num.nadd (nonce currentDatum) 1) in
  mkTx newDatum (AddDelegate delegateType0 delegatePkh validityMs) pkh
       (Some (Num.nsub currentTime 60000)) (Some (Num.nadd currentTime 600000)).

Definition revokeDelegate (pkh : string) (currentDatum : IdentityDatum)
    (delegateType0 delegatePkh : string) : Tx :=
  let newDelegates :=
    List.filter (fun d => negb ((delegateAddress d =? delegatePkh)%string
                                && (delegateType d =? delegateType0)%string))
                (delegates currentDatum) in
  let newDatum :=
    mkIdentityDatum (identity currentDatum) (owner currentDatum) newDelegates
                    (attributes currentDatum) (Num.nadd (nonce currentDatum) 1) in
  mkTx newDatum (RevokeDelegate delegateType0 delegatePkh) pkh None None.

Definition setAttribute (pkh : string) (currentDatum : IdentityDatum) (currentTime : Z)
    (name value : string) (validityMs : Z) : Tx :=
  let validUntil0 := if validityMs =? 0 then 0 else Num.nadd currentTime validityMs in
  let existingAttributes :=
    List.filter (fun a => negb (attrName a =? name)%string) (attributes currentDatum) in
  let newAttributes := existingAttributes ++ [mkAttribute name value validUntil0] in
  let newDatum :=
    mkIdentityDatum (identity currentDatum) (owner currentDatum) (delegates currentDatum)
                    newAttributes (Num.nadd (nonce currentDatum) 1) in
  mkTx newDatum (SetAttribute name value validityMs) pkh
       (Some (Num.nsub currentTime 60000)) (Some (Num.nadd currentTime 600000)).

Definition revokeAttribute (pkh : string) (currentDatum : IdentityDatum)
    (name value : string) : Tx :=
  let newAttributes :=
    List.filter (fun a => negb ((attrName a =? name)%string && (attrValue a =? value)%string))
                (attributes currentDatum) in
  let newDatum :=
    mkIdentityDatum (identity currentDatum) (owner currentDatum) (delegates currentDatum)
                    newAttributes (Num.nadd (nonce currentDatum) 1) in
  mkTx newDatum (RevokeAttribute name value) pkh None None.

(** [new DataView(buf).setUint32(0, value, false)] on a 4-byte buffer. *)
Definition setUint32 (value : Z) : list Bytes.byte :=
  let u := Num.ToUint32 value in
  [Bytes.of_Z (Z.shiftr u 24); Bytes.of_Z (Z.shiftr u 16);
   Bytes.of_Z (Z.shiftr u 8); Bytes.of_Z u].

(** [computeIdentityTokenName]. *)
Definition computeIdentityTokenName (txHash : string) (outputIndex : Z) : option string :=
  match Hex.decodeHex txHash with
  | None => None
  | Some txHashBytes =>
      let outputIndexBytes := setUint32 outputIndex in
      let combined := txHashBytes ++ outputIndexBytes in
      Some (Hex.encodeHex (Sha256.sha256 combined))
  end.

End Mesh.

(* ===================================================================== *)
(** ** Lucid Evolution (TypeScript, [bigint]): [DecentralizedIdentity]

    Same shape as the MeshJS builders, on arbitrary-precision integers.
    [addDelegate] and [setAttribute] read the clock three times: [now0]
    for [currentTime], [now1] and [now2] for the two interval bounds
    (these are [number]s).  [address] is the wallet address given to
    [addSigner]. *)
(* ===================================================================== *)

Module Lucid.

Definition isDelegateValid (delegate : Delegate) (currentTime : Z) : bool :=
  (validUntil delegate =? 0) || (validUntil delegate >? currentTime).

Definition isAttributeValid (attribute : Attribute) (currentTime : Z) : bool :=
  (attrValidUntil attribute =? 0) || (attrValidUntil attribute >? currentTime).

Definition changeOwner (address : string) (currentDatum : IdentityDatum)
    (newOwnerPkh : string) : Tx :=
  let newDatum :=
    mkIdentityDatum (identity currentDatum) newOwnerPkh (delegates currentDatum)
                    (attributes currentDatum) (nonce currentDatum + 1) in
  mkTx newDatum (ChangeOwner newOwnerPkh) address None None.

Definition addDelegate (address : string) (currentDatum : IdentityDatum) (now0 now1 now2 : Z)
    (delegateType0 delegatePkh : string) (validityMs : Z) : Tx :=
  let currentTime := now0 in
  let validUntil0 := if validityMs =? 0 then 0 else currentTime + validityMs in
  let existingDelegates :=
    List.filter (fun d => negb ((delegateAddress d =? delegatePkh)%string
                                && (delegateType d =? delegateType0)%string))
                (delegates currentDatum) in
  let newDelegates := existingDelegates ++ [mkDelegate delegatePkh delegateType0 validUntil0] in
  let newDatum :=
    mkIdentityDatum (identity currentDatum) (owner currentDatum) newDelegates
                    (attributes currentDatum) (nonce currentDatum + 1) in
  mkTx newDatum (AddDelegate delegateType0 delegatePkh validityMs) address
       (Some (Num.nsub now1 60000)) (Some (Num.nadd now2 600000)).

Definition revokeDelegate (address : string) (currentDatum : IdentityDatum)
    (delegateType0 delegatePkh : string) : Tx :=
  let newDelegates :=
    List.filter (fun d => negb ((delegateAddress d =? delegatePkh)%string
                                && (delegateType d =? delegateType0)%string))
                (delegates currentDatum) in
  let newDatum :=
    mkIdentityDatum (identity currentDatum) (owner currentDatum) newDelegates
                    (attributes currentDatum) (nonce currentDatum + 1) in
  mkTx newDatum (RevokeDelegate delegateType0 delegatePkh) address None None.

Definition setAttribute (address : string) (currentDatum : IdentityDatum) (now0 now1 now2 : Z)
    (name value : string) (validityMs : Z) : Tx :=
  let currentTime := now0 in
  let validUntil0 := if validityMs =? 0 then 0 else currentTime + validityMs in
  let existingAttributes :=
    List.filter (fun a => negb (attrName a =? name)%string) (attributes currentDatum) in
  let newAttributes := existingAttributes ++ [mkAttribute name value validUntil0] in
  let newDatum :=
    mkIdentityDatum (identity currentDatum) (owner currentDatum) (delegates currentDatum)
                    newAttributes (nonce currentDatum + 1) in
  mkTx newDatum (SetAttribute name value validityMs) address
       (Some (Num.nsub now1 60000)) (Some (Num.nadd now2 600000)).

Definition revokeAttribute (address : string) (currentDatum : IdentityDatum)
    (name value : string) : Tx :=
  let newAttributes :=
    List.filter (fun a => negb ((attrName a =? name)%string && (attrValue a =? value)%string))
                (attributes currentDatum) in
  let newDatum :=
    mkIdentityDatum (identity currentDatum) (owner currentDatum) (delegates currentDatum)
                    newAttributes (nonce currentDatum + 1) in
  mkTx newDatum (RevokeAttribute name value) address None None.

(** [new DataView(buf).setUint32(0, value, false)] on a 4-byte buffer. *)
Definition setUint32 (value : Z) : list Bytes.byte :=
  let u := Num.ToUint32 value in
  [Bytes.of_Z (Z.shiftr u 24); Bytes.of_Z (Z.shiftr u 16);
   Bytes.of_Z (Z.shiftr u 8); Bytes.of_Z u].

(** [computeIdentityTokenName]. *)
Definition computeIdentityTokenName (txHash : string) (outputIndex : Z) : option string :=
  match Hex.decodeHex txHash with
  | None => None
  | Some txHashBytes =>
      let outputIndexBytes := setUint32 outputIndex in
      let combined := txHashBytes ++ outputIndexBytes in
      Some (Hex.encodeHex (Sha256.sha256 combined))
  end.

End Lucid.

(* ===================================================================== *)
(** ** The read-only projection: W3C DID documents *)
(* ===================================================================== *)

Record VerificationMethod : Type := mkVerificationMethod {
  vmId : string;
  vmType : string;
  vmController : string;
  blockchainAccountId : string
}.

Record ServiceEndpoint : Type := mkServiceEndpoint {
  serviceId : string;
  serviceType : string;
  serviceEndpoint : string
}.

(** The [cardanoIdentity] entry added when custom attributes exist. *)
Record CardanoIdentity : Type := mkCardanoIdentity {
  ciNetwork : string;
  ciNonce : Z;
  ciAttributes : gmap string string
}.

(** Working arrays of the delegate loop. *)
Record VmArrays : Type := mkVmArrays {
  verificationMethods : list VerificationMethod;
  authenticationIds : list string;
  assertionMethodIds : list string;
  keyAgreementIds : list string
}.

Module Doc.

(** Decimal rendering of a loop index inside a template string. *)
Definition showIndex (index : nat) : string :=
  NilEmpty.string_of_uint (Nat.to_uint index).

(** [Array.prototype.push] / [List.add]. *)
Definition push {A : Type} (l : list A) (x : A) : list A := l ++ [x].

(** [forEach((x, index) => ...)] and the indexed [for] loop, threading
    the arrays the body mutates. *)
Fixpoint forEachFrom {A St : Type} (body : St -> A -> nat -> St)
    (index : nat) (l : list A) (s : St) : St :=
  match l with
  | [] => s
  | x :: rest => forEachFrom body (S index) rest (body s x index)
  end.

Definition forEach {A St : Type} (body : St -> A -> nat -> St) (l : list A) (s : St) : St :=
  forEachFrom body 0 l s.

(** [s.substring(n)]: the string without its first [n] code units. *)
Fixpoint substringFrom (n : nat) (s : string) : string :=
  match n, s with
  | O, _ => s
  | S n', String _ rest => substringFrom n' rest
  | S _, EmptyString => EmptyString
  end.

Definition startsWith (s pre : string) : bool := String.prefix pre s.

Definition ownerVMId (did : string) : string := did +:+ "#owner".
Definition delegateVMId (did : string) (index : nat) : string :=
  did +:+ "#delegate-" +:+ showIndex index.
Definition serviceIdOf (did : string) (index : nat) : string :=
  did +:+ "#service-" +:+ showIndex index.

Definition accountId (network address : string) : string :=
  "cardano:" +:+ network +:+ ":" +:+ address.

Definition ownerVM (network did ownerPkh : string) : VerificationMethod :=
  mkVerificationMethod (ownerVMId did) "Ed25519VerificationKey2020" did
                       (accountId network ownerPkh).

Definition delegateVM (network did : string) (index : nat) (delegate : Delegate)
  : VerificationMethod :=
  mkVerificationMethod (delegateVMId did index) "Ed25519VerificationKey2020" did
                       (accountId network (delegateAddress delegate)).

(** Body of the delegate loop. *)
Definition delegateBody (network did : string) (st : VmArrays) (delegate : Delegate)
    (index : nat) : VmArrays :=
  let vmId0 := delegateVMId did index in
  let vm := delegateVM network did index delegate in
  let vms := push (verificationMethods st) vm in
  let delegateType0 := delegateType delegate in
  if (delegateType0 =? "veriKey")%string then
    mkVmArrays vms (push (authenticationIds st) vmId0) (assertionMethodIds st)
               (keyAgreementIds st)
  else if (delegateType0 =? "sigAuth")%string then
    mkVmArrays vms (authenticationIds st) (push (assertionMethodIds st) vmId0)
               (keyAgreementIds st)
  else if (delegateType0 =? "enc")%string then
    mkVmArrays vms (authenticationIds st) (assertionMethodIds st)
               (push (keyAgreementIds st) vmId0)
  else
    mkVmArrays vms (authenticationIds st) (assertionMethodIds st) (keyAgreementIds st).

(** Body of the service-endpoint loop. *)
Definition serviceBody (did : string) (services : list ServiceEndpoint) (attr : Attribute)
    (index : nat) : list ServiceEndpoint :=
  if startsWith (attrName attr) "did/svc/" then
    let serviceName := substringFrom 8 (attrName attr) in
    push services (mkServiceEndpoint (serviceIdOf did index) serviceName (attrValue attr))
  else services.

(** [customAttrs[name] = value] on a plain JavaScript object: the own
    property is created or overwritten, except that the key
    ["__proto__"] reaches the inherited setter, which ignores a string. *)
Definition objSet (o : gmap string string) (k v : string) : gmap string string :=
  if (k =? "__proto__")%string then o else <[k := v]> o.

(** [HashMap.put]. *)
Definition mapPut (o : gmap string string) (k v : string) : gmap string string :=
  <[k := v]> o.

Definition customBody (set : gmap string string -> string -> string -> gmap string string)
    (customAttrs : gmap string string) (attr : Attribute) (_ : nat) : gmap string string :=
  if negb (startsWith (attrName attr) "did/") then
    set customAttrs (attrName attr) (attrValue attr)
  else customAttrs.

Definition contextUris : list string :=
  [ "https://www.w3.org/ns/did/v1";
    "https://w3id.org/security/suites/ed25519-2020/v1" ]%string.

(** ** DID syntax *)

(** The longest prefix of [s] without a colon, and what follows it: one
    greedy group [([^:]+)] of the DID pattern before its emptiness test.
    The group stops exactly at the first colon, so the pattern matches in
    one way at most. *)
Fixpoint colonFreeRun (s : string) : string * string :=
  match s with
  | EmptyString => (EmptyString, EmptyString)
  | String c rest =>
      if Ascii.eqb c ":" then (EmptyString, s)
      else let (run, r) := colonFreeRun rest in (String c run, r)
  end.

(** A group followed by a colon: [([^:]+):]. *)
Definition groupThenColon (s : string) : option (string * string) :=
  match colonFreeRun s with
  | (String c run, String _ rest) => Some (String c run, rest)
  | _ => None
  end.

(** A group followed by the end of the input: [([^:]+)$]. *)
Definition groupThenEnd (s : string) : option string :=
  match colonFreeRun s with
  | (String c run, EmptyString) => Some (String c run)
  | _ => None
  end.

Record DIDParts : Type := mkDIDParts {
  method : string;
  network : string;
  identifier : string
}.

(** [parseDID]: the match of [^did:([^:]+):([^:]+):([^:]+)$] against the
    whole string, [None] for [null]. *)
Definition parseDID (did : string) : option DIDParts :=
  if startsWith did "did:" then
    match groupThenColon (substringFrom 4 did) with
    | None => None
    | Some (m, r1) =>
        match groupThenColon r1 with
        | None => None
        | Some (n, r2) =>
            match groupThenEnd r2 with
            | None => None
            | Some i => Some (mkDIDParts m n i)
            end
        end
    end
  else None.

(** [generateDID]. *)
Definition generateDID (policyId network0 : string) : string :=
  "did:cardano:" +:+ network0 +:+ ":" +:+ policyId.

(** The exceptions of [resolve]. *)
Inductive ResolveError : Type :=
| InvalidDIDFormat
| UnsupportedDIDMethod
| NetworkMismatch
| IdentityNotFound.

End Doc.

(** The TypeScript document; [None] stands for [undefined] / an absent key. *)
Record DIDDocument : Type := mkDIDDocument {
  context : list string;
  id : string;
  controller : list string;
  verificationMethod : list VerificationMethod;
  authentication : list string;
  assertionMethod : list string;
  keyAgreement : option (list string);
  capabilityInvocation : list string;
  capabilityDelegation : list string;
  service : option (list ServiceEndpoint);
  cardanoIdentity : option CardanoIdentity
}.

(** [buildDIDDocument] of the two TypeScript resolvers.  The bodies are
    the same text; they differ in the validity helpers they import and in
    the conversion applied to the nonce ([Number(datum.nonce)] in Lucid,
    none in MeshJS).  [currentTime] is the [Date.now()] reading taken on
    entry. *)
Definition buildDIDDocumentTS
    (isDelegateValid : Delegate -> Z -> bool)
    (isAttributeValid : Attribute -> Z -> bool)
    (nonceToNumber : Z -> Z)
    (network did : string) (datum : IdentityDatum) (currentTime : Z) : DIDDocument :=
  let validDelegates := List.filter (fun d => isDelegateValid d currentTime) (delegates datum) in
  let validAttributes := List.filter (fun a => isAttributeValid a currentTime) (attributes datum) in
  let ownerVMId := Doc.ownerVMId did in
  let st0 := mkVmArrays [Doc.ownerVM network did (owner datum)] [ownerVMId] [ownerVMId] [] in
  let st := Doc.forEach (Doc.delegateBody network did) validDelegates st0 in
  let services := Doc.forEach (Doc.serviceBody did) validAttributes [] in
  let customAttrs := Doc.forEach (Doc.customBody Doc.objSet) validAttributes ∅ in
  mkDIDDocument
    Doc.contextUris
    did
    [did]
    (verificationMethods st)
    (authenticationIds st)
    (assertionMethodIds st)
    (if (0 <? length (keyAgreementIds st))%nat then Some (keyAgreementIds st) else None)
    [ownerVMId]
    [ownerVMId]
    (if (0 <? length services)%nat then Some services else None)
    (if (0 <? size customAttrs)%nat
     then Some (mkCardanoIdentity network (nonceToNumber (nonce datum)) customAttrs)
     else None).

(** [resolve] of the two TypeScript resolvers: the checks on the DID, then
    the datum read from the chain ([None] when [getIdentityDatum] returns
    [null]), then the document. *)
Definition resolveTS
    (build : string -> string -> IdentityDatum -> Z -> DIDDocument)
    (network did : string) (datum : option IdentityDatum) (currentTime : Z)
  : Doc.ResolveError + DIDDocument :=
  match Doc.parseDID did with
  | None => inl Doc.InvalidDIDFormat
  | Some didParts =>
      if negb (Doc.method didParts =? "cardano")%string then inl Doc.UnsupportedDIDMethod
      else if negb (Doc.network didParts =? network)%string then inl Doc.NetworkMismatch
      else
        match datum with
        | None => inl Doc.IdentityNotFound
        | Some datum => inr (build network did datum currentTime)
        end
  end.

Module CardanoDIDResolver.
(** Lucid Evolution: [CardanoDIDResolver.buildDIDDocument]. *)
Definition buildDIDDocument : string -> string -> IdentityDatum -> Z -> DIDDocument :=
  buildDIDDocumentTS Lucid.isDelegateValid Lucid.isAttributeValid Num.round_double.

(** [CardanoDIDResolver.resolve]. *)
Definition resolve : string -> string -> option IdentityDatum -> Z
                     -> Doc.ResolveError + DIDDocument :=
  resolveTS buildDIDDocument.

End CardanoDIDResolver.

Module MeshDIDResolver.
(** MeshJS: [MeshDIDResolver.buildDIDDocument]. *)
Definition buildDIDDocument : string -> string -> IdentityDatum -> Z -> DIDDocument :=
  buildDIDDocumentTS Mesh.isDelegateValid Mesh.isAttributeValid (fun n => n).

(** [MeshDIDResolver.resolve]. *)
Definition resolve : string -> string -> option IdentityDatum -> Z
                     -> Doc.ResolveError + DIDDocument :=
  resolveTS buildDIDDocument.

End MeshDIDResolver.

Module DIDResolver.

(** Java: the [DIDDocument] record; its canonical constructor replaces a
    [null] list by the empty list, and [additionalProperties] holds at
    most the key ["cardanoIdentity"]. *)
Record DIDDocument : Type := mkDIDDocument {
  context : list string;
  id : string;
  controller : list string;
  verificationMethod : list VerificationMethod;
  authentication : list string;
  assertionMethod : list string;
  keyAgreement : list string;
  capabilityInvocation : list string;
  capabilityDelegation : list string;
  service : list ServiceEndpoint;
  additionalProperties : option CardanoIdentity
}.

Definition orEmpty {A : Type} (l : option (list A)) : list A :=
  match l with Some l => l | None => [] end.

Definition isEmpty {A : Type} (l : list A) : bool :=
  match l with [] => true | _ => false end.

(** [DIDResolver.buildDIDDocument]; [currentTime] is the
    [System.currentTimeMillis()] reading taken on entry. *)
Definition buildDIDDocument (network did : string) (datum : IdentityDatum)
    (currentTime : Z) : DIDDocument :=
  let validDelegates :=
    List.filter (fun d => Java.Delegate_isValid d currentTime) (delegates datum) in
  let validAttributes :=
    List.filter (fun a => Java.Attribute_isValid a currentTime) (attributes datum) in
  let ownerVMId := Doc.ownerVMId did in
  let st0 := mkVmArrays [Doc.ownerVM network did (owner datum)] [ownerVMId] [ownerVMId] [] in
  let st := Doc.forEach (Doc.delegateBody network did) validDelegates st0 in
  let services := Doc.forEach (Doc.serviceBody did) validAttributes [] in
  let customAttrs := Doc.forEach (Doc.customBody Doc.mapPut) validAttributes ∅ in
  let additional :=
    if negb (0 =? size customAttrs)%nat
    then Some (mkCardanoIdentity network (nonce datum) customAttrs)
    else None in
  mkDIDDocument
    Doc.contextUris
    did
    [did]
    (verificationMethods st)
    (authenticationIds st)
    (assertionMethodIds st)
    (orEmpty (if isEmpty (keyAgreementIds st) then None else Some (keyAgreementIds st)))
    [ownerVMId]
    [ownerVMId]
    (orEmpty (if isEmpty services then None else Some services))
    additional.


(** [DIDResolver.resolve]: the datum is an argument. *)
Definition resolve (network did : string) (datum : IdentityDatum) (currentTime : Z)
  : Doc.ResolveError + DIDDocument :=
  match Doc.parseDID did with
  | None => inl Doc.InvalidDIDFormat
  | Some didParts =>
      if negb ("cardano" =? Doc.method didParts)%string then inl Doc.UnsupportedDIDMethod
      else if negb (network =? Doc.network didParts)%string then inl Doc.NetworkMismatch
      else inr (buildDIDDocument network did datum currentTime)
  end.

End DIDResolver.

(* ===================================================================== *)
(** ** The identity state machine (validator) *)
(* ===================================================================== *)

Module Validator.

(** Modelled from the spec: the error taxonomy of section 7. *)
Inductive Error : Type :=
| AuthorizationError
| UniquenessViolation
| SchemaViolation
| NonceError
| ValidityRangeError
| TokenPreservationError.

(** Modelled from the spec: the facts supplied by the authorisation /
    validity oracle of section 4.3, the signer set and the declared
    validity window (a bound is [None] when the transaction leaves it
    open). *)
Record AuthFacts : Type := mkAuthFacts {
  signers : list string;
  lowerBound : option Z;
  upperBound : option Z
}.

(** Modelled from the spec: rule 1, the signer set contains the key. *)
Definition signedBy (facts : AuthFacts) (key : string) : bool :=
  existsb (fun s => (s =? key)%string) (signers facts).

(** Modelled from the spec: the validity computation of rule 4 under the
    bounded-window requirement of rule 5. *)
Definition absoluteExpiry (facts : AuthFacts) (validity : Z) : Error + Z :=
  if validity =? 0 then inr 0
  else
    match lowerBound facts, upperBound facts with
    | Some lower, Some _ => inr (lower + validity)
    | _, _ => inl ValidityRangeError
    end.

(** Modelled from the spec: the on-chain spend validator
    [validators/identity.ak] is missing from the source tree.  This is
    the transition function of sections 4.2 and 9 of the specification:
    rule 1 (the owner signs, otherwise [AuthorizationError]), rule 3
    (the nonce grows by one), the table of rule 4 and rule 5 (a bounded
    window whenever an absolute expiry is computed, otherwise
    [ValidityRangeError]).  Rule 2 concerns the ledger output that
    carries the token and is outside this function. *)
Definition transition (D : IdentityDatum) (A : Action) (facts : AuthFacts)
  : Error + IdentityDatum :=
  if negb (signedBy facts (owner D)) then inl AuthorizationError
  else
    match A with
    | ChangeOwner new_owner =>
        inr (mkIdentityDatum (identity D) new_owner (delegates D) (attributes D)
                             (nonce D + 1))
    | AddDelegate type address validity =>
        match absoluteExpiry facts validity with
        | inl e => inl e
        | inr valid_until =>
            let kept := List.filter (fun d => negb (sameDelegate address type d)) (delegates D) in
            inr (mkIdentityDatum (identity D) (owner D)
                                 (kept ++ [mkDelegate address type valid_until])
                                 (attributes D) (nonce D + 1))
        end
    | RevokeDelegate type address =>
        let kept := List.filter (fun d => negb (sameDelegate address type d)) (delegates D) in
        inr (mkIdentityDatum (identity D) (owner D) kept (attributes D) (nonce D + 1))
    | SetAttribute name value validity =>
        match absoluteExpiry facts validity with
        | inl e => inl e
        | inr valid_until =>
            let kept :=
              List.filter (fun a => negb (attrName a =? name)%string) (attributes D) in
            inr (mkIdentityDatum (identity D) (owner D) (delegates D)
                                 (kept ++ [mkAttribute name value valid_until])
                                 (nonce D + 1))
        end
    | RevokeAttribute name value =>
        let kept := List.filter (fun a => negb (sameAttribute name value a)) (attributes D) in
        inr (mkIdentityDatum (identity D) (owner D) (delegates D) kept (nonce D + 1))
    end.

End Validator.

(* ===================================================================== *)
(** ** One interface over the three implementations

    The theorems below speak about "every operation of every
    implementation".  [build] dispatches a requested operation to the
    builder of the chosen implementation; [Env] collects what a builder
    reads from its surroundings. *)
(* ===================================================================== *)

Inductive Impl : Type := LucidImpl | MeshImpl | JavaImpl.

Record Env : Type := mkEnv {
  signer : string;   (* wallet address / key hash / owner account *)
  now0 : Z;          (* first clock reading, the builder's currentTime *)
  now1 : Z;          (* clock reading for validFrom (Lucid) *)
  now2 : Z;          (* clock reading for validTo (Lucid) *)
  slot : Z           (* latest slot (Java) *)
}.

(** The request: an [Action] whose validity is in the unit of the
    builder's parameter (milliseconds for TypeScript, days for Java). *)
Definition build (impl : Impl) (env : Env) (D : IdentityDatum) (A : Action) : Tx :=
  match impl, A with
  | LucidImpl, ChangeOwner o => Lucid.changeOwner (signer env) D o
  | LucidImpl, AddDelegate t a v =>
      Lucid.addDelegate (signer env) D (now0 env) (now1 env) (now2 env) t a v
  | LucidImpl, RevokeDelegate t a => Lucid.revokeDelegate (signer env) D t a
  | LucidImpl, SetAttribute n v x =>
      Lucid.setAttribute (signer env) D (now0 env) (now1 env) (now2 env) n v x
  | LucidImpl, RevokeAttribute n v => Lucid.revokeAttribute (signer env) D n v
  | MeshImpl, ChangeOwner o => Mesh.changeOwner (signer env) D o
  | MeshImpl, AddDelegate t a v => Mesh.addDelegate (signer env) D (now0 env) t a v
  | MeshImpl, RevokeDelegate t a => Mesh.revokeDelegate (signer env) D t a
  | MeshImpl, SetAttribute n v x => Mesh.setAttribute (signer env) D (now0 env) n v x
  | MeshImpl, RevokeAttribute n v => Mesh.revokeAttribute (signer env) D n v
  | JavaImpl, ChangeOwner o => Java.changeOwner (signer env) D o
  | JavaImpl, AddDelegate t a v => Java.addDelegate (signer env) D (now0 env) (slot env) t a v
  | JavaImpl, RevokeDelegate t a => Java.revokeDelegate (signer env) D t a
  | JavaImpl, SetAttribute n v x => Java.setAttribute (signer env) D (now0 env) (slot env) n v x
  | JavaImpl, RevokeAttribute n v => Java.revokeAttribute (signer env) D n v
  end.

(** The record an operation produces. *)
Definition apply (impl : Impl) (env : Env) (D : IdentityDatum) (A : Action) : IdentityDatum :=
  txDatum (build impl env D A).

(** Nonces on which [nonce + 1] is exact in the implementation's integer
    type. *)
Definition nonceInRange (impl : Impl) (n : Z) : Prop :=
  match impl with
  | LucidImpl => True
  | MeshImpl => - Num.MAX_EXACT <= n < Num.MAX_EXACT
  | JavaImpl => Num.Long_MIN_VALUE <= n < Num.Long_MAX_VALUE
  end.

(** The implementation's own [nonce + 1]. *)
Definition increment (impl : Impl) (n : Z) : Z :=
  match impl with
  | LucidImpl => n + 1
  | MeshImpl => Num.nadd n 1
  | JavaImpl => Java.ladd n 1
  end.

Definition isDelegateValid (impl : Impl) : Delegate -> Z -> bool :=
  match impl with
  | LucidImpl => Lucid.isDelegateValid
  | MeshImpl => Mesh.isDelegateValid
  | JavaImpl => Java.Delegate_isValid
  end.

Definition isAttributeValid (impl : Impl) : Attribute -> Z -> bool :=
  match impl with
  | LucidImpl => Lucid.isAttributeValid
  | MeshImpl => Mesh.isAttributeValid
  | JavaImpl => Java.Attribute_isValid
  end.

Definition computeIdentityTokenName (impl : Impl) : string -> Z -> option string :=
  match impl with
  | LucidImpl => Lucid.computeIdentityTokenName
  | MeshImpl => Mesh.computeIdentityTokenName
  | JavaImpl => Java.computeIdentityTokenName
  end.

(** The parts of a projected document the claims speak about, read off
    the TypeScript or the Java document. *)
Record DocView : Type := mkDocView {
  viewVerificationMethod : list VerificationMethod;
  viewAuthentication : list string;
  viewAssertionMethod : list string;
  viewKeyAgreement : list string;
  viewService : list ServiceEndpoint;
  viewCustomAttributes : gmap string string
}.

Definition customOf (c : option CardanoIdentity) : gmap string string :=
  match c with Some ci => ciAttributes ci | None => ∅ end.

Definition viewTS (doc : DIDDocument) : DocView :=
  mkDocView (verificationMethod doc) (authentication doc) (assertionMethod doc)
            (DIDResolver.orEmpty (keyAgreement doc)) (DIDResolver.orEmpty (service doc))
            (customOf (cardanoIdentity doc)).

Definition viewJava (doc : DIDResolver.DIDDocument) : DocView :=
  mkDocView (DIDResolver.verificationMethod doc) (DIDResolver.authentication doc)
            (DIDResolver.assertionMethod doc) (DIDResolver.keyAgreement doc)
            (DIDResolver.service doc) (customOf (DIDResolver.additionalProperties doc)).

Definition project (impl : Impl) (network did : string) (datum : IdentityDatum)
    (currentTime : Z) : DocView :=
  match impl with
  | LucidImpl => viewTS (CardanoDIDResolver.buildDIDDocument network did datum currentTime)
  | MeshImpl => viewTS (MeshDIDResolver.buildDIDDocument network did datum currentTime)
  | JavaImpl => viewJava (DIDResolver.buildDIDDocument network did datum currentTime)
  end.

(** Key uniqueness of the two collections, on the texts the code compares
    ([===], [equals]).  For key hashes as they are read from the chain
    this is uniqueness of the pairs of the Record ([onePerPair] below). *)
Definition delegateKey (d : Delegate) : string * string := (delegateAddress d, delegateType d).

Definition uniqueDelegates (l : list Delegate) : Prop := List.NoDup (List.map delegateKey l).
Definition uniqueAttributes (l : list Attribute) : Prop := List.NoDup (List.map attrName l).

(** A list with its positions, as the loops see it. *)
Definition indexed {A : Type} (l : list A) : list (nat * A) := combine (seq 0 (length l)) l.

(** The [valid_until] an add or set stores, as each builder computes it. *)
Definition storedValidUntil (impl : Impl) (env : Env) (validity : Z) : Z :=
  match impl with
  | LucidImpl => if validity =? 0 then 0 else now0 env + validity
  | MeshImpl => if validity =? 0 then 0 else Num.nadd (now0 env) validity
  | JavaImpl => Java.validUntilOf (now0 env) validity
  end.



(** The entries the projection is expected to hold, as functions of the
    non-expired delegates and attributes (each paired with its position). *)
Definition delegateEntries (network did : string) (valid : list Delegate)
  : list VerificationMethod :=
  List.map (fun p => Doc.delegateVM network did (fst p) (snd p)) (indexed valid).

Definition idsOfType (did type : string) (valid : list Delegate) : list string :=
  List.map (fun p => Doc.delegateVMId did (fst p))
           (List.filter (fun p => (delegateType (snd p) =? type)%string) (indexed valid)).

Definition isServiceAttribute (a : Attribute) : bool := Doc.startsWith (attrName a) "did/svc/".

Definition serviceOf (did : string) (p : nat * Attribute) : ServiceEndpoint :=
  mkServiceEndpoint (Doc.serviceIdOf did (fst p)) (Doc.substringFrom 8 (attrName (snd p)))
                    (attrValue (snd p)).

Definition serviceEntries (did : string) (valid : list Attribute) : list ServiceEndpoint :=
  List.map (serviceOf did) (List.filter (fun p => isServiceAttribute (snd p)) (indexed valid)).

(** A SHA-256 state whose eight words are 32-bit numbers. *)
Definition wordsInRange (s : Sha256.State) : Prop :=
  0 <= Sha256.sa s < 2 ^ 32 /\ 0 <= Sha256.sb s < 2 ^ 32 /\ 0 <= Sha256.sc s < 2 ^ 32
  /\ 0 <= Sha256.sd s < 2 ^ 32 /\ 0 <= Sha256.se s < 2 ^ 32 /\ 0 <= Sha256.sf s < 2 ^ 32
  /\ 0 <= Sha256.sg s < 2 ^ 32 /\ 0 <= Sha256.sh s < 2 ^ 32.

(** The [n]-th reference with a 32-byte hash: the hash is the 32-byte
    big-endian form of [n] and the index is 0, except that [2^256] is
    the all-zero hash at index 1. *)
Definition nthReference (n : Z) : OutputReference :=
  mkOutputReference (Bytes.bigEndian 32 n) (n / 2 ^ 256).

(** ASCII text as bytes (for test vectors). *)
Definition bytesOfText (s : string) : list Bytes.byte :=
  List.map byte_of_ascii (list_ascii_of_string s).

(** Key uniqueness of a literal list. *)
Ltac nodup_by_inspection :=
  repeat (apply List.NoDup_cons;
          [ simpl; let H := fresh in
            intros H; repeat (destruct H as [H | H]; [discriminate H |]); exact H
          | ]);
  apply List.NoDup_nil.

(* ===================================================================== *)
(** ** Further parts of the three implementations *)
(* ===================================================================== *)

(** All elements of a list of optional values, if none is missing. *)
Fixpoint allSome {A : Type} (l : list (option A)) : option (list A) :=
  match l with
  | [] => Some []
  | Some x :: rest =>
      match allSome rest with
      | Some xs => Some (x :: xs)
      | None => None
      end
  | None :: _ => None
  end.

(** *** MeshJS: the datum as Mesh JSON data *)

Module MeshDatum.

(** The JSON data of [@meshsdk/common]: [conStr0(fields)] is
    [{constructor: 0, fields}], [byteString(s)] is [{bytes: s}],
    [integer(n)] is [{int: n}] and [list(l)] is [{list: l}]. *)
#[warnings="-register-all"]
Inductive Data : Type :=
| ConStr (constructor : Z) (fields : list Data)
| ByteString (bytes : string)
| Integer (int : Z)
| DataList (items : list Data).

Definition conStr0 (fields : list Data) : Data := ConStr 0 fields.

(** [createDelegateDatum], [createAttributeDatum], [createIdentityDatum];
    [stringToHex] is the text-to-hex routine of [@meshsdk/core], and
    [byteString] is taken on the hexadecimal text it is meant for. *)
Definition createDelegateDatum (stringToHex : string -> string) (delegate : Delegate) : Data :=
  conStr0 [ByteString (delegateAddress delegate);
           ByteString (stringToHex (delegateType delegate));
           Integer (validUntil delegate)].

Definition createAttributeDatum (stringToHex : string -> string) (attribute : Attribute) : Data :=
  conStr0 [ByteString (stringToHex (attrName attribute));
           ByteString (stringToHex (attrValue attribute));
           Integer (attrValidUntil attribute)].

Definition createIdentityDatum (stringToHex : string -> string) (datum : IdentityDatum) : Data :=
  conStr0 [ByteString (identity datum);
           ByteString (owner datum);
           DataList (List.map (createDelegateDatum stringToHex) (delegates datum));
           DataList (List.map (createAttributeDatum stringToHex) (attributes datum));
           Integer (nonce datum)].

(** Property reads of [parseIdentityDatum].  [None] stands for a read that
    does not give a value of the expected kind: a [TypeError] on
    [undefined], or an [undefined] / [NaN] field in the result. *)
Definition fieldAt (d : Data) (i : nat) : option Data :=
  match d with
  | ConStr _ fields => nth_error fields i
  | _ => None
  end.

Definition bytesOf (d : option Data) : option string :=
  match d with
  | Some (ByteString b) => Some b
  | _ => None
  end.

(** [Number(x.int)]. *)
Definition numberOf (d : option Data) : option Z :=
  match d with
  | Some (Integer n) => Some (Num.round_double n)
  | _ => None
  end.

(** [(x.list || [])]: an element that is present but carries no list reads
    as the empty list. *)
Definition listOrEmpty (d : option Data) : option (list Data) :=
  match d with
  | Some (DataList l) => Some l
  | Some _ => Some []
  | None => None
  end.

Definition parseDelegate (hexToString : string -> string) (d : Data) : option Delegate :=
  match bytesOf (fieldAt d 0), bytesOf (fieldAt d 1), numberOf (fieldAt d 2) with
  | Some a, Some t, Some u => Some (mkDelegate a (hexToString t) u)
  | _, _, _ => None
  end.

Definition parseAttribute (hexToString : string -> string) (a : Data) : option Attribute :=
  match bytesOf (fieldAt a 0), bytesOf (fieldAt a 1), numberOf (fieldAt a 2) with
  | Some n, Some v, Some u => Some (mkAttribute (hexToString n) (hexToString v) u)
  | _, _, _ => None
  end.

(** [parseIdentityDatum]; [hexToString] is the hex-to-text routine of
    [@meshsdk/core]. *)
Definition parseIdentityDatum (hexToString : string -> string) (plutusData : Data)
  : option IdentityDatum :=
  match bytesOf (fieldAt plutusData 0), bytesOf (fieldAt plutusData 1),
        listOrEmpty (fieldAt plutusData 2), listOrEmpty (fieldAt plutusData 3),
        numberOf (fieldAt plutusData 4) with
  | Some i, Some o, Some ds, Some attrs, Some n =>
      match allSome (List.map (parseDelegate hexToString) ds),
            allSome (List.map (parseAttribute hexToString) attrs) with
      | Some ds', Some attrs' => Some (mkIdentityDatum i o ds' attrs' n)
      | _, _ => None
      end
  | _, _, _, _, _ => None
  end.

End MeshDatum.

(** *** MeshJS: [MeshIdentityContract] *)

(** An asset of a UTxO: its unit (["lovelace"], or policy id followed by
    token name) and its quantity, the integer its decimal text denotes. *)
Record Asset : Type := mkAsset {
  assetUnit : string;
  assetQuantity : Z
}.

(** A UTxO: its input reference, the assets of its output and the inline
    datum of the output as data ([None] when it carries none). *)
Record UTxO : Type := mkUTxO {
  utxoTxHash : string;
  utxoOutputIndex : Z;
  utxoAmount : list Asset;
  utxoPlutusData : option MeshDatum.Data
}.

(** The transaction of [createIdentity]: the input it spends, the asset it
    mints, the assets and datum of the script output, the required signer. *)
Record MintTx : Type := mkMintTx {
  mintInput : string * Z;
  mintAsset : Asset;
  mintOutput : list Asset;
  mintDatum : IdentityDatum;
  mintSigner : string
}.

Module MeshIdentityContract.

Inductive ContractError : Type :=
| NoCollateralFound
| NoSuitableUTXOFound
| ValidatorsNotFound
| InvalidTxHash
| IdentityNFTNotFound.

Definition hasNft (policyId : string) (utxo : UTxO) : bool :=
  existsb (fun asset => Doc.startsWith (assetUnit asset) policyId) (utxoAmount utxo).

Definition hasData (utxo : UTxO) : bool :=
  match utxoPlutusData utxo with Some _ => true | None => false end.

(** [findIdentityUtxo] over the UTxOs fetched at the script address. *)
Definition findIdentityUtxo (policyId : string) (utxos : list UTxO) : option UTxO :=
  List.find (fun utxo => hasNft policyId utxo && hasData utxo) utxos.

(** The lines of [changeOwner], [addDelegate], [revokeDelegate],
    [setAttribute] and [revokeAttribute] that cut the token name from the
    unit of the identity NFT ([nftAsset.unit.slice(56)]). *)
Definition nftTokenName (policyId : string) (identityUtxo : UTxO)
  : ContractError + string :=
  match List.find (fun a => Doc.startsWith (assetUnit a) policyId)
                  (utxoAmount identityUtxo) with
  | None => inl IdentityNFTNotFound
  | Some nftAsset => inr (Doc.substringFrom 56 (assetUnit nftAsset))
  end.

(** The assets every builder attaches to the continuing output. *)
Definition continuingAmount (policyId tokenName : string) : list Asset :=
  [mkAsset "lovelace" 2000000; mkAsset (policyId +:+ tokenName) 1].

(** [parseInt(a.quantity) > 5_000_000] on the lovelace entry. *)
Definition suitable (utxo : UTxO) : bool :=
  existsb (fun a => (assetUnit a =? "lovelace")%string
                    && (Num.round_double (assetQuantity a) >? 5000000))
          (utxoAmount utxo).

(** [createIdentity].  [collaterals] is what the wallet returns for
    [getCollateral]; [loadValidators] stands for the method of that name,
    giving the NFT policy id it resolves for a reference, or [None] when
    it throws. *)
Definition createIdentity (loadValidators : string -> Z -> option string)
    (pkh : string) (utxos collaterals : list UTxO) : ContractError + MintTx :=
  match collaterals with
  | [] => inl NoCollateralFound
  | _ :: _ =>
      match List.find suitable utxos with
      | None => inl NoSuitableUTXOFound
      | Some selectedUtxo =>
          match loadValidators (utxoTxHash selectedUtxo) (utxoOutputIndex selectedUtxo) with
          | None => inl ValidatorsNotFound
          | Some identityNftPolicyId =>
              match Mesh.computeIdentityTokenName (utxoTxHash selectedUtxo)
                                                  (utxoOutputIndex selectedUtxo) with
              | None => inl InvalidTxHash
              | Some tokenName =>
                  let initialDatum := mkIdentityDatum pkh pkh [] [] 0 in
                  inr (mkMintTx (utxoTxHash selectedUtxo, utxoOutputIndex selectedUtxo)
                                (mkAsset (identityNftPolicyId +:+ tokenName) 1)
                                (continuingAmount identityNftPolicyId tokenName)
                                initialDatum pkh)
              end
          end
      end
  end.

(** [getValidDelegates], [getValidAttributes], [isValidDelegate]; [datum]
    is the result of [getIdentityDatum] ([None] for [null]) and
    [currentTime] the [Date.now()] reading. *)
Definition getValidDelegates (datum : option IdentityDatum) (currentTime : Z) : list Delegate :=
  match datum with
  | None => []
  | Some datum => List.filter (fun d => Mesh.isDelegateValid d currentTime) (delegates datum)
  end.

Definition getValidAttributes (datum : option IdentityDatum) (currentTime : Z)
  : list Attribute :=
  match datum with
  | None => []
  | Some datum => List.filter (fun a => Mesh.isAttributeValid a currentTime) (attributes datum)
  end.

Definition isValidDelegate (datum : option IdentityDatum) (currentTime : Z)
    (delegateType0 delegatePkh : string) : bool :=
  match datum with
  | None => false
  | Some datum =>
      match List.find (fun d => (delegateType d =? delegateType0)%string
                                && (delegateAddress d =? delegatePkh)%string)
                      (delegates datum) with
      | Some delegate => Mesh.isDelegateValid delegate currentTime
      | None => false
      end
  end.

End MeshIdentityContract.

(** *** Lucid Evolution: the queries of [DecentralizedIdentity] *)

Module DecentralizedIdentity.

Definition getValidDelegates (datum : option IdentityDatum) (currentTime : Z) : list Delegate :=
  match datum with
  | None => []
  | Some datum => List.filter (fun d => Lucid.isDelegateValid d currentTime) (delegates datum)
  end.

Definition getValidAttributes (datum : option IdentityDatum) (currentTime : Z)
  : list Attribute :=
  match datum with
  | None => []
  | Some datum => List.filter (fun a => Lucid.isAttributeValid a currentTime) (attributes datum)
  end.

Definition isValidDelegate (datum : option IdentityDatum) (currentTime : Z)
    (delegateType0 delegatePkh : string) : bool :=
  match datum with
  | None => false
  | Some datum =>
      match List.find (fun d => (delegateType d =? delegateType0)%string
                                && (delegateAddress d =? delegatePkh)%string)
                      (delegates datum) with
      | Some delegate => Lucid.isDelegateValid delegate currentTime
      | None => false
      end
  end.

End DecentralizedIdentity.

(** *** Java: the datum as Plutus data, in [Identity.java] *)

Module Identity.

#[warnings="-register-all"]
Inductive PlutusData : Type :=
| ConstrPlutusData (alternative : Z) (data : list PlutusData)
| BytesPlutusData (value : list Bytes.byte)
| BigIntPlutusData (value : Z)
| ListPlutusData (plutusDataList : list PlutusData).

(** [Delegate.toPlutusData]; [None] when [HexUtil.decodeHexString] throws
    on the address.  [getBytes] is [String.getBytes()]. *)
Definition Delegate_toPlutusData (getBytes : string -> list Bytes.byte) (d : Delegate)
  : option PlutusData :=
  match Java.decodeHexString (delegateAddress d) with
  | None => None
  | Some address =>
      Some (ConstrPlutusData 0 [BytesPlutusData address;
                                BytesPlutusData (getBytes (delegateType d));
                                BigIntPlutusData (validUntil d)])
  end.

Definition Attribute_toPlutusData (getBytes : string -> list Bytes.byte) (a : Attribute)
  : PlutusData :=
  ConstrPlutusData 0 [BytesPlutusData (getBytes (attrName a));
                      BytesPlutusData (getBytes (attrValue a));
                      BigIntPlutusData (attrValidUntil a)].

(** [IdentityDatum.toPlutusData]: the two lists are built first, then the
    identity and the owner are decoded. *)
Definition toPlutusData (getBytes : string -> list Bytes.byte) (D : IdentityDatum)
  : option PlutusData :=
  match allSome (List.map (Delegate_toPlutusData getBytes) (delegates D)) with
  | None => None
  | Some delegatesList =>
      let attributesList := List.map (Attribute_toPlutusData getBytes) (attributes D) in
      match Java.decodeHexString (identity D), Java.decodeHexString (owner D) with
      | Some i, Some o =>
          Some (ConstrPlutusData 0 [BytesPlutusData i; BytesPlutusData o;
                                    ListPlutusData delegatesList;
                                    ListPlutusData attributesList;
                                    BigIntPlutusData (nonce D)])
      | _, _ => None
      end
  end.

(** The casts of [fromPlutusData]; [None] for a [ClassCastException] or an
    index out of bounds. *)
Definition asConstr (p : option PlutusData) : option (list PlutusData) :=
  match p with Some (ConstrPlutusData _ data) => Some data | _ => None end.

Definition asBytes (p : option PlutusData) : option (list Bytes.byte) :=
  match p with Some (BytesPlutusData value) => Some value | _ => None end.

Definition asList (p : option PlutusData) : option (list PlutusData) :=
  match p with Some (ListPlutusData l) => Some l | _ => None end.

(** [((BigIntPlutusData) x).getValue().longValue()]. *)
Definition asLong (p : option PlutusData) : option Z :=
  match p with Some (BigIntPlutusData value) => Some (Num.long value) | _ => None end.

Definition Delegate_fromPlutusData (newString : list Bytes.byte -> string) (item : PlutusData)
  : option Delegate :=
  match asConstr (Some item) with
  | None => None
  | Some dFields =>
      match asBytes (nth_error dFields 0), asBytes (nth_error dFields 1),
            asLong (nth_error dFields 2) with
      | Some a, Some t, Some u => Some (mkDelegate (Hex.encodeHex a) (newString t) u)
      | _, _, _ => None
      end
  end.

Definition Attribute_fromPlutusData (newString : list Bytes.byte -> string) (item : PlutusData)
  : option Attribute :=
  match asConstr (Some item) with
  | None => None
  | Some aFields =>
      match asBytes (nth_error aFields 0), asBytes (nth_error aFields 1),
            asLong (nth_error aFields 2) with
      | Some n, Some v, Some u => Some (mkAttribute (newString n) (newString v) u)
      | _, _, _ => None
      end
  end.

(** [IdentityDatum.fromPlutusData]; the argument is a [ConstrPlutusData]
    with data [fields], whose alternative is not inspected.  [newString]
    is [new String(bytes)]. *)
Definition fromPlutusData (newString : list Bytes.byte -> string) (fields : list PlutusData)
  : option IdentityDatum :=
  match asBytes (nth_error fields 0), asBytes (nth_error fields 1) with
  | Some i, Some o =>
      match asList (nth_error fields 2) with
      | None => None
      | Some delegatesList =>
          match allSome (List.map (Delegate_fromPlutusData newString) delegatesList) with
          | None => None
          | Some delegates0 =>
              match asList (nth_error fields 3) with
              | None => None
              | Some attributesList =>
                  match allSome (List.map (Attribute_fromPlutusData newString) attributesList),
                        asLong (nth_error fields 4) with
                  | Some attributes0, Some nonce0 =>
                      Some (mkIdentityDatum (Hex.encodeHex i) (Hex.encodeHex o)
                                            delegates0 attributes0 nonce0)
                  | _, _ => None
                  end
              end
          end
      end
  | _, _ => None
  end.

(** [IdentityDatum.getValidDelegates] and [getValidAttributes];
    [currentTime] is [Instant.now().toEpochMilli()]. *)
Definition getValidDelegates (D : IdentityDatum) (currentTime : Z) : list Delegate :=
  List.filter (fun d => Java.Delegate_isValid d currentTime) (delegates D).

Definition getValidAttributes (D : IdentityDatum) (currentTime : Z) : list Attribute :=
  List.filter (fun a => Java.Attribute_isValid a currentTime) (attributes D).

End Identity.

(** *** Java: the redeemer builders of [Identity.java] *)

Module Redeemer.
Import Identity.

(** [changeOwnerRedeemer] (index 0); [None] when
    [HexUtil.decodeHexString] throws on the key hash. *)
Definition changeOwnerRedeemer (newOwnerPkh : string) : option PlutusData :=
  match Java.decodeHexString newOwnerPkh with
  | None => None
  | Some pkh => Some (ConstrPlutusData 0 [BytesPlutusData pkh])
  end.

(** [addDelegateRedeemer] (index 1). *)
Definition addDelegateRedeemer (getBytes : string -> list Bytes.byte)
    (delegateType0 delegatePkh : string) (validity : Z) : option PlutusData :=
  match Java.decodeHexString delegatePkh with
  | None => None
  | Some pkh =>
      Some (ConstrPlutusData 1 [BytesPlutusData (getBytes delegateType0);
                                BytesPlutusData pkh;
                                BigIntPlutusData validity])
  end.

(** [revokeDelegateRedeemer] (index 2). *)
Definition revokeDelegateRedeemer (getBytes : string -> list Bytes.byte)
    (delegateType0 delegatePkh : string) : option PlutusData :=
  match Java.decodeHexString delegatePkh with
  | None => None
  | Some pkh =>
      Some (ConstrPlutusData 2 [BytesPlutusData (getBytes delegateType0);
                                BytesPlutusData pkh])
  end.

(** [setAttributeRedeemer] (index 3). *)
Definition setAttributeRedeemer (getBytes : string -> list Bytes.byte)
    (name value : string) (validity : Z) : option PlutusData :=
  Some (ConstrPlutusData 3 [BytesPlutusData (getBytes name);
                            BytesPlutusData (getBytes value);
                            BigIntPlutusData validity]).

(** [revokeAttributeRedeemer] (index 4). *)
Definition revokeAttributeRedeemer (getBytes : string -> list Bytes.byte)
    (name value : string) : option PlutusData :=
  Some (ConstrPlutusData 4 [BytesPlutusData (getBytes name);
                            BytesPlutusData (getBytes value)]).

(** The redeemer a Java builder attaches to the input it collects, for
    the action its transaction carries. *)
Definition ofAction (getBytes : string -> list Bytes.byte) (A : Action) : option PlutusData :=
  match A with
  | ChangeOwner newOwnerPkh => changeOwnerRedeemer newOwnerPkh
  | AddDelegate t a v => addDelegateRedeemer getBytes t a v
  | RevokeDelegate t a => revokeDelegateRedeemer getBytes t a
  | SetAttribute n v x => setAttributeRedeemer getBytes n v x
  | RevokeAttribute n v => revokeAttributeRedeemer getBytes n v
  end.

End Redeemer.

(** The key hash an action names, if any. *)
Definition keyHashOf (A : Action) : option string :=
  match A with
  | ChangeOwner o => Some o
  | AddDelegate _ a _ => Some a
  | RevokeDelegate _ a => Some a
  | _ => None
  end.

(** A string without a colon. *)
Definition colonFree (s : string) : Prop := ~ In ":"%char (list_ascii_of_string s).

(** One segment of a DID: not empty, without a colon. *)
Definition segment (s : string) : Prop := s <> EmptyString /\ colonFree s.

(** Text of hexadecimal digits, two per byte, in lower case: what
    [encodeHex] produces. *)
Definition canonicalHex (s : string) : Prop := exists bs, s = Hex.encodeHex bs.

(** The delegates and attributes a projection keeps at a time. *)
Definition validDelegates (impl : Impl) (datum : IdentityDatum) (now : Z) : list Delegate :=
  List.filter (fun d => isDelegateValid impl d now) (delegates datum).

Definition validAttributes (impl : Impl) (datum : IdentityDatum) (now : Z) : list Attribute :=
  List.filter (fun a => isAttributeValid impl a now) (attributes datum).

(** The assignment a projection uses for a custom attribute: a property
    write on a plain object in TypeScript, [HashMap.put] in Java. *)
Definition customSet (impl : Impl)
  : gmap string string -> string -> string -> gmap string string :=
  match impl with
  | JavaImpl => Doc.mapPut
  | _ => Doc.objSet
  end.

(** An attribute the projections treat as custom: its name is outside the
    reserved [did/] space. *)
Definition isCustomAttribute (a : Attribute) : bool := negb (Doc.startsWith (attrName a) "did/").

(* ===================================================================== *)
(** ** Between two operations: the chain

    A builder never receives the record its predecessor computed.  The
    predecessor serialises its record into the datum of the identity UTxO
    ([Data.to], [createIdentityDatum], [toPlutusData]), where a key hash is
    a byte string; the next builder reads that datum
    ([parseIdentityDatum], [fromPlutusData]) and gets the key hash as the
    lower-case hexadecimal text of those bytes.  Delegate types, attribute
    names and attribute values are text on both sides, and the numbers are
    those the record holds. *)
(* ===================================================================== *)

(** The bytes a builder writes for a key hash given as text: [decodeHex]
    semantics for the TypeScript builders, [HexUtil.decodeHexString] for
    Java.  [None]: the text denotes no bytes there, and no datum is
    written from it. *)
Definition keyBytes (impl : Impl) : string -> option (list Bytes.byte) :=
  match impl with
  | JavaImpl => Java.decodeHexString
  | _ => Hex.decodeHex
  end.

(** A key hash as it is read back. *)
Definition readKeyHash (impl : Impl) (written : string) : option string :=
  match keyBytes impl written with
  | Some bytes => Some (Hex.encodeHex bytes)
  | None => None
  end.

Definition readDelegate (impl : Impl) (d : Delegate) : option Delegate :=
  match readKeyHash impl (delegateAddress d) with
  | Some address => Some (mkDelegate address (delegateType d) (validUntil d))
  | None => None
  end.

(** The record the next builder reads when this one was written. *)
Definition readBack (impl : Impl) (D : IdentityDatum) : option IdentityDatum :=
  match readKeyHash impl (identity D), readKeyHash impl (owner D),
        allSome (List.map (readDelegate impl) (delegates D)) with
  | Some identity0, Some owner0, Some delegates0 =>
      Some (mkIdentityDatum identity0 owner0 delegates0 (attributes D) (nonce D))
  | _, _, _ => None
  end.

(** A sequence of operations on one identity: every builder works on the
    record read back from what its predecessor wrote.  [None] when one of
    the records is not written. *)
Fixpoint run (impl : Impl) (steps : list (Env * Action)) (D : IdentityDatum)
  : option IdentityDatum :=
  match steps with
  | [] => Some D
  | step :: rest =>
      match readBack impl (apply impl (fst step) D (snd step)) with
      | Some D' => run impl rest D'
      | None => None
      end
  end.

(** The pair a delegate entry stands for in the Record: the bytes of its
    key hash and its type.  The texts ["ab"] and ["AB"] are one key hash. *)
Definition storedPair (d : Delegate) : option (list Bytes.byte) * string :=
  (Hex.decodeHex (delegateAddress d), delegateType d).

(** At most one entry per (address, type) pair of the Record. *)
Definition onePerPair (l : list Delegate) : Prop := List.NoDup (List.map storedPair l).

(** Delegates as a builder reads them: key hashes in lower-case
    hexadecimal. *)
Definition asRead (l : list Delegate) : Prop :=
  List.Forall (fun d => canonicalHex (delegateAddress d)) l.

(** A record whose numbers are in the range of a Java [long]. *)
Definition longNumbers (D : IdentityDatum) : Prop :=
  Num.is_long (nonce D)
  /\ List.Forall (fun d => Num.is_long (validUntil d)) (delegates D)
  /\ List.Forall (fun a => Num.is_long (attrValidUntil a)) (attributes D).

(** A record as a builder reads it from the chain. *)
Definition fromChain (D : IdentityDatum) : Prop :=
  canonicalHex (identity D) /\ canonicalHex (owner D) /\ asRead (delegates D).

(** Bytes as text, the inverse of [bytesOfText]. *)
Definition textOfBytes (bs : list Bytes.byte) : string :=
  string_of_list_ascii (List.map ascii_of_byte bs).

(** Hexadecimal text of even length, in either case. *)
Definition hexText (s : string) : Prop := Hex.decodeHex s <> None.

(** A datum as the MeshJS records hold it: key hashes in hexadecimal (the
    text [byteString] is meant for), numbers that a JavaScript [number]
    holds exactly. *)
Definition meshDatum (D : IdentityDatum) : Prop :=
  hexText (identity D) /\ hexText (owner D)
  /\ - Num.MAX_EXACT <= nonce D <= Num.MAX_EXACT
  /\ List.Forall (fun d => hexText (delegateAddress d)
                           /\ - Num.MAX_EXACT <= validUntil d <= Num.MAX_EXACT)
                 (delegates D)
  /\ List.Forall (fun a => - Num.MAX_EXACT <= attrValidUntil a <= Num.MAX_EXACT) (attributes D).

(** A datum as the Java records hold it: key hashes in the lower-case
    hexadecimal form of [encodeHexString], numbers in the range of [long]. *)
Definition javaDatum (D : IdentityDatum) : Prop :=
  canonicalHex (identity D) /\ canonicalHex (owner D) /\ Num.is_long (nonce D)
  /\ List.Forall (fun d => canonicalHex (delegateAddress d) /\ Num.is_long (validUntil d))
                 (delegates D)
  /\ List.Forall (fun a => Num.is_long (attrValidUntil a)) (attributes D).

(* ===================================================================== *)
(** * Properties *)
(* ===================================================================== *)

(** ** Arithmetic of the integer representations *)

Lemma long_exact (z : Z) : Num.is_long z -> Num.long z = z.
Proof.
  unfold Num.is_long, Num.Long_MIN_VALUE, Num.Long_MAX_VALUE, Num.long, Num.wrap.
  intros H. change (2 ^ (64 - 1)) with 9223372036854775808 in *.
  change (2 ^ 63) with 9223372036854775808 in *.
  change (2 ^ 64) with 18446744073709551616.
  rewrite Z.mod_small; lia.
Qed.

Lemma round_double_exact (z : Z) :
  - Num.MAX_EXACT <= z <= Num.MAX_EXACT -> Num.round_double z = z.
Proof.
  intros H. unfold Num.round_double.
  destruct (Z.leb_spec (Z.abs z) Num.MAX_EXACT) as [_ | Hgt]; [reflexivity | lia].
Qed.

(** Beyond 2^53 a sum is rounded to the nearest double, ties to even. *)
Example round_double_ties :
  Num.nadd (2 ^ 53) 1 = 2 ^ 53
  /\ Num.nadd (2 ^ 53) 3 = 2 ^ 53 + 4
  /\ Num.nadd (2 ^ 54 - 2) 1 = 2 ^ 54
  /\ Num.nadd (- 2 ^ 53) (-1) = - 2 ^ 53.
Proof. vm_compute. repeat split. Qed.

(** [long] addition wraps. *)
Example long_wraps :
  Java.ladd Num.Long_MAX_VALUE 1 = Num.Long_MIN_VALUE
  /\ Java.ladd Num.Long_MIN_VALUE (-1) = Num.Long_MAX_VALUE.
Proof. vm_compute. repeat split. Qed.

Lemma increment_exact (impl : Impl) (n : Z) :
  nonceInRange impl n -> increment impl n = n + 1.
Proof.
  destruct impl; simpl; intros H.
  - reflexivity.
  - apply round_double_exact. lia.
  - apply long_exact. unfold Num.is_long, Num.Long_MAX_VALUE, Num.Long_MIN_VALUE in *. lia.
Qed.


(** Every operation stores the implementation's increment of the nonce. *)
Lemma apply_nonce (impl : Impl) (env : Env) (D : IdentityDatum) (A : Action) :
  nonce (apply impl env D A) = increment impl (nonce D).
Proof. destruct impl, A; reflexivity. Qed.

(** An operation never touches [identity]. *)
Lemma apply_identity (impl : Impl) (env : Env) (D : IdentityDatum) (A : Action) :
  identity (apply impl env D A) = identity D.
Proof. destruct impl, A; reflexivity. Qed.

(** ** Lists: filtering by a key *)

Lemma filter_id {A : Type} (f : A -> bool) (l : list A) :
  (forall x, In x l -> f x = true) -> List.filter f l = l.
Proof.
  induction l as [| a l IH]; intros H; simpl; [reflexivity |].
  rewrite (H a (or_introl eq_refl)). f_equal. apply IH. intros x Hx. apply H. now right.
Qed.

Lemma filter_none {A : Type} (f : A -> bool) (l : list A) :
  (forall x, In x l -> f x = false) -> List.filter f l = [].
Proof.
  induction l as [| a l IH]; intros H; simpl; [reflexivity |].
  rewrite (H a (or_introl eq_refl)). apply IH. intros x Hx. apply H. now right.
Qed.

Lemma filter_filter_same {A : Type} (f : A -> bool) (l : list A) :
  List.filter f (List.filter f l) = List.filter f l.
Proof.
  apply filter_id. intros x Hx. apply List.filter_In in Hx. tauto.
Qed.

Lemma NoDup_map_filter {A B : Type} (k : A -> B) (f : A -> bool) (l : list A) :
  List.NoDup (List.map k l) -> List.NoDup (List.map k (List.filter f l)).
Proof.
  induction l as [| a l IH]; simpl; intros H; [constructor |].
  apply List.NoDup_cons_iff in H. destruct H as [Hnin Hnd].
  destruct (f a); simpl; [| auto].
  apply List.NoDup_cons_iff. split; [| auto].
  intros Hin. apply Hnin. apply List.in_map_iff in Hin. destruct Hin as [x [Hk Hx]].
  apply List.in_map_iff. exists x. split; [exact Hk |].
  apply List.filter_In in Hx. tauto.
Qed.

Lemma NoDup_map_snoc {A B : Type} (k : A -> B) (l : list A) (x : A) :
  List.NoDup (List.map k l) -> ~ In (k x) (List.map k l) -> List.NoDup (List.map k (l ++ [x])).
Proof.
  intros Hnd Hnin. rewrite List.map_app. simpl.
  apply List.NoDup_app; [exact Hnd | repeat constructor; intros [] | ].
  intros y Hy [Hxy | []]. subst y. contradiction.
Qed.

(** Replacing by key: drop the entries that carry the key of [x], then
    append [x]. *)
Lemma replace_by_key_NoDup {A B : Type} (k : A -> B) (same : A -> bool) (l : list A) (x : A) :
  (forall y, same y = true <-> k y = k x) ->
  List.NoDup (List.map k l) ->
  List.NoDup (List.map k (List.filter (fun y => negb (same y)) l ++ [x])).
Proof.
  intros Hsame Hnd. apply NoDup_map_snoc.
  - now apply NoDup_map_filter.
  - intros Hin. apply List.in_map_iff in Hin. destruct Hin as [y [Hk Hy]].
    apply List.filter_In in Hy. destruct Hy as [_ Hneg].
    apply (proj2 (Hsame y)) in Hk. rewrite Hk in Hneg. discriminate.
Qed.

Lemma replace_by_key_single {A : Type} (same : A -> bool) (l : list A) (x : A) :
  same x = true ->
  List.filter same (List.filter (fun y => negb (same y)) l ++ [x]) = [x].
Proof.
  intros Hx. rewrite List.filter_app. simpl. rewrite Hx.
  rewrite filter_none; [reflexivity |].
  intros y Hy. apply List.filter_In in Hy. destruct Hy as [_ Hneg].
  now destruct (same y).
Qed.

Lemma sameDelegate_spec (address type : string) (d : Delegate) :
  sameDelegate address type d = true <-> delegateKey d = (address, type).
Proof.
  unfold sameDelegate, delegateKey. rewrite andb_true_iff, !String.eqb_eq.
  split; [intros [-> ->]; reflexivity | intros H; now inversion H].
Qed.

Lemma sameAttribute_spec (name value : string) (a : Attribute) :
  sameAttribute name value a = true <-> attrName a = name /\ attrValue a = value.
Proof. unfold sameAttribute. now rewrite andb_true_iff, !String.eqb_eq. Qed.

(** Under key uniqueness, dropping a present key shortens the list by one. *)
Lemma filter_key_length {A B : Type} (k : A -> B) (same : A -> bool) (key : B) (l : list A) :
  (forall y, same y = true <-> k y = key) ->
  List.NoDup (List.map k l) ->
  (exists d, In d l /\ same d = true) ->
  S (length (List.filter (fun y => negb (same y)) l)) = length l.
Proof.
  intros Hsame. induction l as [| a l IH]; intros Hnd [d [Hd Hs]]; [destruct Hd |].
  simpl in Hnd. apply List.NoDup_cons_iff in Hnd. destruct Hnd as [Hnin Hnd].
  simpl. destruct (same a) eqn:Ha; simpl.
  - f_equal. rewrite filter_id; [reflexivity |].
    intros y Hy. destruct (same y) eqn:Hy'; [| reflexivity].
    exfalso. apply Hnin. apply List.in_map_iff. exists y. split; [| exact Hy].
    apply Hsame in Ha. apply Hsame in Hy'. congruence.
  - f_equal. apply IH; [exact Hnd |]. exists d. split; [| exact Hs].
    destruct Hd as [-> | Hd]; [congruence | exact Hd].
Qed.

(** What each operation does to the two collections, for every
    implementation. *)
Lemma apply_delegates (impl : Impl) (env : Env) (D : IdentityDatum) (A : Action) :
  delegates (apply impl env D A) =
  match A with
  | AddDelegate t a v =>
      List.filter (fun d => negb (sameDelegate a t d)) (delegates D)
      ++ [mkDelegate a t (storedValidUntil impl env v)]
  | RevokeDelegate t a => List.filter (fun d => negb (sameDelegate a t d)) (delegates D)
  | _ => delegates D
  end.
Proof. destruct impl, A; reflexivity. Qed.

Lemma apply_attributes (impl : Impl) (env : Env) (D : IdentityDatum) (A : Action) :
  attributes (apply impl env D A) =
  match A with
  | SetAttribute n v x =>
      List.filter (fun a => negb (attrName a =? n)%string) (attributes D)
      ++ [mkAttribute n v (storedValidUntil impl env x)]
  | RevokeAttribute n v => List.filter (fun a => negb (sameAttribute n v a)) (attributes D)
  | _ => attributes D
  end.
Proof. destruct impl, A; reflexivity. Qed.

Lemma apply_owner (impl : Impl) (env : Env) (D : IdentityDatum) (A : Action) :
  owner (apply impl env D A) =
  match A with
  | ChangeOwner o => o
  | _ => owner D
  end.
Proof. destruct impl, A; reflexivity. Qed.

Lemma sameDelegate_refl (a t : string) (u : Z) : sameDelegate a t (mkDelegate a t u) = true.
Proof. unfold sameDelegate. simpl. now rewrite !String.eqb_refl. Qed.

(* ===================================================================== *)
(** ** C1: the nonce *)
(* ===================================================================== *)

(** C1, as stated, fails: in the Java implementation the nonce is a [long]
    and [nonce + 1] wraps at [Long.MAX_VALUE], so the produced nonce is
    smaller than the input nonce; in the MeshJS implementation the nonce
    is a [number] and [2^53 + 1] rounds back to [2^53], so the nonce does
    not move. *)
Lemma C1_counterexample_fixed_width_nonce :
  (nonce (Java.withNewOwner (mkIdentityDatum "id" "o" [] [] Num.Long_MAX_VALUE) "o2")
     = Num.Long_MIN_VALUE
   /\ nonce (Java.withNewOwner (mkIdentityDatum "id" "o" [] [] Num.Long_MAX_VALUE) "o2")
     <> Num.Long_MAX_VALUE + 1)
  /\ nonce (txDatum (Mesh.addDelegate "pkh" (mkIdentityDatum "id" "o" [] [] (2 ^ 53)) 0
                                       "veriKey" "d" 0))
     = 2 ^ 53.
Proof. split; [split |]; vm_compute; [reflexivity | discriminate | reflexivity]. Qed.

(** C1 (amended): for every implementation, every record and every
    state-changing operation (ChangeOwner, AddDelegate, RevokeDelegate,
    SetAttribute, RevokeAttribute), the produced record has nonce equal to
    the input nonce plus exactly 1, provided the input nonce is one on
    which the implementation's integer type can represent the successor
    (always for Lucid's bigint, below 2^63 - 1 for Java's long, below 2^53
    in magnitude for MeshJS's number). *)
Theorem C1_nonce_increases_by_exactly_one
    (impl : Impl) (env : Env) (D : IdentityDatum) (A : Action) :
  nonceInRange impl (nonce D) ->
  nonce (apply impl env D A) = nonce D + 1.
Proof.
  intros H. rewrite apply_nonce. now apply increment_exact.
Qed.

Lemma C1_nonce_increases_by_exactly_one_witness :
  nonceInRange JavaImpl 41
  /\ nonce (apply JavaImpl (mkEnv "owner" 1000 1000 1000 7)
                  (mkIdentityDatum "id" "o" [] [] 41) (RevokeAttribute "n" "v")) = 41 + 1.
Proof.
  split.
  - vm_compute. split; [discriminate | reflexivity].
  - apply (C1_nonce_increases_by_exactly_one JavaImpl (mkEnv "owner" 1000 1000 1000 7)
             (mkIdentityDatum "id" "o" [] [] 41) (RevokeAttribute "n" "v")).
    vm_compute. split; [discriminate | reflexivity].
Defined.

(* ===================================================================== *)
(** ** C7: validity of an entry at a time *)
(* ===================================================================== *)

Lemma valid_until_test (u t : Z) :
  (u =? 0) || (u >? t) = true <-> u = 0 \/ u > t.
Proof.
  rewrite orb_true_iff, Z.eqb_eq, Z.gtb_ltb, Z.ltb_lt. lia.
Qed.

(** C7: in every implementation a delegate or attribute entry is valid at
    time [t] if and only if its [valid_until] is 0 or strictly greater
    than [t]; consequently an entry with an absolute deadline [e] (a
    non-zero [valid_until]) is valid at [e - 1] and invalid at [e + 1]. *)
Theorem C7_valid_iff_zero_or_later (impl : Impl) (d : Delegate) (a : Attribute) (t : Z) :
  (isDelegateValid impl d t = true <-> validUntil d = 0 \/ validUntil d > t)
  /\ (isAttributeValid impl a t = true <-> attrValidUntil a = 0 \/ attrValidUntil a > t)
  /\ (validUntil d <> 0 ->
      isDelegateValid impl d (validUntil d - 1) = true
      /\ isDelegateValid impl d (validUntil d + 1) = false)
  /\ (attrValidUntil a <> 0 ->
      isAttributeValid impl a (attrValidUntil a - 1) = true
      /\ isAttributeValid impl a (attrValidUntil a + 1) = false).
Proof.
  assert (Hd : forall t', isDelegateValid impl d t' = (validUntil d =? 0) || (validUntil d >? t'))
    by (intros; destruct impl; reflexivity).
  assert (Ha : forall t', isAttributeValid impl a t'
                          = (attrValidUntil a =? 0) || (attrValidUntil a >? t'))
    by (intros; destruct impl; reflexivity).
  rewrite !Hd, !Ha. split; [| split; [| split]].
  - apply valid_until_test.
  - apply valid_until_test.
  - intros Hne. split.
    + apply valid_until_test. lia.
    + apply not_true_iff_false. rewrite valid_until_test. lia.
  - intros Hne. split.
    + apply valid_until_test. lia.
    + apply not_true_iff_false. rewrite valid_until_test. lia.
Qed.

Lemma C7_valid_iff_zero_or_later_witness :
  let d := mkDelegate "a" "sigAuth" 2592000000 in
  validUntil d <> 0
  /\ isDelegateValid MeshImpl d 2591999999 = true
  /\ isDelegateValid MeshImpl d 2592000001 = false.
Proof.
  intros d.
  assert (H : validUntil d <> 0) by (simpl; lia).
  split; [exact H |].
  exact (proj1 (proj2 (proj2 (C7_valid_iff_zero_or_later MeshImpl d (mkAttribute "n" "v" 0) 0))) H).
Defined.

(* ===================================================================== *)
(** ** C8: revocation *)
(* ===================================================================== *)

Lemma datum_ext (D1 D2 : IdentityDatum) :
  identity D1 = identity D2 -> owner D1 = owner D2 -> delegates D1 = delegates D2 ->
  attributes D1 = attributes D2 -> nonce D1 = nonce D2 -> D1 = D2.
Proof. destruct D1, D2; simpl; intros; subst; reflexivity. Qed.

(** C8: in every implementation RevokeAttribute keeps exactly the
    attribute entries that do not match the requested name and value in
    both fields, so an entry is removed only when both match; and revoking
    an attribute or a delegate that is absent leaves every field of the
    record as it was, except the nonce, which takes the implementation's
    increment. *)
Theorem C8_revoke_exact_match_and_idempotent (impl : Impl) (env : Env) (D : IdentityDatum) :
  (forall n v a,
      In a (attributes (apply impl env D (RevokeAttribute n v)))
      <-> In a (attributes D) /\ ~ (attrName a = n /\ attrValue a = v))
  /\ (forall n v,
        (forall a, In a (attributes D) -> ~ (attrName a = n /\ attrValue a = v)) ->
        apply impl env D (RevokeAttribute n v)
        = mkIdentityDatum (identity D) (owner D) (delegates D) (attributes D)
                          (increment impl (nonce D)))
  /\ (forall t a,
        (forall d, In d (delegates D) -> ~ (delegateAddress d = a /\ delegateType d = t)) ->
        apply impl env D (RevokeDelegate t a)
        = mkIdentityDatum (identity D) (owner D) (delegates D) (attributes D)
                          (increment impl (nonce D))).
Proof.
  split; [| split].
  - intros n v a. rewrite apply_attributes. cbv iota beta.
    rewrite List.filter_In, negb_true_iff, <- not_true_iff_false, sameAttribute_spec.
    reflexivity.
  - intros n v Habsent. apply datum_ext; cbn [identity owner delegates attributes nonce].
    + apply apply_identity.
    + now rewrite apply_owner.
    + now rewrite apply_delegates.
    + rewrite apply_attributes. cbv iota beta.
      apply filter_id. intros a Ha. apply negb_true_iff, not_true_iff_false.
      rewrite sameAttribute_spec. now apply Habsent.
    + apply apply_nonce.
  - intros t a Habsent. apply datum_ext; cbn [identity owner delegates attributes nonce].
    + apply apply_identity.
    + now rewrite apply_owner.
    + rewrite apply_delegates. cbv iota beta.
      apply filter_id. intros d Hd. apply negb_true_iff, not_true_iff_false.
      rewrite sameDelegate_spec. intros Hk. apply (Habsent d Hd).
      unfold delegateKey in Hk. now inversion Hk.
    + now rewrite apply_attributes.
    + apply apply_nonce.
Qed.

Lemma C8_revoke_exact_match_and_idempotent_witness :
  let D := mkIdentityDatum "id" "o" [mkDelegate "b" "enc" 0] [mkAttribute "email" "x@y" 0] 4 in
  let env := mkEnv "pkh" 1000 1000 1000 7 in
  (forall a, In a (attributes D) -> ~ (attrName a = "email" /\ attrValue a = "other"))
  /\ apply LucidImpl env D (RevokeAttribute "email" "other")
     = mkIdentityDatum "id" "o" [mkDelegate "b" "enc" 0] [mkAttribute "email" "x@y" 0] 5.
Proof.
  intros D env.
  assert (H : forall a, In a (attributes D) -> ~ (attrName a = "email" /\ attrValue a = "other")).
  { intros a [<- | []] [_ Hv]. discriminate Hv. }
  split; [exact H |].
  exact (proj1 (proj2 (C8_revoke_exact_match_and_idempotent LucidImpl env D)) "email" "other" H).
Defined.

(* ===================================================================== *)
(** ** C2: only the owner authorises *)
(* ===================================================================== *)

Lemma signedBy_false (facts : Validator.AuthFacts) (key : string) :
  ~ In key (Validator.signers facts) -> Validator.signedBy facts key = false.
Proof.
  intros Hnin. unfold Validator.signedBy. apply not_true_iff_false. intros Hex.
  apply List.existsb_exists in Hex. destruct Hex as [s [Hs Heq]].
  apply String.eqb_eq in Heq. subst s. contradiction.
Qed.

(** With the owner among the signers the transition goes through: the
    rejection below is not the only behaviour of the function. *)
Lemma transition_accepts_owner (D : IdentityDatum) (o : string) (facts : Validator.AuthFacts) :
  In (owner D) (Validator.signers facts) ->
  Validator.transition D (ChangeOwner o) facts
  = inr (mkIdentityDatum (identity D) o (delegates D) (attributes D) (nonce D + 1)).
Proof.
  intros Hin. unfold Validator.transition.
  assert (Hs : Validator.signedBy facts (owner D) = true).
  { unfold Validator.signedBy. apply List.existsb_exists. exists (owner D).
    split; [exact Hin | apply String.eqb_refl]. }
  now rewrite Hs.
Qed.

(** The scenario of the specification: an identity created by [O] at
    nonce 0; AddDelegate("sigAuth", D, 30 days) at [T0] gives the delegate
    (D, sigAuth, T0 + 30 days) and nonce 1; a projection taken at
    T0 + 31 days does not list [D]; ChangeOwner(O2) signed only by [D] is
    rejected. *)
Example specification_scenario :
  let T0 := 1700000000000 in
  let day := 86400000 in
  let D0 := mkIdentityDatum "O" "O" [] [] 0 in
  let D1 := mkIdentityDatum "O" "O" [mkDelegate "D" "sigAuth" (T0 + 30 * day)] [] 1 in
  Validator.transition D0 (AddDelegate "sigAuth" "D" (30 * day))
    (Validator.mkAuthFacts ["O"] (Some T0) (Some (T0 + 600000))) = inr D1
  /\ viewAssertionMethod (project LucidImpl "preprod" "did:x" D1 (T0 + 31 * day))
     = ["did:x#owner"%string]
  /\ Validator.transition D1 (ChangeOwner "O2")
       (Validator.mkAuthFacts ["D"] None None) = inl Validator.AuthorizationError.
Proof. vm_compute. repeat split. Qed.

(** C2: for every action (ChangeOwner, AddDelegate, RevokeDelegate,
    SetAttribute, RevokeAttribute), every record and every set of
    transaction facts, a transition whose signer set does not contain the
    current owner is rejected with [AuthorizationError]; nothing about the
    signers other than the owner's absence matters, so a signer that is a
    currently valid delegate of any type does not authorise the
    transition. *)
Theorem C2_rejected_without_owner_signature
    (D : IdentityDatum) (A : Action) (facts : Validator.AuthFacts) :
  ~ In (owner D) (Validator.signers facts) ->
  Validator.transition D A facts = inl Validator.AuthorizationError.
Proof.
  intros Hnin. unfold Validator.transition.
  now rewrite (signedBy_false facts (owner D) Hnin).
Qed.

Lemma C2_rejected_without_owner_signature_witness :
  let D := mkIdentityDatum "O" "O" [mkDelegate "D" "sigAuth" 2592000000] [] 1 in
  let facts := Validator.mkAuthFacts ["D"] (Some 1000) (Some 2000) in
  ~ In (owner D) (Validator.signers facts)
  /\ Lucid.isDelegateValid (mkDelegate "D" "sigAuth" 2592000000) 1000 = true
  /\ Validator.transition D (ChangeOwner "O2") facts = inl Validator.AuthorizationError.
Proof.
  intros D facts.
  assert (H : ~ In (owner D) (Validator.signers facts)).
  { simpl. intros [H | []]. discriminate H. }
  split; [exact H | split; [reflexivity |]].
  exact (C2_rejected_without_owner_signature D (ChangeOwner "O2") facts H).
Defined.

(* ===================================================================== *)
(** ** C5: the stored expiry *)
(* ===================================================================== *)

Lemma java_days_to_ms (days : Z) :
  Num.is_int days ->
  Java.lmul (Java.lmul (Java.lmul (Java.lmul days 24) 60) 60) 1000 = days * 86400000.
Proof.
  unfold Num.is_int, Num.Integer_MIN_VALUE, Num.Integer_MAX_VALUE, Java.lmul. intros H.
  change (2 ^ 31) with 2147483648 in H.
  assert (Hl : forall z, -9223372036854775808 <= z <= 9223372036854775807 -> Num.long z = z).
  { intros z Hz. apply long_exact. unfold Num.is_long, Num.Long_MIN_VALUE, Num.Long_MAX_VALUE.
    change (2 ^ 63) with 9223372036854775808. lia. }
  rewrite (Hl (days * 24)) by lia.
  rewrite (Hl (days * 24 * 60)) by lia.
  rewrite (Hl (days * 24 * 60 * 60)) by lia.
  rewrite (Hl (days * 24 * 60 * 60 * 1000)) by lia.
  lia.
Qed.





(* ===================================================================== *)
(** ** The projection loops *)
(* ===================================================================== *)

Lemma forEachFrom_delegateBody (network did : string) (l : list Delegate) :
  forall (i : nat) (st : VmArrays),
    Doc.forEachFrom (Doc.delegateBody network did) i l st =
    let ps := combine (seq i (length l)) l in
    let ids type :=
      List.map (fun p => Doc.delegateVMId did (fst p))
               (List.filter (fun p => (delegateType (snd p) =? type)%string) ps) in
    mkVmArrays
      (verificationMethods st
         ++ List.map (fun p => Doc.delegateVM network did (fst p) (snd p)) ps)
      (authenticationIds st ++ ids "veriKey"%string)
      (assertionMethodIds st ++ ids "sigAuth"%string)
      (keyAgreementIds st ++ ids "enc"%string).
Proof.
  induction l as [| d l IH]; intros i st.
  - simpl. rewrite !List.app_nil_r. now destruct st.
  - cbn [Doc.forEachFrom]. rewrite IH. clear IH.
    cbn [length seq combine List.map List.filter fst snd].
    unfold Doc.delegateBody, Doc.push.
    destruct (String.eqb_spec (delegateType d) "veriKey") as [H1 | H1].
    { rewrite H1.
      change ("veriKey" =? "sigAuth")%string with false.
      change ("veriKey" =? "enc")%string with false.
      cbn [verificationMethods authenticationIds assertionMethodIds keyAgreementIds
           List.map fst snd].
      now rewrite <- !List.app_assoc. }
    destruct (String.eqb_spec (delegateType d) "sigAuth") as [H2 | H2].
    { rewrite H2.
      change ("sigAuth" =? "enc")%string with false.
      cbn [verificationMethods authenticationIds assertionMethodIds keyAgreementIds
           List.map fst snd].
      now rewrite <- !List.app_assoc. }
    destruct (String.eqb_spec (delegateType d) "enc") as [H3 | H3].
    { cbn [verificationMethods authenticationIds assertionMethodIds keyAgreementIds
           List.map fst snd].
      now rewrite <- !List.app_assoc. }
    cbn [verificationMethods authenticationIds assertionMethodIds keyAgreementIds].
    now rewrite <- !List.app_assoc.
Qed.

Lemma forEachFrom_serviceBody (did : string) (l : list Attribute) :
  forall (i : nat) (services : list ServiceEndpoint),
    Doc.forEachFrom (Doc.serviceBody did) i l services =
    services ++ List.map (serviceOf did)
                  (List.filter (fun p => isServiceAttribute (snd p))
                               (combine (seq i (length l)) l)).
Proof.
  induction l as [| a l IH]; intros i services.
  - simpl. now rewrite List.app_nil_r.
  - cbn [Doc.forEachFrom]. rewrite IH. clear IH.
    cbn [length seq combine List.filter snd].
    unfold Doc.serviceBody, isServiceAttribute, Doc.push.
    destruct (Doc.startsWith (attrName a) "did/svc/").
    + cbn [List.map]. now rewrite <- List.app_assoc.
    + reflexivity.
Qed.

(** A key with the reserved prefix ["did/"] never enters the custom map. *)
Lemma forEachFrom_customBody_reserved
    (set : gmap string string -> string -> string -> gmap string string)
    (k : string) (l : list Attribute) :
  (forall m k' v, k' <> k -> set m k' v !! k = m !! k) ->
  Doc.startsWith k "did/" = true ->
  forall (i : nat) (m : gmap string string),
    Doc.forEachFrom (Doc.customBody set) i l m !! k = m !! k.
Proof.
  intros Hset Hk. induction l as [| a l IH]; intros i m; [reflexivity |].
  cbn [Doc.forEachFrom]. rewrite IH. unfold Doc.customBody.
  destruct (Doc.startsWith (attrName a) "did/") eqn:Ha; simpl; [reflexivity |].
  apply Hset. intros E. rewrite E in Ha. congruence.
Qed.

Lemma objSet_other (m : gmap string string) (k' v k : string) :
  k' <> k -> Doc.objSet m k' v !! k = m !! k.
Proof.
  intros Hne. unfold Doc.objSet. destruct (k' =? "__proto__")%string; [reflexivity |].
  now apply lookup_insert_ne.
Qed.

Lemma mapPut_other (m : gmap string string) (k' v k : string) :
  k' <> k -> Doc.mapPut m k' v !! k = m !! k.
Proof. intros Hne. unfold Doc.mapPut. now apply lookup_insert_ne. Qed.

Lemma orEmpty_nonempty_guard {A : Type} (l : list A) :
  DIDResolver.orEmpty (if (0 <? length l)%nat then Some l else None) = l.
Proof. now destruct l. Qed.

Lemma orEmpty_isEmpty_guard {A : Type} (l : list A) :
  DIDResolver.orEmpty (if DIDResolver.isEmpty l then None else Some l) = l.
Proof. now destruct l. Qed.

Lemma customOf_size_guard (network : string) (n : Z) (m : gmap string string) :
  customOf (if (0 <? size m)%nat then Some (mkCardanoIdentity network n m) else None) = m.
Proof.
  destruct (Nat.ltb_spec 0 (size m)) as [_ | H]; [reflexivity |].
  simpl. symmetry. apply map_size_empty_inv. lia.
Qed.

Lemma customOf_isEmpty_guard (network : string) (n : Z) (m : gmap string string) :
  customOf (if negb (0 =? size m)%nat then Some (mkCardanoIdentity network n m) else None) = m.
Proof.
  destruct (Nat.eqb_spec 0 (size m)) as [H | _]; [| reflexivity].
  simpl. symmetry. now apply map_size_empty_inv.
Qed.

(** The view of the projection, for every implementation. *)
Lemma project_view (impl : Impl) (network did : string) (datum : IdentityDatum) (now : Z) :
  let vd := List.filter (fun d => isDelegateValid impl d now) (delegates datum) in
  let va := List.filter (fun a => isAttributeValid impl a now) (attributes datum) in
  let view := project impl network did datum now in
  viewVerificationMethod view = Doc.ownerVM network did (owner datum) :: delegateEntries network did vd
  /\ viewAuthentication view = Doc.ownerVMId did :: idsOfType did "veriKey" vd
  /\ viewAssertionMethod view = Doc.ownerVMId did :: idsOfType did "sigAuth" vd
  /\ viewKeyAgreement view = idsOfType did "enc" vd
  /\ viewService view = serviceEntries did va
  /\ (forall k, Doc.startsWith k "did/" = true -> viewCustomAttributes view !! k = None).
Proof.
  destruct impl; cbv zeta;
    unfold project, CardanoDIDResolver.buildDIDDocument, MeshDIDResolver.buildDIDDocument,
      buildDIDDocumentTS, DIDResolver.buildDIDDocument, viewTS, viewJava, Doc.forEach;
    cbv zeta;
    cbn [verificationMethod authentication assertionMethod keyAgreement service cardanoIdentity
         DIDResolver.verificationMethod DIDResolver.authentication
         DIDResolver.assertionMethod DIDResolver.keyAgreement DIDResolver.service
         DIDResolver.additionalProperties
         viewVerificationMethod viewAuthentication viewAssertionMethod viewKeyAgreement
         viewService viewCustomAttributes isDelegateValid isAttributeValid];
    rewrite ?orEmpty_nonempty_guard, ?orEmpty_isEmpty_guard,
            ?customOf_size_guard, ?customOf_isEmpty_guard;
    rewrite forEachFrom_delegateBody, forEachFrom_serviceBody; cbv zeta;
    cbn [verificationMethods authenticationIds assertionMethodIds keyAgreementIds];
    (repeat split; try reflexivity);
    intros k Hk;
    (rewrite forEachFrom_customBody_reserved;
     [ apply lookup_empty
     | first [ exact (fun m k' v => objSet_other m k' v k)
             | exact (fun m k' v => mapPut_other m k' v k) ]
     | exact Hk ]).
Qed.

(** ** Positions, prefixes and identifiers *)

Lemma In_combine_seq {A : Type} (l : list A) :
  forall (s j : nat) (x : A),
    In (j, x) (combine (seq s (length l)) l) <-> (s <= j)%nat /\ nth_error l (j - s) = Some x.
Proof.
  induction l as [| a l IH]; intros s j x; simpl.
  - split; [intros [] | intros [_ H]]. destruct (j - s)%nat; discriminate H.
  - rewrite IH. split.
    + intros [H | [Hle Hn]].
      * inversion H; subst. rewrite Nat.sub_diag. simpl. split; [lia | reflexivity].
      * split; [lia |]. replace (j - s)%nat with (S (j - S s)) by lia. exact Hn.
    + intros [Hle Hn]. destruct (Nat.eq_dec s j) as [-> | Hne].
      * rewrite Nat.sub_diag in Hn. simpl in Hn. left. congruence.
      * right. split; [lia |]. replace (j - s)%nat with (S (j - S s)) in Hn by lia. exact Hn.
Qed.

Lemma In_indexed {A : Type} (l : list A) (j : nat) (x : A) :
  In (j, x) (indexed l) <-> nth_error l j = Some x.
Proof.
  unfold indexed. rewrite In_combine_seq. rewrite Nat.sub_0_r. split; [tauto | split; [lia | assumption]].
Qed.

Lemma append_cancel_l (p a b : string) : p +:+ a = p +:+ b -> a = b.
Proof.
  induction p as [| c p IH]; simpl; intros H; [exact H |].
  apply IH. now inversion H.
Qed.

Lemma showIndex_inj (i j : nat) : Doc.showIndex i = Doc.showIndex j -> i = j.
Proof.
  unfold Doc.showIndex. intros H.
  assert (Hu : Nat.to_uint i = Nat.to_uint j).
  { apply (f_equal NilEmpty.uint_of_string) in H. rewrite !NilEmpty.usu in H. congruence. }
  apply (f_equal Nat.of_uint) in Hu. now rewrite !DecimalNat.Unsigned.of_to in Hu.
Qed.

Lemma serviceIdOf_inj (did : string) (i j : nat) :
  Doc.serviceIdOf did i = Doc.serviceIdOf did j -> i = j.
Proof.
  unfold Doc.serviceIdOf. intros H.
  apply append_cancel_l in H. apply append_cancel_l in H. now apply showIndex_inj.
Qed.

Lemma delegateVMId_inj (did : string) (i j : nat) :
  Doc.delegateVMId did i = Doc.delegateVMId did j -> i = j.
Proof.
  unfold Doc.delegateVMId. intros H.
  apply append_cancel_l in H. apply append_cancel_l in H. now apply showIndex_inj.
Qed.

Lemma append_cons (c : ascii) (p x : string) : String c p +:+ x = String c (p +:+ x).
Proof. reflexivity. Qed.

Lemma startsWith_split (pre s : string) :
  Doc.startsWith s pre = true <-> s = pre +:+ Doc.substringFrom (String.length pre) s.
Proof.
  unfold Doc.startsWith. revert s. induction pre as [| c pre IH]; intros s; simpl.
  - destruct s; simpl; split; auto.
  - destruct s as [| c' s]; simpl.
    + split; [discriminate | intros H; discriminate H].
    + destruct (Ascii.ascii_dec c c') as [-> | Hne].
      * rewrite IH, append_cons.
        split; [intros H; now f_equal | intros H; injection H as H'; exact H'].
      * rewrite append_cons.
        split; [discriminate | intros H; injection H as Hc _; congruence].
Qed.

Lemma substringFrom_append (pre rest : string) :
  Doc.substringFrom (String.length pre) (pre +:+ rest) = rest.
Proof.
  induction pre as [| c pre IH]; [now destruct rest | rewrite append_cons; exact IH].
Qed.

Lemma startsWith_append (pre rest : string) : Doc.startsWith (pre +:+ rest) pre = true.
Proof. apply startsWith_split. now rewrite substringFrom_append. Qed.

Lemma delegateVMId_not_owner (did : string) (i : nat) : Doc.delegateVMId did i <> Doc.ownerVMId did.
Proof.
  unfold Doc.delegateVMId, Doc.ownerVMId. intros H. apply append_cancel_l in H.
  rewrite !append_cons in H. discriminate H.
Qed.

Lemma In_idsOfType (did type : string) (valid : list Delegate) (i : nat) (d : Delegate) :
  nth_error valid i = Some d ->
  In (Doc.delegateVMId did i) (idsOfType did type valid) <-> delegateType d = type.
Proof.
  intros Hi. unfold idsOfType. rewrite List.in_map_iff. split.
  - intros [[j d'] [Hid Hin]]. simpl in Hid. apply delegateVMId_inj in Hid. subst j.
    apply List.filter_In in Hin. destruct Hin as [Hin Ht]. simpl in Ht.
    apply In_indexed in Hin. apply String.eqb_eq in Ht. congruence.
  - intros Ht. exists (i, d). split; [reflexivity |].
    apply List.filter_In. split; [now apply In_indexed | simpl; now apply String.eqb_eq].
Qed.

Lemma service_name_after_prefix (rest : string) :
  Doc.substringFrom 8 ("did/svc/" +:+ rest) = rest.
Proof. exact (substringFrom_append "did/svc/" rest). Qed.

Lemma In_serviceEntries (did : string) (valid : list Attribute) (s : ServiceEndpoint) :
  In s (serviceEntries did valid) <->
  exists i a rest,
    nth_error valid i = Some a /\ attrName a = "did/svc/" +:+ rest
    /\ s = mkServiceEndpoint (Doc.serviceIdOf did i) rest (attrValue a).
Proof.
  unfold serviceEntries. rewrite List.in_map_iff. split.
  - intros [[i a] [Hs Hin]]. apply List.filter_In in Hin. destruct Hin as [Hin Hp].
    apply In_indexed in Hin. simpl in Hp. unfold isServiceAttribute in Hp.
    apply startsWith_split in Hp. exists i, a, (Doc.substringFrom 8 (attrName a)).
    split; [exact Hin | split; [exact Hp | now rewrite <- Hs]].
  - intros [i [a [rest [Hi [Hn Hs]]]]]. exists (i, a). split.
    + unfold serviceOf. cbn [fst snd]. rewrite Hs, Hn.
      now rewrite service_name_after_prefix.
    + apply List.filter_In. split; [now apply In_indexed |].
      simpl. unfold isServiceAttribute. rewrite Hn. apply startsWith_append.
Qed.

(* ===================================================================== *)
(** ** C9: what the projection contains *)
(* ===================================================================== *)

(** C9: for every implementation, record and current time (the clock
    reading the resolver takes on entry), the verification entries of the
    projected document are the owner's entry, with id [<did>#owner] and
    account [cardano:<network>:<owner>], followed by one entry per
    non-expired delegate, in order, the delegate at position [i] having id
    [<did>#delegate-<i>] and account [cardano:<network>:<its key hash>];
    all have type Ed25519VerificationKey2020 and the DID as controller.
    The id of the non-expired delegate at position [i] is listed under
    authentication exactly when its type is veriKey, under assertionMethod
    exactly when it is sigAuth and under keyAgreement exactly when it is
    enc (the owner's id is listed first under authentication and
    assertionMethod); and the service endpoints are exactly the entries
    obtained from the non-expired attributes whose name is "did/svc/"
    followed by some [rest], with id [<did>#service-<i>] for the attribute
    at position [i], type [rest] and the attribute value as
    serviceEndpoint. *)
Theorem C9_projection_of_delegates_and_services
    (impl : Impl) (network did : string) (datum : IdentityDatum) (now : Z) :
  let vd := List.filter (fun d => isDelegateValid impl d now) (delegates datum) in
  let va := List.filter (fun a => isAttributeValid impl a now) (attributes datum) in
  let view := project impl network did datum now in
  let decimal (i : nat) := NilEmpty.string_of_uint (Nat.to_uint i) in
  let entry (id address : string) :=
    mkVerificationMethod id "Ed25519VerificationKey2020" did
                         ("cardano:" +:+ network +:+ ":" +:+ address) in
  let delegateId (i : nat) := did +:+ "#delegate-" +:+ decimal i in
  let idsOf (type : string) :=
    List.map (fun p : nat * Delegate => delegateId (fst p))
             (List.filter (fun p => (delegateType (snd p) =? type)%string) (indexed vd)) in
  viewVerificationMethod view
  = entry (did +:+ "#owner") (owner datum)
    :: List.map (fun p : nat * Delegate => entry (delegateId (fst p)) (delegateAddress (snd p)))
                (indexed vd)
  /\ viewAuthentication view = (did +:+ "#owner") :: idsOf "veriKey"%string
  /\ viewAssertionMethod view = (did +:+ "#owner") :: idsOf "sigAuth"%string
  /\ viewKeyAgreement view = idsOf "enc"%string
  /\ (forall i d, nth_error vd i = Some d ->
        In (entry (delegateId i) (delegateAddress d)) (viewVerificationMethod view)
        /\ (In (delegateId i) (viewAuthentication view) <-> delegateType d = "veriKey"%string)
        /\ (In (delegateId i) (viewAssertionMethod view) <-> delegateType d = "sigAuth"%string)
        /\ (In (delegateId i) (viewKeyAgreement view) <-> delegateType d = "enc"%string))
  /\ (forall s, In s (viewService view) <->
        exists i a rest,
          nth_error va i = Some a /\ attrName a = "did/svc/" +:+ rest
          /\ s = mkServiceEndpoint (did +:+ "#service-" +:+ decimal i) rest (attrValue a)).
Proof.
  intros vd va view decimal entry delegateId idsOf.
  destruct (project_view impl network did datum now) as [Hvm [Hau [Has [Hka [Hsv _]]]]].
  fold vd in Hvm, Hau, Has, Hka. fold va in Hsv. fold view in Hvm, Hau, Has, Hka, Hsv.
  assert (Eids : forall type, idsOfType did type vd = idsOf type) by reflexivity.
  assert (Evm : Doc.ownerVM network did (owner datum) :: delegateEntries network did vd
                = entry (did +:+ "#owner") (owner datum)
                  :: List.map (fun p : nat * Delegate =>
                                 entry (delegateId (fst p)) (delegateAddress (snd p)))
                              (indexed vd)) by reflexivity.
  rewrite Evm in Hvm. rewrite Eids in Hau, Has, Hka.
  split; [exact Hvm | split; [exact Hau | split; [exact Has | split; [exact Hka | split]]]].
  - intros i d Hi. rewrite Hvm, Hau, Has, Hka, <- !Eids. split; [| split; [| split]].
    + right. apply List.in_map_iff. exists (i, d).
      split; [reflexivity | now apply In_indexed].
    + change (delegateId i) with (Doc.delegateVMId did i).
      rewrite <- (In_idsOfType did "veriKey" vd i d Hi). simpl. split; [| tauto].
      intros [H | H]; [symmetry in H; now apply delegateVMId_not_owner in H | exact H].
    + change (delegateId i) with (Doc.delegateVMId did i).
      rewrite <- (In_idsOfType did "sigAuth" vd i d Hi). simpl. split; [| tauto].
      intros [H | H]; [symmetry in H; now apply delegateVMId_not_owner in H | exact H].
    + change (delegateId i) with (Doc.delegateVMId did i).
      apply In_idsOfType. exact Hi.
  - intros s. rewrite Hsv. apply In_serviceEntries.
Qed.

Lemma C9_projection_of_delegates_and_services_witness :
  let datum :=
    mkIdentityDatum "1d" "0e"
      [mkDelegate "ab" "sigAuth" 2592000000; mkDelegate "cd" "enc" 0;
       mkDelegate "ef" "veriKey" 0]
      [mkAttribute "did/svc/Hub" "https://hub.example" 0] 1 in
  let view := project LucidImpl "preprod" "did:cardano:preprod:aa" datum 2678400000 in
  viewVerificationMethod view
  = [mkVerificationMethod "did:cardano:preprod:aa#owner" "Ed25519VerificationKey2020"
                          "did:cardano:preprod:aa" "cardano:preprod:0e";
     mkVerificationMethod "did:cardano:preprod:aa#delegate-0" "Ed25519VerificationKey2020"
                          "did:cardano:preprod:aa" "cardano:preprod:cd";
     mkVerificationMethod "did:cardano:preprod:aa#delegate-1" "Ed25519VerificationKey2020"
                          "did:cardano:preprod:aa" "cardano:preprod:ef"]
  /\ viewAuthentication view
     = ["did:cardano:preprod:aa#owner"; "did:cardano:preprod:aa#delegate-1"]%string
  /\ viewAssertionMethod view = ["did:cardano:preprod:aa#owner"%string]
  /\ viewKeyAgreement view = ["did:cardano:preprod:aa#delegate-0"%string]
  /\ In (mkServiceEndpoint "did:cardano:preprod:aa#service-0" "Hub" "https://hub.example")
        (viewService view).
Proof.
  intros datum view.
  pose proof (C9_projection_of_delegates_and_services LucidImpl "preprod"
                "did:cardano:preprod:aa" datum 2678400000)
    as [Hvm [Hau [Has [Hka [_ Hsv]]]]].
  split; [exact Hvm | split; [exact Hau | split; [exact Has | split; [exact Hka |]]]].
  apply Hsv. exists 0%nat, (mkAttribute "did/svc/Hub" "https://hub.example" 0), "Hub"%string.
  repeat split.
Defined.

(* ===================================================================== *)
(** ** C10: reserved attributes that are not services *)
(* ===================================================================== *)

(** C10: for every implementation, record and current time, a non-expired
    attribute whose name begins with "did/" but not with "did/svc/" is
    absent from the projected document: no service endpoint carries the
    identifier of its position, every service endpoint that is present
    comes from an attribute whose name begins with "did/svc/", and the
    custom-attributes map of the cardanoIdentity entry has no key equal to
    its name. *)
Theorem C10_reserved_non_service_attribute_is_dropped
    (impl : Impl) (network did : string) (datum : IdentityDatum) (now : Z)
    (i : nat) (a : Attribute) :
  let va := List.filter (fun x => isAttributeValid impl x now) (attributes datum) in
  let view := project impl network did datum now in
  nth_error va i = Some a ->
  Doc.startsWith (attrName a) "did/" = true ->
  Doc.startsWith (attrName a) "did/svc/" = false ->
  (forall s, In s (viewService view) -> serviceId s <> Doc.serviceIdOf did i)
  /\ (forall s, In s (viewService view) ->
        exists j a', nth_error va j = Some a' /\ Doc.startsWith (attrName a') "did/svc/" = true
                     /\ s = serviceOf did (j, a'))
  /\ viewCustomAttributes view !! attrName a = None.
Proof.
  intros va view Hi Hdid Hsvc.
  destruct (project_view impl network did datum now) as [_ [_ [_ [_ [Hsv Hcustom]]]]].
  fold va in Hsv. fold view in Hsv, Hcustom.
  assert (Hfrom : forall s, In s (viewService view) ->
            exists j a', nth_error va j = Some a'
                         /\ Doc.startsWith (attrName a') "did/svc/" = true
                         /\ s = serviceOf did (j, a')).
  { intros s Hs. rewrite Hsv in Hs. unfold serviceEntries in Hs.
    apply List.in_map_iff in Hs. destruct Hs as [[j a'] [Hs Hin]].
    apply List.filter_In in Hin. destruct Hin as [Hin Hp]. apply In_indexed in Hin.
    exists j, a'. split; [exact Hin | split; [exact Hp | now symmetry]]. }
  split; [| split; [exact Hfrom |]].
  - intros s Hs Hid. destruct (Hfrom s Hs) as [j [a' [Hj [Hp ->]]]].
    simpl in Hid. apply serviceIdOf_inj in Hid. subst j.
    rewrite Hi in Hj. inversion Hj; subst a'. congruence.
  - now apply Hcustom.
Qed.

Lemma C10_reserved_non_service_attribute_is_dropped_witness :
  let datum :=
    mkIdentityDatum "id" "O" []
      [mkAttribute "did/pub/Ed25519" "0xabc" 0; mkAttribute "email" "a@b" 0;
       mkAttribute "did/svc/Hub" "https://hub.example" 0] 1 in
  let view := project JavaImpl "preprod" "did:x" datum 1000 in
  nth_error (List.filter (fun x => isAttributeValid JavaImpl x 1000) (attributes datum)) 0
  = Some (mkAttribute "did/pub/Ed25519" "0xabc" 0)
  /\ (forall s, In s (viewService view) -> serviceId s <> Doc.serviceIdOf "did:x" 0)
  /\ viewCustomAttributes view !! "did/pub/Ed25519"%string = None.
Proof.
  intros datum view.
  assert (H : nth_error (List.filter (fun x => isAttributeValid JavaImpl x 1000)
                                     (attributes datum)) 0
              = Some (mkAttribute "did/pub/Ed25519" "0xabc" 0)) by reflexivity.
  split; [exact H |].
  pose proof (C10_reserved_non_service_attribute_is_dropped JavaImpl "preprod" "did:x" datum 1000
                0 (mkAttribute "did/pub/Ed25519" "0xabc" 0) H eq_refl eq_refl) as [H1 [_ H3]].
  split; [exact H1 | exact H3].
Defined.

(* ===================================================================== *)
(** ** Bytes, hex text and SHA-256 *)
(* ===================================================================== *)

Lemma to_Z_of_Z (z : Z) : Bytes.to_Z (Bytes.of_Z z) = z mod 256.
Proof.
  unfold Bytes.to_Z, Bytes.of_Z.
  assert (Hr : 0 <= z mod 256 < 256) by (apply Z.mod_pos_bound; lia).
  destruct (Byte.of_N (Z.to_N (z mod 256))) as [b |] eqn:E.
  - apply Byte.to_of_N in E. rewrite E. lia.
  - apply Byte.of_N_None_iff in E. lia.
Qed.

Lemma to_Z_range (b : Bytes.byte) : 0 <= Bytes.to_Z b < 256.
Proof. unfold Bytes.to_Z. pose proof (Byte.to_N_bounded b). lia. Qed.

Lemma of_Z_to_Z (b : Bytes.byte) : Bytes.of_Z (Bytes.to_Z b) = b.
Proof.
  unfold Bytes.of_Z. rewrite Z.mod_small by apply to_Z_range.
  unfold Bytes.to_Z. rewrite N2Z.id. now rewrite Byte.of_to_N.
Qed.

Lemma of_Z_mod (a b : Z) : a mod 256 = b mod 256 -> Bytes.of_Z a = Bytes.of_Z b.
Proof. unfold Bytes.of_Z. now intros ->. Qed.

Lemma setUint32_bigEndian (v : Z) : Mesh.setUint32 v = Bytes.bigEndian 4 v.
Proof.
  unfold Mesh.setUint32, Num.ToUint32. simpl. rewrite !Z.shiftr_div_pow2 by lia.
  change (2 ^ 32) with 4294967296. change (2 ^ 24) with 16777216.
  change (2 ^ 16) with 65536. change (2 ^ 8) with 256.
  repeat (apply (f_equal2 cons); [apply of_Z_mod; Z.div_mod_to_equations; lia |]).
  reflexivity.
Qed.

Lemma putInt_bigEndian (v : Z) : Java.putInt v = Bytes.bigEndian 4 v.
Proof.
  unfold Java.putInt, Num.int, Num.wrap. simpl. rewrite !Z.shiftr_div_pow2 by lia.
  change (2 ^ (32 - 1)) with 2147483648.
  change (2 ^ 32) with 4294967296. change (2 ^ 24) with 16777216.
  change (2 ^ 16) with 65536. change (2 ^ 8) with 256.
  repeat (apply (f_equal2 cons); [apply of_Z_mod; Z.div_mod_to_equations; lia |]).
  reflexivity.
Qed.

Lemma hex_byte_round_trip (b : Bytes.byte) :
  Hex.decodeHex (Hex.encodeHex [b]) = Some [b].
Proof. destruct b; reflexivity. Qed.

Lemma decodeHex_encodeHex (bs : list Bytes.byte) : Hex.decodeHex (Hex.encodeHex bs) = Some bs.
Proof.
  induction bs as [| b bs IH]; [reflexivity |].
  pose proof (hex_byte_round_trip b) as Hb.
  cbn [Hex.encodeHex Hex.decodeHex] in *. rewrite IH.
  destruct (Hex.value (Hex.digit (Bytes.to_Z b / 16))) as [h |]; [| discriminate Hb].
  destruct (Hex.value (Hex.digit (Bytes.to_Z b mod 16))) as [l |]; [| discriminate Hb].
  now inversion Hb.
Qed.

Lemma encodeHex_inj (a b : list Bytes.byte) : Hex.encodeHex a = Hex.encodeHex b -> a = b.
Proof.
  intros H. apply (f_equal Hex.decodeHex) in H. rewrite !decodeHex_encodeHex in H. congruence.
Qed.

Lemma bigEndian_length (n : nat) : forall z, length (Bytes.bigEndian n z) = n.
Proof.
  induction n as [| n IH]; intros z; simpl; [reflexivity |].
  rewrite List.length_app, IH. simpl. lia.
Qed.

Lemma toNumber_snoc (l : list Bytes.byte) (b : Bytes.byte) :
  forall acc, Bytes.toNumber (l ++ [b]) acc = Bytes.toNumber l acc * 256 + Bytes.to_Z b.
Proof. induction l as [| a l IH]; intros acc; simpl; [reflexivity | apply IH]. Qed.

Lemma toNumber_bigEndian (n : nat) :
  forall z, Bytes.toNumber (Bytes.bigEndian n z) 0 = z mod 256 ^ Z.of_nat n.
Proof.
  induction n as [| n IH]; intros z.
  - simpl. now rewrite Z.mod_1_r.
  - cbn [Bytes.bigEndian]. rewrite toNumber_snoc, IH, to_Z_of_Z.
    rewrite Nat2Z.inj_succ, Z.pow_succ_r by lia.
    rewrite (Z.rem_mul_r z 256 (256 ^ Z.of_nat n)) by (try apply Z.pow_pos_nonneg; lia).
    lia.
Qed.

Lemma bigEndian_inj (n : nat) (x y : Z) :
  0 <= x < 256 ^ Z.of_nat n -> 0 <= y < 256 ^ Z.of_nat n ->
  Bytes.bigEndian n x = Bytes.bigEndian n y -> x = y.
Proof.
  intros Hx Hy H. apply (f_equal (fun l => Bytes.toNumber l 0)) in H.
  rewrite !toNumber_bigEndian in H. now rewrite !Z.mod_small in H.
Qed.

Lemma preimage_inj (r1 r2 : OutputReference) :
  0 <= refOutputIndex r1 < 2 ^ 32 -> 0 <= refOutputIndex r2 < 2 ^ 32 ->
  preimage r1 = preimage r2 -> r1 = r2.
Proof.
  destruct r1 as [h1 i1], r2 as [h2 i2]. unfold preimage.
  cbn [refTxHash refOutputIndex]. intros H1 H2 H.
  apply app_inj_2 in H; [| now rewrite !bigEndian_length].
  destruct H as [-> Hi]. f_equal.
  apply (bigEndian_inj 4); [exact H1 | exact H2 | exact Hi].
Qed.

Lemma add32_range (a b : Z) : 0 <= Sha256.add32 a b < 2 ^ 32.
Proof. unfold Sha256.add32, Sha256.w32. apply Z.mod_pos_bound. lia. Qed.

Lemma compress_range (H : Sha256.State) (block : list Z) : wordsInRange (Sha256.compress H block).
Proof.
  unfold Sha256.compress, wordsInRange.
  cbn [Sha256.sa Sha256.sb Sha256.sc Sha256.sd Sha256.se Sha256.sf Sha256.sg Sha256.sh].
  repeat split; apply add32_range.
Qed.

Lemma blocks_range (n : nat) :
  forall ws H, wordsInRange H -> wordsInRange (Sha256.blocks n ws H).
Proof.
  induction n as [| n IH]; intros ws H HH; [exact HH |].
  cbn [Sha256.blocks]. apply IH. apply compress_range.
Qed.

Lemma initial_range : wordsInRange Sha256.initial.
Proof. vm_compute. repeat split; discriminate. Qed.

Lemma digest_range (msg : list Bytes.byte) :
  0 <= Sha256.stateNumber (Sha256.digestState msg) < 2 ^ 256.
Proof.
  assert (H : wordsInRange (Sha256.digestState msg)).
  { unfold Sha256.digestState. apply blocks_range. apply initial_range. }
  revert H. generalize (Sha256.digestState msg). intros s H.
  unfold wordsInRange in H. unfold Sha256.stateNumber.
  change (2 ^ 32) with 4294967296 in *.
  change (2 ^ 256) with (4294967296 * 4294967296 * 4294967296 * 4294967296
                         * 4294967296 * 4294967296 * 4294967296 * 4294967296).
  lia.
Qed.

(** ** Pigeonhole on an initial segment of the integers *)

Lemma bounded_search (g : Z -> Z) (v : Z) (n : Z) :
  0 <= n ->
  (exists x, 0 <= x < n /\ g x = v) \/ (forall x, 0 <= x < n -> g x <> v).
Proof.
  intros Hn. pattern n. apply natlike_ind; [| | exact Hn].
  - right. intros x Hx. lia.
  - intros k Hk [[x [Hx Hg]] | Hnone].
    + left. exists x. split; [lia | exact Hg].
    + destruct (Z.eq_dec (g k) v) as [Heq | Hne].
      * left. exists k. split; [lia | exact Heq].
      * right. intros x Hx. destruct (Z.eq_dec x k) as [-> | Hxk]; [exact Hne |].
        apply Hnone. lia.
Qed.

Lemma pigeonhole (m : Z) :
  0 <= m ->
  forall g : Z -> Z,
    (forall x, 0 <= x <= m -> 0 <= g x < m) ->
    exists x y, 0 <= x < y /\ y <= m /\ g x = g y.
Proof.
  intros Hm. pattern m. apply natlike_ind; [| | exact Hm].
  - intros g Hg. specialize (Hg 0). lia.
  - intros k Hk IH g Hg.
    destruct (bounded_search g (g (Z.succ k)) (Z.succ k)) as [[x [Hx Hgx]] | Hnone]; [lia | |].
    + exists x, (Z.succ k). split; [lia | split; [lia | exact Hgx]].
    + set (v := g (Z.succ k)) in *.
      assert (Hv : 0 <= v < Z.succ k) by (apply Hg; lia).
      destruct (IH (fun x => if g x <? v then g x else g x - 1)) as [x [y [Hxy [Hy Heq]]]].
      * intros x Hx. pose proof (Hg x ltac:(lia)) as Hgx. pose proof (Hnone x ltac:(lia)) as Hne.
        destruct (Z.ltb_spec (g x) v); lia.
      * exists x, y. split; [exact Hxy | split; [lia |]].
        pose proof (Hnone x ltac:(lia)) as Hnx. pose proof (Hnone y ltac:(lia)) as Hny.
        destruct (Z.ltb_spec (g x) v), (Z.ltb_spec (g y) v); lia.
Qed.

Lemma nthReference_inj (x y : Z) :
  0 <= x <= 2 ^ 256 -> 0 <= y <= 2 ^ 256 -> nthReference x = nthReference y -> x = y.
Proof.
  intros Hx Hy H.
  pose proof (f_equal refTxHash H) as Hb. pose proof (f_equal refOutputIndex H) as Hi.
  unfold nthReference in Hb, Hi. cbn [refTxHash refOutputIndex] in Hb, Hi.
  apply (f_equal (fun l => Bytes.toNumber l 0)) in Hb. rewrite !toNumber_bigEndian in Hb.
  change (256 ^ Z.of_nat 32) with (2 ^ 256) in Hb.
  rewrite (Z.div_mod x (2 ^ 256)), (Z.div_mod y (2 ^ 256)) by lia. congruence.
Qed.

Lemma collision_exists :
  exists r1 r2 : OutputReference,
    r1 <> r2
    /\ length (refTxHash r1) = 32%nat /\ length (refTxHash r2) = 32%nat
    /\ 0 <= refOutputIndex r1 <= 1 /\ 0 <= refOutputIndex r2 <= 1
    /\ tokenNameSpec r1 = tokenNameSpec r2.
Proof.
  destruct (pigeonhole (2 ^ 256) ltac:(lia)
              (fun n => Sha256.stateNumber (Sha256.digestState (preimage (nthReference n)))))
    as [x [y [Hxy [Hy Heq]]]].
  { intros n _. apply digest_range. }
  exists (nthReference x), (nthReference y).
  assert (Hidx : forall n, 0 <= n <= 2 ^ 256 -> 0 <= n / 2 ^ 256 <= 1).
  { intros n Hn. split; [apply Z.div_pos; lia |].
    apply Z.lt_succ_r. apply Z.div_lt_upper_bound; lia. }
  split; [| split; [| split; [| split; [| split]]]].
  - intros H. apply nthReference_inj in H; lia.
  - apply bigEndian_length.
  - apply bigEndian_length.
  - apply Hidx. lia.
  - apply Hidx. lia.
  - unfold tokenNameSpec, Sha256.sha256. now rewrite Heq.
Qed.

(** Test vectors of FIPS 180-4 for the executable SHA-256: the empty
    message, a one-block message and a two-block message. *)
Example sha256_empty :
  Hex.encodeHex (Sha256.sha256 [])
  = "e3b0c44298fc1c149afbf4c8996fb92427ae41e4649b934ca495991b7852b855"%string.
Proof. vm_compute. reflexivity. Qed.

Example sha256_abc :
  Hex.encodeHex (Sha256.sha256 (bytesOfText "abc"))
  = "ba7816bf8f01cfea414140de5dae2223b00361a396177a9cb410ff61f20015ad"%string.
Proof. vm_compute. reflexivity. Qed.

Example sha256_two_blocks :
  Hex.encodeHex
    (Sha256.sha256 (bytesOfText "abcdbcdecdefdefgefghfghighijhijkijkljklmklmnlmnomnopnopq"))
  = "248d6a61d20638b8e5c026930c3e6039a33ce45964ff2167f6ecedd419db06c1"%string.
Proof. vm_compute. reflexivity. Qed.

Lemma some_inj {A : Type} (x y : A) : Some x = Some y -> x = y.
Proof. intros H. congruence. Qed.

(** Every implementation hashes the decoded transaction hash followed by
    the 4-byte big-endian index. *)
Lemma decodeHexString_decodeHex (s : string) (h : list Bytes.byte) :
  Hex.decodeHex s = Some h -> Java.decodeHexString s = Some h.
Proof.
  intros H. unfold Java.decodeHexString.
  destruct s as [| c0 [| c1 rest]]; [exact H | discriminate H |].
  destruct (Ascii.eqb_spec c0 "0") as [-> | Hc0];
    [destruct (Ascii.eqb_spec c1 "x") as [-> | Hc1]; [discriminate H |] |].
  - destruct c1 as [[] [] [] [] [] [] [] []]; try exact H; contradiction Hc1; reflexivity.
  - destruct c0 as [[] [] [] [] [] [] [] []]; try exact H; contradiction Hc0; reflexivity.
Qed.

Lemma computeIdentityTokenName_spec (impl : Impl) (txHash : string) (h : list Bytes.byte)
    (idx : Z) :
  Hex.decodeHex txHash = Some h ->
  computeIdentityTokenName impl txHash idx
  = Some (Hex.encodeHex (tokenNameSpec (mkOutputReference h idx))).
Proof.
  intros Hdec. unfold tokenNameSpec, preimage. cbn [refTxHash refOutputIndex].
  destruct impl; cbn [computeIdentityTokenName];
    unfold Lucid.computeIdentityTokenName, Mesh.computeIdentityTokenName,
      Java.computeIdentityTokenName;
    rewrite ?(decodeHexString_decodeHex _ _ Hdec), ?Hdec.
  - change (Lucid.setUint32 idx) with (Mesh.setUint32 idx). now rewrite setUint32_bigEndian.
  - now rewrite setUint32_bigEndian.
  - now rewrite putInt_bigEndian.
Qed.

(* ===================================================================== *)
(** ** C3: token names *)
(* ===================================================================== *)

(** C3, as stated, fails in its first part.  Distinct references do not
    always have distinct token names: the TypeScript helpers reduce the
    output index modulo 2^32 before encoding it, so the indices 0 and
    2^32 of one transaction give the same name; and SHA-256 maps the
    2^256 + 1 references with a 32-byte hash and index 0 or 1 into
    2^256 digests, so two distinct such references share a token name in
    each of the three implementations. *)
Lemma C3_counterexample_token_name_collision :
  (exists name,
      Mesh.computeIdentityTokenName
        "0000000000000000000000000000000000000000000000000000000000000000" 0 = Some name
      /\ Mesh.computeIdentityTokenName
           "0000000000000000000000000000000000000000000000000000000000000000" 4294967296
         = Some name
      /\ Lucid.computeIdentityTokenName
           "0000000000000000000000000000000000000000000000000000000000000000" 0 = Some name
      /\ Lucid.computeIdentityTokenName
           "0000000000000000000000000000000000000000000000000000000000000000" 4294967296
         = Some name)
  /\ (exists r1 r2 : OutputReference,
        r1 <> r2
        /\ length (refTxHash r1) = 32%nat /\ length (refTxHash r2) = 32%nat
        /\ 0 <= refOutputIndex r1 <= 1 /\ 0 <= refOutputIndex r2 <= 1
        /\ forall impl,
            computeIdentityTokenName impl (Hex.encodeHex (refTxHash r1)) (refOutputIndex r1)
            = computeIdentityTokenName impl (Hex.encodeHex (refTxHash r2)) (refOutputIndex r2)).
Proof.
  split.
  - eexists. repeat split; vm_compute; reflexivity.
  - destruct collision_exists as [r1 [r2 [Hne [Hl1 [Hl2 [Hi1 [Hi2 Heq]]]]]]].
    exists r1, r2. repeat split; try assumption; try lia.
    intros impl.
    rewrite (computeIdentityTokenName_spec impl _ _ _ (decodeHex_encodeHex (refTxHash r1))).
    rewrite (computeIdentityTokenName_spec impl _ _ _ (decodeHex_encodeHex (refTxHash r2))).
    destruct r1 as [h1 i1], r2 as [h2 i2]. cbn [refTxHash refOutputIndex] in *.
    now rewrite Heq.
Qed.

(** C3 (amended): for every transaction hash given as hex text that
    decodes to the bytes [h] and every output index, the three
    implementations (Lucid, MeshJS, Java) compute the same token name,
    namely the hex text of the SHA-256 hash of [h] followed by the index
    as a 4-byte big-endian integer; the derivation is a function of the
    reference alone; distinct references whose index lies in [0, 2^32)
    have distinct hash inputs, so two of them can share a token name only
    where SHA-256 maps two different inputs to one digest. *)
Theorem C3_token_name_is_sha256_of_reference
    (txHash : string) (h : list Bytes.byte) (idx : Z) :
  Hex.decodeHex txHash = Some h ->
  (forall impl,
      computeIdentityTokenName impl txHash idx
      = Some (Hex.encodeHex (Sha256.sha256 (h ++ Bytes.bigEndian 4 idx))))
  /\ (forall impl1 impl2,
        computeIdentityTokenName impl1 txHash idx = computeIdentityTokenName impl2 txHash idx)
  /\ (forall impl, computeIdentityTokenName impl (Hex.encodeHex h) idx
                   = computeIdentityTokenName impl txHash idx)
  /\ (forall h' idx',
        0 <= idx < 2 ^ 32 -> 0 <= idx' < 2 ^ 32 ->
        mkOutputReference h idx <> mkOutputReference h' idx' ->
        h ++ Bytes.bigEndian 4 idx <> h' ++ Bytes.bigEndian 4 idx'
        /\ forall impl,
            computeIdentityTokenName impl txHash idx
            = computeIdentityTokenName impl (Hex.encodeHex h') idx' ->
            Sha256.sha256 (h ++ Bytes.bigEndian 4 idx)
            = Sha256.sha256 (h' ++ Bytes.bigEndian 4 idx')).
Proof.
  intros Hdec.
  assert (Hspec : forall impl,
             computeIdentityTokenName impl txHash idx
             = Some (Hex.encodeHex (Sha256.sha256 (h ++ Bytes.bigEndian 4 idx)))).
  { intros impl. exact (computeIdentityTokenName_spec impl txHash h idx Hdec). }
  split; [exact Hspec | split; [| split; [| ]]].
  - intros impl1 impl2. now rewrite !Hspec.
  - intros impl. rewrite Hspec.
    exact (computeIdentityTokenName_spec impl _ _ _ (decodeHex_encodeHex h)).
  - intros h' idx' Hi Hi' Hne. split.
    + intros Heq. apply Hne.
      apply (preimage_inj (mkOutputReference h idx) (mkOutputReference h' idx')); assumption.
    + intros impl Heq.
      rewrite Hspec, (computeIdentityTokenName_spec impl _ _ _ (decodeHex_encodeHex h')) in Heq.
      unfold tokenNameSpec, preimage in Heq. cbn [refTxHash refOutputIndex] in Heq.
      apply some_inj in Heq. exact (encodeHex_inj _ _ Heq).
Qed.

Lemma C3_token_name_is_sha256_of_reference_witness :
  Hex.decodeHex "00ff10" = Some [Byte.x00; Byte.xff; Byte.x10]
  /\ Java.computeIdentityTokenName "00ff10" 1
     = Some (Hex.encodeHex
               (Sha256.sha256 [Byte.x00; Byte.xff; Byte.x10; Byte.x00; Byte.x00; Byte.x00; Byte.x01])).
Proof.
  assert (H : Hex.decodeHex "00ff10" = Some [Byte.x00; Byte.xff; Byte.x10]) by reflexivity.
  split; [exact H |].
  exact (proj1 (C3_token_name_is_sha256_of_reference "00ff10" [Byte.x00; Byte.xff; Byte.x10] 1 H)
               JavaImpl).
Defined.

(* ===================================================================== *)
(** ** The chain between two operations *)
(* ===================================================================== *)

Lemma keyBytes_encodeHex (impl : Impl) (bs : list Bytes.byte) :
  keyBytes impl (Hex.encodeHex bs) = Some bs.
Proof.
  destruct impl; cbn [keyBytes]; try apply decodeHex_encodeHex.
  apply decodeHexString_decodeHex, decodeHex_encodeHex.
Qed.

Lemma readKeyHash_canonical (impl : Impl) (s : string) :
  canonicalHex s -> readKeyHash impl s = Some s.
Proof. intros [bs ->]. unfold readKeyHash. rewrite keyBytes_encodeHex. reflexivity. Qed.

Lemma readKeyHash_is_canonical (impl : Impl) (s s' : string) :
  readKeyHash impl s = Some s' -> canonicalHex s'.
Proof.
  unfold readKeyHash. destruct (keyBytes impl s) as [bs |]; [| discriminate].
  intros H. apply some_inj in H. subst s'. exists bs. reflexivity.
Qed.

Lemma readDelegates_asRead (impl : Impl) (l : list Delegate) :
  asRead l -> allSome (List.map (readDelegate impl) l) = Some l.
Proof.
  induction 1 as [| d l Hd _ IH]; [reflexivity |].
  cbn [List.map allSome]. unfold readDelegate at 1.
  rewrite (readKeyHash_canonical impl _ Hd), IH. destruct d; reflexivity.
Qed.

Lemma readDelegates_are_read (impl : Impl) (l : list Delegate) :
  forall l', allSome (List.map (readDelegate impl) l) = Some l' -> asRead l'.
Proof.
  induction l as [| d l IH]; intros l' H; cbn [List.map allSome] in H.
  - apply some_inj in H. subst l'. constructor.
  - unfold readDelegate at 1 in H.
    destruct (readKeyHash impl (delegateAddress d)) as [a |] eqn:Ea; [| discriminate H].
    destruct (allSome (List.map (readDelegate impl) l)) as [l0 |]; [| discriminate H].
    apply some_inj in H. subst l'. constructor; [| apply IH; reflexivity].
    cbn [delegateAddress]. exact (readKeyHash_is_canonical impl _ _ Ea).
Qed.

Lemma readBack_fields (impl : Impl) (D R : IdentityDatum) :
  readBack impl D = Some R ->
  readKeyHash impl (identity D) = Some (identity R)
  /\ readKeyHash impl (owner D) = Some (owner R)
  /\ allSome (List.map (readDelegate impl) (delegates D)) = Some (delegates R)
  /\ attributes R = attributes D
  /\ nonce R = nonce D.
Proof.
  unfold readBack.
  destruct (readKeyHash impl (identity D)) as [i |]; [| discriminate].
  destruct (readKeyHash impl (owner D)) as [o |]; [| discriminate].
  destruct (allSome (List.map (readDelegate impl) (delegates D))) as [ds |]; [| discriminate].
  intros H. apply some_inj in H. subst R. repeat split.
Qed.

Lemma readBack_fromChain (impl : Impl) (D R : IdentityDatum) :
  readBack impl D = Some R -> fromChain R.
Proof.
  intros H. destruct (readBack_fields impl D R H) as (Hi & Ho & Hd & _).
  split; [exact (readKeyHash_is_canonical impl _ _ Hi) |].
  split; [exact (readKeyHash_is_canonical impl _ _ Ho) |].
  exact (readDelegates_are_read impl _ _ Hd).
Qed.

Lemma readBack_delegates (impl : Impl) (D R : IdentityDatum) :
  readBack impl D = Some R -> asRead (delegates D) -> delegates R = delegates D.
Proof.
  intros H Hd. destruct (readBack_fields impl D R H) as (_ & _ & E & _).
  rewrite (readDelegates_asRead impl _ Hd) in E. apply some_inj in E. symmetry. exact E.
Qed.

Lemma readBack_of_fromChain (impl : Impl) (D : IdentityDatum) :
  fromChain D -> readBack impl D = Some D.
Proof.
  intros (Hi & Ho & Hd). unfold readBack.
  rewrite (readKeyHash_canonical impl _ Hi), (readKeyHash_canonical impl _ Ho),
    (readDelegates_asRead impl _ Hd).
  destruct D; reflexivity.
Qed.

Lemma NoDup_map_on {A B C : Type} (f : A -> B) (g : A -> C) (l : list A) :
  (forall x y, In x l -> In y l -> f x = f y -> g x = g y) ->
  List.NoDup (List.map g l) -> List.NoDup (List.map f l).
Proof.
  induction l as [| x l IH]; intros H Hnd; [constructor |].
  cbn [List.map] in *. apply List.NoDup_cons_iff in Hnd. destruct Hnd as [Hx Hnd].
  constructor.
  - intros Hin. apply List.in_map_iff in Hin. destruct Hin as (y & E & Hy).
    apply Hx. rewrite <- (H y x (or_intror Hy) (or_introl eq_refl) E).
    apply List.in_map. exact Hy.
  - apply IH; [| exact Hnd]. intros a b Ha Hb. apply H; right; assumption.
Qed.

Lemma canonicalHex_decodeHex_inj (s t : string) :
  canonicalHex s -> canonicalHex t -> Hex.decodeHex s = Hex.decodeHex t -> s = t.
Proof.
  intros [a ->] [b ->]. rewrite !decodeHex_encodeHex. intros E.
  apply some_inj in E. subst. reflexivity.
Qed.

(** For key hashes as they are read, the pairs of the Record are unique
    exactly when the texts the code compares are. *)
Lemma onePerPair_uniqueDelegates (l : list Delegate) :
  asRead l -> (onePerPair l <-> uniqueDelegates l).
Proof.
  intros Hl. unfold onePerPair, uniqueDelegates. unfold asRead in Hl.
  rewrite List.Forall_forall in Hl. split.
  - apply NoDup_map_on. intros x y _ _ E. unfold delegateKey in E. unfold storedPair.
    congruence.
  - apply NoDup_map_on. intros x y Hx Hy E. unfold storedPair in E. unfold delegateKey.
    inversion E as [[E1 E2]]. f_equal.
    apply canonicalHex_decodeHex_inj; [apply Hl; exact Hx | apply Hl; exact Hy | exact E1].
Qed.

Lemma asRead_filter (f : Delegate -> bool) (l : list Delegate) :
  asRead l -> asRead (List.filter f l).
Proof.
  unfold asRead. rewrite !List.Forall_forall. intros H d Hd.
  apply List.filter_In in Hd. apply H. exact (proj1 Hd).
Qed.

Lemma asRead_snoc (l : list Delegate) (d : Delegate) :
  asRead l -> canonicalHex (delegateAddress d) -> asRead (l ++ [d]).
Proof.
  unfold asRead. intros Hl Hd. apply List.Forall_app. split; [exact Hl |].
  constructor; [exact Hd | constructor].
Qed.

Lemma apply_asRead (impl : Impl) (env : Env) (D : IdentityDatum) (A : Action) :
  asRead (delegates D) ->
  (forall t a v, A = AddDelegate t a v -> canonicalHex a) ->
  asRead (delegates (apply impl env D A)).
Proof.
  intros Hd Ha. rewrite apply_delegates.
  destruct A as [o | t a v | t a | n v x | n v]; try exact Hd.
  - apply asRead_snoc; [apply asRead_filter; exact Hd |].
    cbn [delegateAddress]. exact (Ha t a v eq_refl).
  - apply asRead_filter. exact Hd.
Qed.

Lemma apply_keeps_unique (impl : Impl) (env : Env) (D : IdentityDatum) (A : Action) :
  uniqueDelegates (delegates D) -> uniqueAttributes (attributes D) ->
  uniqueDelegates (delegates (apply impl env D A))
  /\ uniqueAttributes (attributes (apply impl env D A)).
Proof.
  intros Hd Ha. unfold uniqueDelegates, uniqueAttributes in *.
  rewrite apply_delegates, apply_attributes.
  destruct A as [o | t a v | t a | name value x | name value]; split; try assumption.
  - apply (replace_by_key_NoDup delegateKey (sameDelegate a t)); [| exact Hd].
    intros y. rewrite sameDelegate_spec. reflexivity.
  - apply NoDup_map_filter. exact Hd.
  - apply (replace_by_key_NoDup attrName (fun a => (attrName a =? name)%string));
      [| exact Ha].
    intros y. cbn [attrName]. apply String.eqb_eq.
  - apply NoDup_map_filter. exact Ha.
Qed.

Lemma apply_keeps_one_per_pair (impl : Impl) (env : Env) (D : IdentityDatum) (A : Action) :
  asRead (delegates D) ->
  (forall t a v, A = AddDelegate t a v -> canonicalHex a) ->
  onePerPair (delegates D) -> uniqueAttributes (attributes D) ->
  onePerPair (delegates (apply impl env D A))
  /\ uniqueAttributes (attributes (apply impl env D A)).
Proof.
  intros Hr Ha Hp Hu.
  apply (onePerPair_uniqueDelegates _ Hr) in Hp.
  destruct (apply_keeps_unique impl env D A Hp Hu) as [Hp' Hu'].
  split; [| exact Hu'].
  apply onePerPair_uniqueDelegates; [apply apply_asRead; assumption | exact Hp'].
Qed.

(* ===================================================================== *)
(** ** C4: at most one entry per key *)
(* ===================================================================== *)

(** C4, as stated, fails for the delegates.  The Record holds a key hash
    as bytes, while every builder looks for the existing entry by
    comparing texts.  When the record read from the chain holds the pair
    (ab, sigAuth) and AddDelegate names the same key hash in upper case,
    the builder finds no entry to replace and the new record holds two
    entries whose key hash is the byte ab and whose type is sigAuth: in
    the Lucid builder, and in the Java record method, whose own codec
    ([toPlutusData], [fromPlutusData]) stores and returns both. *)
Lemma C4_counterexample_key_hash_in_upper_case :
  let D := mkIdentityDatum "1d" "0e" [mkDelegate "ab" "sigAuth" 1700000000005] [] 1 in
  let lucid := txDatum (Lucid.addDelegate "addr_test1vz" D 1700000000000 1700000000001
                                          1700000000002 "sigAuth" "AB" 86400000) in
  let java := Java.withAddedDelegate D (mkDelegate "AB" "sigAuth" 1700086400000) in
  fromChain D
  /\ onePerPair (delegates D)
  /\ delegates lucid = [mkDelegate "ab" "sigAuth" 1700000000005;
                        mkDelegate "AB" "sigAuth" 1700086400000]
  /\ ~ onePerPair (delegates lucid)
  /\ option_map delegates (readBack LucidImpl lucid)
     = Some [mkDelegate "ab" "sigAuth" 1700000000005;
             mkDelegate "ab" "sigAuth" 1700086400000]
  /\ delegates java = delegates lucid
  /\ exists fields,
       Identity.toPlutusData bytesOfText java = Some (Identity.ConstrPlutusData 0 fields)
       /\ option_map delegates (Identity.fromPlutusData textOfBytes fields)
          = Some [mkDelegate "ab" "sigAuth" 1700000000005;
                  mkDelegate "ab" "sigAuth" 1700086400000].
Proof.
  cbv zeta. split; [| split; [| split; [| split; [| split; [| split]]]]].
  - split; [exists [Byte.x1d]; reflexivity |]. split; [exists [Byte.x0e]; reflexivity |].
    constructor; [exists [Byte.xab]; reflexivity | constructor].
  - unfold onePerPair. cbn [delegates List.map]. constructor; [intros [] | constructor].
  - reflexivity.
  - unfold onePerPair. intros H. vm_compute in H.
    apply List.NoDup_cons_iff in H. destruct H as [H _]. apply H. left. reflexivity.
  - reflexivity.
  - reflexivity.
  - eexists. split; reflexivity.
Qed.

(** C4 (amended): for a record as it is read from the chain (key hashes
    in lower-case hexadecimal) and, for AddDelegate, a key hash given in
    that same form, every operation of every implementation preserves the
    invariant that the delegates hold at most one entry per
    (address, type) pair of the Record and the attributes at most one entry
    per name, and what is read back after the operation has the same
    delegates and attributes.  AddDelegate removes the entries of the pair
    and appends the new entry, which is then the only entry of the pair;
    SetAttribute removes the entries of the name and appends the new
    entry, which is then the only entry of the name; when the key was
    present the collection keeps its size, so the prior entry is replaced
    and no duplicate is added. *)
Theorem C4_one_entry_per_key
    (impl : Impl) (env : Env) (D : IdentityDatum) (A : Action) :
  asRead (delegates D) ->
  onePerPair (delegates D) ->
  uniqueAttributes (attributes D) ->
  (forall t a v, A = AddDelegate t a v -> canonicalHex a) ->
  let D' := apply impl env D A in
  onePerPair (delegates D')
  /\ uniqueAttributes (attributes D')
  /\ (forall R, readBack impl D' = Some R ->
        delegates R = delegates D' /\ attributes R = attributes D')
  /\ (forall t a v, A = AddDelegate t a v ->
        let new := mkDelegate a t (storedValidUntil impl env v) in
        delegates D'
        = List.filter (fun d => negb (sameDelegate a t d)) (delegates D) ++ [new]
        /\ (forall d, In d (delegates D') ->
              Hex.decodeHex (delegateAddress d) = Hex.decodeHex a -> delegateType d = t ->
              d = new)
        /\ ((exists d, In d (delegates D) /\ sameDelegate a t d = true) ->
            length (delegates D') = length (delegates D)))
  /\ (forall n v x, A = SetAttribute n v x ->
        let new := mkAttribute n v (storedValidUntil impl env x) in
        attributes D'
        = List.filter (fun a => negb (attrName a =? n)%string) (attributes D) ++ [new]
        /\ (forall a, In a (attributes D') -> attrName a = n -> a = new)
        /\ ((exists a, In a (attributes D) /\ attrName a = n) ->
            length (attributes D') = length (attributes D))).
Proof.
  intros Hr Hp Hu Hc. cbv zeta.
  pose proof (apply_asRead impl env D A Hr Hc) as Hr'.
  destruct (apply_keeps_one_per_pair impl env D A Hr Hc Hp Hu) as [Hp' Hu'].
  split; [exact Hp' |]. split; [exact Hu' |]. split; [| split].
  - intros R HR. split; [exact (readBack_delegates impl _ R HR Hr') |].
    exact (proj1 (proj2 (proj2 (proj2 (readBack_fields impl _ R HR))))).
  - intros t a v ->. cbv zeta. specialize (Hc t a v eq_refl).
    rewrite apply_delegates in *. split; [reflexivity |]. split.
    + intros d Hin Hb Ht.
      assert (Hs : sameDelegate a t d = true).
      { apply sameDelegate_spec. unfold delegateKey. f_equal; [| exact Ht].
        unfold asRead in Hr'. rewrite List.Forall_forall in Hr'.
        apply canonicalHex_decodeHex_inj; [apply Hr'; exact Hin | exact Hc | exact Hb]. }
      apply List.in_app_or in Hin. destruct Hin as [Hin | [<- | []]]; [| reflexivity].
      apply List.filter_In in Hin. destruct Hin as [_ Hn]. rewrite Hs in Hn. discriminate Hn.
    + intros Hex. rewrite List.length_app. cbn [length].
      rewrite <- (filter_key_length delegateKey (sameDelegate a t) (a, t) (delegates D));
        [lia | apply sameDelegate_spec | | exact Hex].
      apply onePerPair_uniqueDelegates; assumption.
  - intros n v x ->. cbv zeta. rewrite apply_attributes in *. split; [reflexivity |]. split.
    + intros a Hin Hn.
      apply List.in_app_or in Hin. destruct Hin as [Hin | [<- | []]]; [| reflexivity].
      apply List.filter_In in Hin. destruct Hin as [_ Hf].
      apply String.eqb_eq in Hn. rewrite Hn in Hf. discriminate Hf.
    + intros [a [Ha Hn]]. rewrite List.length_app. cbn [length].
      rewrite <- (filter_key_length attrName (fun a => (attrName a =? n)%string) n
                    (attributes D));
        [lia | intros y; apply String.eqb_eq | exact Hu |].
      exists a. split; [exact Ha | now apply String.eqb_eq].
Qed.

Lemma C4_one_entry_per_key_witness :
  let D := mkIdentityDatum "1d" "0e"
             [mkDelegate "ab" "veriKey" 1700000000005; mkDelegate "cd" "enc" 0]
             [mkAttribute "email" "a@b" 0] 3 in
  let env := mkEnv "addr_test1vz" 1700000000000 1700000000001 1700000000002 7 in
  let D' := apply LucidImpl env D (AddDelegate "veriKey" "ab" 86400000) in
  asRead (delegates D)
  /\ onePerPair (delegates D)
  /\ uniqueAttributes (attributes D)
  /\ canonicalHex "ab"
  /\ onePerPair (delegates D')
  /\ delegates D' = [mkDelegate "cd" "enc" 0; mkDelegate "ab" "veriKey" 1700086400000]
  /\ length (delegates D') = length (delegates D).
Proof.
  cbv zeta.
  set (D := mkIdentityDatum "1d" "0e"
              [mkDelegate "ab" "veriKey" 1700000000005; mkDelegate "cd" "enc" 0]
              [mkAttribute "email" "a@b" 0] 3).
  set (env := mkEnv "addr_test1vz" 1700000000000 1700000000001 1700000000002 7).
  assert (Hab : canonicalHex "ab") by (exists [Byte.xab]; reflexivity).
  assert (Hr : asRead (delegates D)).
  { repeat constructor; [exact Hab | exists [Byte.xcd]; reflexivity]. }
  assert (Hp : onePerPair (delegates D)).
  { unfold onePerPair. cbn [D delegates List.map]. nodup_by_inspection. }
  assert (Hu : uniqueAttributes (attributes D)).
  { unfold uniqueAttributes. cbn [D attributes List.map]. nodup_by_inspection. }
  assert (Hc : forall t a v, AddDelegate "veriKey" "ab" 86400000 = AddDelegate t a v ->
                             canonicalHex a).
  { intros t a v E. inversion E. exact Hab. }
  pose proof (C4_one_entry_per_key LucidImpl env D (AddDelegate "veriKey" "ab" 86400000)
                Hr Hp Hu Hc) as H.
  cbv zeta in H. destruct H as (Hp' & _ & _ & Hadd & _).
  destruct (Hadd "veriKey"%string "ab"%string 86400000 eq_refl) as (Hl & _ & Hlen).
  split; [exact Hr |]. split; [exact Hp |]. split; [exact Hu |]. split; [exact Hab |].
  split; [exact Hp' |]. split; [exact Hl |].
  apply Hlen. exists (mkDelegate "ab" "veriKey" 1700000000005).
  split; [left; reflexivity | reflexivity].
Defined.

(* ===================================================================== *)
(** ** C6: add then revoke *)
(* ===================================================================== *)

(** C6, as stated, fails in two ways, each through the chain, where the
    second builder reads what the first wrote.  When the record already
    holds an entry for the pair, AddDelegate replaces it and
    RevokeDelegate removes the replacement, so the entry of before is
    lost.  And when the key hash is given in upper case, the added entry
    is read back in lower case, RevokeDelegate with the same upper-case
    text matches nothing and the added entry stays. *)
Lemma C6_counterexample_entry_lost_or_kept :
  let env1 := mkEnv "addr_test1vz" 1700000000000 1700000000001 1700000000002 7 in
  let env2 := mkEnv "addr_test1vz" 1700000600000 1700000600001 1700000600002 9 in
  let D := mkIdentityDatum "1d" "0e" [mkDelegate "ab" "sigAuth" 1700000000005] [] 1 in
  let E := mkIdentityDatum "1d" "0e" [] [] 0 in
  (fromChain D
   /\ (exists D1,
         readBack LucidImpl (txDatum (Lucid.addDelegate (signer env1) D (now0 env1) (now1 env1)
                                        (now2 env1) "sigAuth" "ab" 86400000)) = Some D1
         /\ delegates (txDatum (Lucid.revokeDelegate (signer env2) D1 "sigAuth" "ab")) = [])
   /\ (exists fields D1,
         Identity.toPlutusData bytesOfText
           (Java.withAddedDelegate D (mkDelegate "ab" "sigAuth" 1700086400000))
         = Some (Identity.ConstrPlutusData 0 fields)
         /\ Identity.fromPlutusData textOfBytes fields = Some D1
         /\ delegates (Java.withRevokedDelegate D1 "ab" "sigAuth") = [])
   /\ delegates D <> [])
  /\ (fromChain E
      /\ (exists E1,
            readBack LucidImpl (txDatum (Lucid.addDelegate (signer env1) E (now0 env1)
                                           (now1 env1) (now2 env1) "sigAuth" "AB" 86400000))
            = Some E1
            /\ delegates (txDatum (Lucid.revokeDelegate (signer env2) E1 "sigAuth" "AB"))
               = [mkDelegate "ab" "sigAuth" 1700086400000])
      /\ delegates E = []).
Proof.
  cbv zeta. split.
  - split; [| split; [| split; [| discriminate]]].
    + split; [exists [Byte.x1d]; reflexivity |]. split; [exists [Byte.x0e]; reflexivity |].
      constructor; [exists [Byte.xab]; reflexivity | constructor].
    + eexists. split; reflexivity.
    + eexists. eexists. split; [reflexivity |]. split; reflexivity.
  - split; [| split; [| reflexivity]].
    + split; [exists [Byte.x1d]; reflexivity |]. split; [exists [Byte.x0e]; reflexivity |].
      constructor.
    + eexists. split; reflexivity.
Qed.

(** C6 (amended): for every implementation, every record read from the
    chain that holds no entry for the pair (a, t), and a key hash [a]
    given in the lower-case hexadecimal form in which the chain returns
    key hashes, AddDelegate(t, a, v) followed by RevokeDelegate(t, a) on
    the record read back in between yields a delegate collection
    identical to the one before the AddDelegate. *)
Theorem C6_add_then_revoke_round_trip
    (impl : Impl) (env1 env2 : Env) (D D1 : IdentityDatum) (t a : string) (v : Z) :
  asRead (delegates D) ->
  canonicalHex a ->
  (forall d, In d (delegates D) -> sameDelegate a t d = false) ->
  readBack impl (apply impl env1 D (AddDelegate t a v)) = Some D1 ->
  delegates (apply impl env2 D1 (RevokeDelegate t a)) = delegates D.
Proof.
  intros Hr Ha Habsent H1.
  assert (E : delegates D1 = delegates (apply impl env1 D (AddDelegate t a v))).
  { apply (readBack_delegates impl _ _ H1). apply apply_asRead; [exact Hr |].
    intros t' a' v' Heq. inversion Heq. subst. exact Ha. }
  rewrite apply_delegates, E, apply_delegates.
  rewrite List.filter_app, filter_filter_same. cbn [List.filter].
  rewrite sameDelegate_refl. cbn [negb]. rewrite List.app_nil_r.
  apply filter_id. intros d Hd. now rewrite (Habsent d Hd).
Qed.

Lemma C6_add_then_revoke_round_trip_witness :
  let env1 := mkEnv "addr_test1vz" 1700000000000 1700000000001 1700000000002 7 in
  let env2 := mkEnv "addr_test1vz" 1700000600000 1700000600001 1700000600002 9 in
  let D := mkIdentityDatum "1d" "0e" [mkDelegate "cd" "enc" 0] [] 1 in
  let D1 := mkIdentityDatum "1d" "0e"
              [mkDelegate "cd" "enc" 0; mkDelegate "ab" "sigAuth" 1700086400000] [] 2 in
  asRead (delegates D)
  /\ canonicalHex "ab"
  /\ (forall d, In d (delegates D) -> sameDelegate "ab" "sigAuth" d = false)
  /\ readBack LucidImpl (apply LucidImpl env1 D (AddDelegate "sigAuth" "ab" 86400000)) = Some D1
  /\ delegates (apply LucidImpl env2 D1 (RevokeDelegate "sigAuth" "ab")) = delegates D.
Proof.
  cbv zeta.
  assert (Hab : canonicalHex "ab") by (exists [Byte.xab]; reflexivity).
  assert (Hr : asRead (delegates (mkIdentityDatum "1d" "0e" [mkDelegate "cd" "enc" 0] [] 1))).
  { repeat constructor. exists [Byte.xcd]. reflexivity. }
  assert (Hn : forall d, In d (delegates (mkIdentityDatum "1d" "0e" [mkDelegate "cd" "enc" 0]
                                            [] 1)) ->
                         sameDelegate "ab" "sigAuth" d = false).
  { intros d [<- | []]. reflexivity. }
  split; [exact Hr |]. split; [exact Hab |]. split; [exact Hn |]. split; [reflexivity |].
  exact (C6_add_then_revoke_round_trip LucidImpl
           (mkEnv "addr_test1vz" 1700000000000 1700000000001 1700000000002 7)
           (mkEnv "addr_test1vz" 1700000600000 1700000600001 1700000600002 9)
           _ _ "sigAuth" "ab" 86400000 Hr Hab Hn eq_refl).
Defined.

(* ===================================================================== *)
(** ** DID syntax and resolution *)
(* ===================================================================== *)

Lemma colonFree_cons (c : ascii) (s : string) :
  colonFree (String c s) <-> c <> ":"%char /\ colonFree s.
Proof.
  unfold colonFree. simpl. split.
  - intros H. split; [intros E; apply H; left; exact E |].
    intros I. apply H. right. exact I.
  - intros [Hc Hs] [E | I]; [exact (Hc E) | exact (Hs I)].
Qed.

Lemma colonFree_nil : colonFree EmptyString.
Proof. intros []. Qed.

Lemma colonFreeRun_spec (s : string) :
  forall a r, Doc.colonFreeRun s = (a, r) ->
    s = a +:+ r /\ colonFree a /\ (r = EmptyString \/ exists r', r = String ":" r').
Proof.
  induction s as [| c s IH]; intros a r H; simpl in H.
  - inversion H; subst. split; [reflexivity |]. split; [exact colonFree_nil | left; reflexivity].
  - destruct (Ascii.eqb c ":") eqn:Ec.
    + inversion H; subst. apply Ascii.eqb_eq in Ec. subst c.
      split; [reflexivity |]. split; [exact colonFree_nil | right; eexists; reflexivity].
    + destruct (Doc.colonFreeRun s) as [run r0] eqn:Er. inversion H; subst.
      destruct (IH _ _ eq_refl) as (Hs & Hf & Hr).
      split; [rewrite append_cons; f_equal; exact Hs |].
      split; [| exact Hr].
      apply colonFree_cons. split; [| exact Hf].
      intros E. subst c. discriminate Ec.
Qed.

Lemma colonFreeRun_colon (a : string) :
  colonFree a -> forall r, Doc.colonFreeRun (a +:+ String ":" r) = (a, String ":" r).
Proof.
  induction a as [| c a IH]; intros Hf r.
  - reflexivity.
  - apply colonFree_cons in Hf. destruct Hf as [Hc Hf].
    rewrite append_cons. simpl.
    destruct (Ascii.eqb c ":") eqn:Ec; [apply Ascii.eqb_eq in Ec; contradiction |].
    rewrite (IH Hf). reflexivity.
Qed.

Lemma colonFreeRun_end (a : string) :
  colonFree a -> Doc.colonFreeRun a = (a, EmptyString).
Proof.
  induction a as [| c a IH]; intros Hf.
  - reflexivity.
  - apply colonFree_cons in Hf. destruct Hf as [Hc Hf]. simpl.
    destruct (Ascii.eqb c ":") eqn:Ec; [apply Ascii.eqb_eq in Ec; contradiction |].
    rewrite (IH Hf). reflexivity.
Qed.

Lemma append_empty_r (s : string) : s +:+ EmptyString = s.
Proof. induction s as [| c s IH]; [reflexivity | rewrite append_cons, IH; reflexivity]. Qed.

Lemma groupThenColon_spec (s g rest : string) :
  Doc.groupThenColon s = Some (g, rest) <-> segment g /\ s = g +:+ ":" +:+ rest.
Proof.
  unfold Doc.groupThenColon, segment. split.
  - intros H. destruct (Doc.colonFreeRun s) as [a r] eqn:E.
    destruct (colonFreeRun_spec _ _ _ E) as (Hs & Hf & Hr).
    destruct a as [| c a]; [discriminate H |].
    destruct r as [| c' r]; [discriminate H |].
    inversion H; subst g rest.
    destruct Hr as [Hr | [r' Hr]]; [discriminate Hr |].
    inversion Hr; subst c' r'.
    split; [split; [discriminate | exact Hf] | exact Hs].
  - intros [[Hne Hf] Hs]. subst s.
    change (g +:+ ":" +:+ rest) with (g +:+ String ":" rest).
    rewrite (colonFreeRun_colon _ Hf).
    destruct g as [| c g]; [contradiction Hne; reflexivity | reflexivity].
Qed.

Lemma groupThenEnd_spec (s g : string) :
  Doc.groupThenEnd s = Some g <-> segment g /\ s = g.
Proof.
  unfold Doc.groupThenEnd, segment. split.
  - intros H. destruct (Doc.colonFreeRun s) as [a r] eqn:E.
    destruct (colonFreeRun_spec _ _ _ E) as (Hs & Hf & Hr).
    destruct a as [| c a]; [discriminate H |].
    destruct r as [| c' r]; [| discriminate H].
    inversion H; subst g.
    rewrite append_empty_r in Hs.
    split; [split; [discriminate | exact Hf] | exact Hs].
  - intros [[Hne Hf] Hs]. subst s.
    rewrite (colonFreeRun_end _ Hf).
    destruct g as [| c g]; [contradiction Hne; reflexivity | reflexivity].
Qed.

(** The text of a DID with the given parts. *)
Lemma parseDID_parts (did : string) (parts : Doc.DIDParts) :
  Doc.parseDID did = Some parts <->
  segment (Doc.method parts) /\ segment (Doc.network parts) /\ segment (Doc.identifier parts)
  /\ did = "did:" +:+ Doc.method parts +:+ ":" +:+ Doc.network parts
           +:+ ":" +:+ Doc.identifier parts.
Proof.
  unfold Doc.parseDID. split.
  - intros H. destruct (Doc.startsWith did "did:") eqn:Es; [| discriminate H].
    apply startsWith_split in Es. cbn [String.length] in Es.
    destruct (Doc.groupThenColon (Doc.substringFrom 4 did)) as [[m r1] |] eqn:E1;
      [| discriminate H].
    destruct (Doc.groupThenColon r1) as [[n r2] |] eqn:E2; [| discriminate H].
    destruct (Doc.groupThenEnd r2) as [i |] eqn:E3; [| discriminate H].
    inversion H; subst parts. cbn [Doc.method Doc.network Doc.identifier].
    apply groupThenColon_spec in E1. destruct E1 as [Hm E1].
    apply groupThenColon_spec in E2. destruct E2 as [Hn E2].
    apply groupThenEnd_spec in E3. destruct E3 as [Hi E3].
    repeat (split; [assumption |]).
    rewrite Es, E1, E2, E3. reflexivity.
  - intros (Hm & Hn & Hi & Hd). subst did.
    rewrite startsWith_append.
    rewrite (substringFrom_append "did:").
    rewrite (proj2 (groupThenColon_spec _ _ _) (conj Hm eq_refl)).
    rewrite (proj2 (groupThenColon_spec _ _ _) (conj Hn eq_refl)).
    rewrite (proj2 (groupThenEnd_spec _ _) (conj Hi eq_refl)).
    destruct parts; reflexivity.
Qed.

Lemma colonFree_append_colon (x y : string) : ~ colonFree (x +:+ String ":" y).
Proof.
  induction x as [| c x IH]; intros H.
  - apply H. left. reflexivity.
  - rewrite append_cons in H. apply colonFree_cons in H. exact (IH (proj2 H)).
Qed.

Lemma split_unique (a a' r r' : string) :
  colonFree a -> colonFree a' ->
  a +:+ String ":" r = a' +:+ String ":" r' -> a = a' /\ r = r'.
Proof.
  intros Ha Ha' E.
  pose proof (colonFreeRun_colon a Ha r) as H1.
  pose proof (colonFreeRun_colon a' Ha' r') as H2.
  rewrite E in H1. rewrite H1 in H2. inversion H2. split; reflexivity.
Qed.

Lemma append_assoc_colon (a r p : string) :
  (a +:+ String ":" r) +:+ p = a +:+ String ":" (r +:+ p).
Proof.
  induction a as [| c a IH]; [reflexivity |].
  rewrite !append_cons, IH. reflexivity.
Qed.

Lemma colonFree_cardano : colonFree "cardano".
Proof.
  unfold colonFree. simpl. intros H.
  repeat (destruct H as [H | H]; [discriminate H |]). exact H.
Qed.

(** A DID of method [cardano] on a given network. *)
Lemma cardano_did (network0 did : string) :
  (exists parts, Doc.parseDID did = Some parts /\ Doc.method parts = "cardano"
                 /\ Doc.network parts = network0)
  <-> segment network0 /\ exists i, segment i /\ did = Doc.generateDID i network0.
Proof.
  split.
  - intros (parts & Hp & Hm & Hn). apply parseDID_parts in Hp.
    destruct Hp as (_ & Sn & Si & Hd). rewrite Hm, Hn in *.
    split; [exact Sn |]. exists (Doc.identifier parts). split; [exact Si | exact Hd].
  - intros (Sn & i & Si & Hd).
    exists (Doc.mkDIDParts "cardano" network0 i).
    split; [| split; reflexivity].
    apply parseDID_parts. cbn [Doc.method Doc.network Doc.identifier].
    split; [split; [discriminate | exact colonFree_cardano] |].
    split; [exact Sn |]. split; [exact Si | exact Hd].
Qed.

(** X1: [parseDID] accepts exactly the texts [did:<m>:<n>:<i>] whose three
    segments are non-empty and free of colons, and returns those segments;
    every other text (a missing or empty segment, a fourth segment, another
    scheme) gives [null]. *)
Theorem parseDID_accepts_exactly_three_segments (did : string) (parts : Doc.DIDParts) :
  Doc.parseDID did = Some parts <->
  segment (Doc.method parts) /\ segment (Doc.network parts) /\ segment (Doc.identifier parts)
  /\ did = "did:" +:+ Doc.method parts +:+ ":" +:+ Doc.network parts
           +:+ ":" +:+ Doc.identifier parts.
Proof. exact (parseDID_parts did parts). Qed.

Lemma resolveTS_inr
    (build : string -> string -> IdentityDatum -> Z -> DIDDocument)
    (network0 did : string) (datum : option IdentityDatum) (t : Z) (doc : DIDDocument) :
  resolveTS build network0 did datum t = inr doc <->
  (segment network0 /\ exists i, segment i /\ did = Doc.generateDID i network0)
  /\ exists D, datum = Some D /\ doc = build network0 did D t.
Proof.
  rewrite <- cardano_did. unfold resolveTS. split.
  - intros H. destruct (Doc.parseDID did) as [parts |]; [| discriminate H].
    destruct (Doc.method parts =? "cardano")%string eqn:Em; [| discriminate H].
    destruct (Doc.network parts =? network0)%string eqn:En; [| discriminate H].
    destruct datum as [D |]; [| discriminate H].
    cbn [negb] in H. inversion H.
    apply String.eqb_eq in Em, En.
    split; [exists parts; split; [reflexivity | split; assumption] |].
    exists D. split; reflexivity.
  - intros [(parts & Hp & Hm & Hn) (D & HD & Hdoc)]. subst datum doc.
    rewrite Hp, Hm, Hn, String.eqb_refl. cbn [negb]. rewrite String.eqb_refl. reflexivity.
Qed.

(** X2: [resolve] returns a document exactly for a DID of the form
    [did:cardano:<network>:<identifier>] whose network is the resolver's
    own and whose identifier is non-empty and free of colons (and, in
    TypeScript, when the chain holds a datum); the document is then the one
    [buildDIDDocument] gives for that DID and datum.  The identifier is not
    compared with anything: every identifier resolves to the datum the
    resolver's contract holds.  A resolver whose configured network is
    empty or contains a colon resolves no DID at all. *)
Theorem resolve_succeeds_exactly_on_own_network
    (network0 did : string) (datum : option IdentityDatum) (D : IdentityDatum) (t : Z) :
  let wellFormed :=
    segment network0 /\ exists i, segment i /\ did = Doc.generateDID i network0 in
  (forall doc, CardanoDIDResolver.resolve network0 did datum t = inr doc <->
     wellFormed /\ exists D', datum = Some D'
                   /\ doc = CardanoDIDResolver.buildDIDDocument network0 did D' t)
  /\ (forall doc, MeshDIDResolver.resolve network0 did datum t = inr doc <->
        wellFormed /\ exists D', datum = Some D'
                      /\ doc = MeshDIDResolver.buildDIDDocument network0 did D' t)
  /\ (forall doc, DIDResolver.resolve network0 did D t = inr doc <->
        wellFormed /\ doc = DIDResolver.buildDIDDocument network0 did D t).
Proof.
  cbv zeta. split; [| split].
  - intros doc. apply resolveTS_inr.
  - intros doc. apply resolveTS_inr.
  - intros doc. rewrite <- cardano_did. unfold DIDResolver.resolve. split.
    + intros H. destruct (Doc.parseDID did) as [parts |]; [| discriminate H].
      destruct ("cardano" =? Doc.method parts)%string eqn:Em; [| discriminate H].
      destruct (network0 =? Doc.network parts)%string eqn:En; [| discriminate H].
      cbn [negb] in H. inversion H.
      apply String.eqb_eq in Em, En.
      split; [| reflexivity].
      exists parts. split; [reflexivity |]. split; symmetry; assumption.
    + intros [(parts & Hp & Hm & Hn) Hdoc]. subst doc.
      rewrite Hp, Hm, Hn, String.eqb_refl. cbn [negb]. rewrite String.eqb_refl. reflexivity.
Qed.

(** X3: the errors of [resolve] in the order the checks are made: a text
    that is not [did:<m>:<n>:<i>] is an invalid format; a well-formed DID of
    another method is an unsupported method, whatever its network; a
    [cardano] DID of another network is a network mismatch; and the
    TypeScript resolvers report a missing identity only for a DID they would
    otherwise resolve. *)
Theorem resolve_errors_in_order
    (build : string -> string -> IdentityDatum -> Z -> DIDDocument)
    (network0 did : string) (datum : option IdentityDatum) (t : Z) :
  (resolveTS build network0 did datum t = inl Doc.InvalidDIDFormat <->
     ~ exists m n i, segment m /\ segment n /\ segment i
                     /\ did = "did:" +:+ m +:+ ":" +:+ n +:+ ":" +:+ i)
  /\ (resolveTS build network0 did datum t = inl Doc.UnsupportedDIDMethod <->
        exists m n i, segment m /\ segment n /\ segment i /\ m <> "cardano"
                      /\ did = "did:" +:+ m +:+ ":" +:+ n +:+ ":" +:+ i)
  /\ (resolveTS build network0 did datum t = inl Doc.NetworkMismatch <->
        exists n i, segment n /\ segment i /\ n <> network0
                    /\ did = Doc.generateDID i n)
  /\ (resolveTS build network0 did datum t = inl Doc.IdentityNotFound <->
        datum = None
        /\ segment network0 /\ exists i, segment i /\ did = Doc.generateDID i network0).
Proof.
  unfold resolveTS.
  destruct (Doc.parseDID did) as [parts |] eqn:Hp.
  - pose proof (proj1 (parseDID_parts _ _) Hp) as (Sm & Sn & Si & Hd).
    assert (Huniq : forall m n i, segment m -> segment n -> segment i ->
              did = "did:" +:+ m +:+ ":" +:+ n +:+ ":" +:+ i ->
              m = Doc.method parts /\ n = Doc.network parts /\ i = Doc.identifier parts).
    { intros m n i Hm Hn Hi E.
      assert (Hq : Doc.parseDID did = Some (Doc.mkDIDParts m n i)).
      { apply parseDID_parts. cbn [Doc.method Doc.network Doc.identifier].
        repeat (split; [assumption |]). exact E. }
      rewrite Hp in Hq. inversion Hq. cbn. repeat split; reflexivity. }
    destruct (Doc.method parts =? "cardano")%string eqn:Em; cbn [negb].
    + apply String.eqb_eq in Em.
      destruct (Doc.network parts =? network0)%string eqn:En; cbn [negb].
      * apply String.eqb_eq in En.
        split; [| split; [| split]].
        -- split; [destruct datum; discriminate |].
           intros H. exfalso. apply H. eauto 10.
        -- split; [destruct datum; discriminate |].
           intros (m & n & i & Hm & Hn & Hi & Hne & E).
           destruct (Huniq _ _ _ Hm Hn Hi E) as (-> & _). contradiction.
        -- split; [destruct datum; discriminate |].
           intros (n & i & Hn & Hi & Hne & E).
           destruct (Huniq "cardano"%string n i) as (_ & -> & _);
             [split; [discriminate | exact colonFree_cardano] | assumption.. |].
           contradiction.
        -- split.
           ++ intros H. destruct datum; [discriminate H |].
              split; [reflexivity |]. rewrite <- En. split; [exact Sn |].
              exists (Doc.identifier parts). split; [exact Si |].
              rewrite Hd, Em. reflexivity.
           ++ intros (-> & _). reflexivity.
      * apply String.eqb_neq in En.
        split; [| split; [| split]].
        -- split; [discriminate |]. intros H. exfalso. apply H. eauto 10.
        -- split; [discriminate |].
           intros (m & n & i & Hm & Hn & Hi & Hne & E).
           destruct (Huniq _ _ _ Hm Hn Hi E) as (-> & _). contradiction.
        -- split; [| reflexivity]. intros _.
           exists (Doc.network parts), (Doc.identifier parts).
           repeat (split; [assumption |]). rewrite Hd, Em. reflexivity.
        -- split; [discriminate |].
           intros (_ & Sn0 & i & Hi & E).
           destruct (Huniq "cardano"%string network0 i) as (_ & Hn' & _);
             [split; [discriminate | exact colonFree_cardano] | assumption.. |].
           symmetry in Hn'. contradiction.
    + apply String.eqb_neq in Em.
      split; [| split; [| split]].
      * split; [discriminate |]. intros H. exfalso. apply H. eauto 10.
      * split; [| reflexivity]. intros _.
        exists (Doc.method parts), (Doc.network parts), (Doc.identifier parts).
        repeat (split; [assumption |]). exact Hd.
      * split; [discriminate |].
        intros (n & i & Hn & Hi & Hne & E).
        destruct (Huniq "cardano"%string n i) as (Hm' & _);
          [split; [discriminate | exact colonFree_cardano] | assumption.. |].
        symmetry in Hm'. contradiction.
      * split; [discriminate |].
        intros (_ & Sn0 & i & Hi & E).
        destruct (Huniq "cardano"%string network0 i) as (Hm' & _);
          [split; [discriminate | exact colonFree_cardano] | assumption.. |].
        symmetry in Hm'. contradiction.
  - assert (Hnone : ~ exists m n i, segment m /\ segment n /\ segment i
                       /\ did = "did:" +:+ m +:+ ":" +:+ n +:+ ":" +:+ i).
    { intros (m & n & i & Hm & Hn & Hi & E).
      assert (Hq : Doc.parseDID did = Some (Doc.mkDIDParts m n i)).
      { apply parseDID_parts. cbn [Doc.method Doc.network Doc.identifier].
        repeat (split; [assumption |]). exact E. }
      rewrite Hp in Hq. discriminate Hq. }
    split; [| split; [| split]].
    + split; [intros _; exact Hnone | reflexivity].
    + split; [discriminate |].
      intros (m & n & i & Hm & Hn & Hi & _ & E). exfalso. apply Hnone. eauto 10.
    + split; [discriminate |].
      intros (n & i & Hn & Hi & _ & E). exfalso. apply Hnone.
      exists "cardano"%string, n, i.
      split; [split; [discriminate | exact colonFree_cardano] |]. auto.
    + split; [discriminate |].
      intros (_ & Sn0 & i & Hi & E). exfalso. apply Hnone.
      exists "cardano"%string, network0, i.
      split; [split; [discriminate | exact colonFree_cardano] |]. auto.
Qed.

(** X4: [generateDID] followed by [parseDID] gives back the network and the
    policy id under the method [cardano], exactly when both are non-empty
    and free of colons; for any other network or policy id the generated
    text is not a DID the resolver can parse. *)
Theorem generateDID_parseDID_round_trip (policyId network0 : string) (parts : Doc.DIDParts) :
  Doc.parseDID (Doc.generateDID policyId network0) = Some parts <->
  segment network0 /\ segment policyId /\ parts = Doc.mkDIDParts "cardano" network0 policyId.
Proof.
  split.
  - intros H. apply parseDID_parts in H. destruct H as (Sm & Sn & Si & Hd).
    destruct parts as [m n i]. cbn [Doc.method Doc.network Doc.identifier] in *.
    unfold Doc.generateDID in Hd.
    change ("did:cardano:" +:+ network0 +:+ ":" +:+ policyId)
      with ("did:" +:+ ("cardano" +:+ String ":" (network0 +:+ String ":" policyId))) in Hd.
    apply append_cancel_l in Hd.
    change (m +:+ ":" +:+ n +:+ ":" +:+ i) with (m +:+ String ":" (n +:+ String ":" i)) in Hd.
    apply split_unique in Hd; [| exact colonFree_cardano | exact (proj2 Sm)].
    destruct Hd as [<- Hd].
    destruct (Doc.colonFreeRun network0) as [a r] eqn:Er.
    destruct (colonFreeRun_spec _ _ _ Er) as (Hs & Hf & [Hr | [r' Hr]]); subst r.
    + rewrite append_empty_r in Hs. subst a.
      apply split_unique in Hd; [| exact Hf | exact (proj2 Sn)].
      destruct Hd as [<- <-]. repeat split; try assumption; apply Sn || apply Si.
    + exfalso. rewrite Hs, append_assoc_colon in Hd.
      apply split_unique in Hd; [| exact Hf | exact (proj2 Sn)].
      destruct Hd as [_ Hd]. apply (colonFree_append_colon r' policyId).
      rewrite Hd. exact (proj2 Si).
  - intros (Sn & Sp & ->). apply parseDID_parts.
    cbn [Doc.method Doc.network Doc.identifier].
    split; [split; [discriminate | exact colonFree_cardano] |].
    split; [exact Sn |]. split; [exact Sp | reflexivity].
Qed.
(* ===================================================================== *)
(** ** Invariants of the projected document *)
(* ===================================================================== *)

Lemma map_fst_combine_seq {A : Type} (l : list A) :
  forall s, List.map fst (combine (seq s (length l)) l) = seq s (length l).
Proof.
  induction l as [| x l IH]; intros s; [reflexivity |].
  simpl. rewrite IH. reflexivity.
Qed.

Lemma NoDup_map_injective {A B : Type} (f : A -> B) (l : list A) :
  (forall x y, f x = f y -> x = y) -> List.NoDup l -> List.NoDup (List.map f l).
Proof.
  intros Hinj Hnd. induction Hnd as [| x l Hx Hnd IH]; simpl; constructor.
  - intros Hin. apply List.in_map_iff in Hin. destruct Hin as (y & E & Hy).
    apply Hinj in E. subst y. exact (Hx Hy).
  - exact IH.
Qed.

Lemma NoDup_positions {A : Type} (f : nat -> string) (l : list A) :
  (forall i j, f i = f j -> i = j) ->
  List.NoDup (List.map (fun p : nat * A => f (fst p)) (indexed l)).
Proof.
  intros Hinj. rewrite <- (List.map_map fst f). unfold indexed.
  rewrite map_fst_combine_seq. apply NoDup_map_injective; [exact Hinj |].
  apply List.seq_NoDup.
Qed.

Lemma In_idsOfType_inv (did type id : string) (valid : list Delegate) :
  In id (idsOfType did type valid) <->
  exists i d, nth_error valid i = Some d /\ delegateType d = type
              /\ id = Doc.delegateVMId did i.
Proof.
  unfold idsOfType. rewrite List.in_map_iff. split.
  - intros ([i d] & E & Hin). apply List.filter_In in Hin. destruct Hin as [Hin Ht].
    apply In_indexed in Hin. apply String.eqb_eq in Ht.
    exists i, d. cbn [fst snd] in *. auto.
  - intros (i & d & Hn & Ht & E). exists (i, d). cbn [fst snd].
    split; [symmetry; exact E |].
    apply List.filter_In. split; [apply In_indexed; exact Hn |].
    cbn [snd]. apply String.eqb_eq. exact Ht.
Qed.

Lemma In_delegateEntries (network0 did : string) (valid : list Delegate)
    (vm : VerificationMethod) :
  In vm (delegateEntries network0 did valid) <->
  exists i d, nth_error valid i = Some d /\ vm = Doc.delegateVM network0 did i d.
Proof.
  unfold delegateEntries. rewrite List.in_map_iff. split.
  - intros ([i d] & E & Hin). apply In_indexed in Hin. exists i, d. auto.
  - intros (i & d & Hn & E). exists (i, d). split; [symmetry; exact E |].
    apply In_indexed. exact Hn.
Qed.

(** X5: in the document of every implementation the identifiers are
    pairwise distinct: no two verification methods share an id, no two
    service endpoints share an id, and no relationship
    ([authentication], [assertionMethod], [keyAgreement]) lists an id
    twice. *)
Theorem document_ids_are_distinct
    (impl : Impl) (network0 did : string) (datum : IdentityDatum) (now : Z) :
  let view := project impl network0 did datum now in
  List.NoDup (List.map vmId (viewVerificationMethod view))
  /\ List.NoDup (List.map serviceId (viewService view))
  /\ List.NoDup (viewAuthentication view)
  /\ List.NoDup (viewAssertionMethod view)
  /\ List.NoDup (viewKeyAgreement view).
Proof.
  cbv zeta.
  destruct (project_view impl network0 did datum now) as (Hvm & Hau & Has & Hka & Hsv & _).
  rewrite Hvm, Hau, Has, Hka, Hsv.
  set (vd := List.filter _ (delegates datum)). set (va := List.filter _ (attributes datum)).
  assert (Hids : forall type, List.NoDup (Doc.ownerVMId did :: idsOfType did type vd)).
  { intros type. constructor.
    - intros Hin. apply In_idsOfType_inv in Hin. destruct Hin as (i & d & _ & _ & E).
      symmetry in E. exact (delegateVMId_not_owner did i E).
    - unfold idsOfType. apply NoDup_map_filter.
      apply (NoDup_positions (Doc.delegateVMId did)). apply delegateVMId_inj. }
  split; [| split; [| split; [| split]]].
  - cbn [List.map]. constructor.
    + unfold delegateEntries. rewrite List.map_map. cbn [vmId Doc.delegateVM].
      intros Hin. apply List.in_map_iff in Hin. destruct Hin as ([i d] & E & _).
      exact (delegateVMId_not_owner did i E).
    + unfold delegateEntries. rewrite List.map_map. cbn [vmId Doc.delegateVM].
      apply (NoDup_positions (Doc.delegateVMId did)). apply delegateVMId_inj.
  - unfold serviceEntries. rewrite List.map_map. cbn [serviceId serviceOf].
    apply NoDup_map_filter.
    apply (NoDup_positions (Doc.serviceIdOf did)). apply serviceIdOf_inj.
  - apply Hids.
  - apply Hids.
  - pose proof (Hids "enc"%string) as H. inversion H. assumption.
Qed.

(** X6: every id a relationship lists is the id of a verification method
    of the same document.  The relationships are exclusive for delegates:
    the owner's method is the only one listed both under [authentication]
    and under [assertionMethod], and a method listed under [keyAgreement]
    is listed under neither (the owner never is a key-agreement key). *)
Theorem document_relationships_refer_to_its_methods
    (impl : Impl) (network0 did : string) (datum : IdentityDatum) (now : Z) (ref : string) :
  let view := project impl network0 did datum now in
  (In ref (viewAuthentication view) \/ In ref (viewAssertionMethod view)
   \/ In ref (viewKeyAgreement view) ->
   exists vm, In vm (viewVerificationMethod view) /\ vmId vm = ref)
  /\ (In ref (viewAuthentication view) -> In ref (viewAssertionMethod view) ->
      ref = Doc.ownerVMId did)
  /\ (In ref (viewKeyAgreement view) ->
      ~ In ref (viewAuthentication view) /\ ~ In ref (viewAssertionMethod view)
      /\ ref <> Doc.ownerVMId did).
Proof.
  cbv zeta.
  destruct (project_view impl network0 did datum now) as (Hvm & Hau & Has & Hka & _ & _).
  rewrite Hvm, Hau, Has, Hka.
  set (vd := List.filter _ (delegates datum)).
  assert (Hdel : forall type, In ref (idsOfType did type vd) ->
            exists vm, In vm (Doc.ownerVM network0 did (owner datum)
                                :: delegateEntries network0 did vd) /\ vmId vm = ref).
  { intros type Hin. apply In_idsOfType_inv in Hin. destruct Hin as (i & d & Hn & _ & E).
    exists (Doc.delegateVM network0 did i d). split; [| symmetry; exact E].
    right. apply In_delegateEntries. eauto. }
  assert (Hown : exists vm, In vm (Doc.ownerVM network0 did (owner datum)
                                     :: delegateEntries network0 did vd)
                            /\ vmId vm = Doc.ownerVMId did).
  { exists (Doc.ownerVM network0 did (owner datum)). split; [left |]; reflexivity. }
  assert (Hexcl : forall t1 t2, t1 <> t2 -> In ref (idsOfType did t1 vd) ->
            ~ In ref (idsOfType did t2 vd)).
  { intros t1 t2 Hne H1 H2. apply In_idsOfType_inv in H1, H2.
    destruct H1 as (i & d & Hn & Ht & E). destruct H2 as (j & d' & Hn' & Ht' & E').
    rewrite E in E'. apply delegateVMId_inj in E'. subst j.
    rewrite Hn in Hn'. inversion Hn'. subst d'. congruence. }
  assert (Hno : forall type, In ref (idsOfType did type vd) -> ref <> Doc.ownerVMId did).
  { intros type Hin. apply In_idsOfType_inv in Hin. destruct Hin as (i & d & _ & _ & E).
    rewrite E. apply delegateVMId_not_owner. }
  split; [| split].
  - intros [[E | H] | [[E | H] | H]]; subst; eauto.
  - intros [E | H1] [E' | H2]; try (symmetry; assumption).
    exfalso. revert H2. apply (Hexcl "veriKey"%string "sigAuth"%string); [discriminate | exact H1].
  - intros H. split; [| split].
    + intros [E | H']; [exact (Hno _ H (eq_sym E)) |].
      revert H'. apply (Hexcl "enc"%string "veriKey"%string); [discriminate | exact H].
    + intros [E | H']; [exact (Hno _ H (eq_sym E)) |].
      revert H'. apply (Hexcl "enc"%string "sigAuth"%string); [discriminate | exact H].
    + exact (Hno _ H).
Qed.

(** ** Custom attributes and the optional entries *)

Lemma project_custom (impl : Impl) (network0 did : string) (datum : IdentityDatum) (now : Z) :
  viewCustomAttributes (project impl network0 did datum now)
  = Doc.forEach (Doc.customBody (customSet impl)) (validAttributes impl datum now) ∅.
Proof.
  destruct impl;
    unfold project, CardanoDIDResolver.buildDIDDocument, MeshDIDResolver.buildDIDDocument,
      buildDIDDocumentTS, DIDResolver.buildDIDDocument, viewTS, viewJava, validAttributes,
      customSet;
    cbv zeta;
    cbn [cardanoIdentity DIDResolver.additionalProperties viewCustomAttributes
         isAttributeValid];
    rewrite ?customOf_size_guard, ?customOf_isEmpty_guard; reflexivity.
Qed.

Lemma find_app {A : Type} (f : A -> bool) (l1 l2 : list A) :
  List.find f (l1 ++ l2) = match List.find f l1 with
                           | Some x => Some x
                           | None => List.find f l2
                           end.
Proof.
  induction l1 as [| x l1 IH]; [reflexivity |].
  simpl. destruct (f x); [reflexivity | exact IH].
Qed.

(** The entry the custom-attribute loop leaves under a key it can write. *)
Lemma forEachFrom_customBody_lookup
    (set : gmap string string -> string -> string -> gmap string string) (k : string) :
  (forall m v, set m k v !! k = Some v) ->
  (forall m k' v, k' <> k -> set m k' v !! k = m !! k) ->
  Doc.startsWith k "did/" = false ->
  forall (l : list Attribute) (i : nat) (m : gmap string string),
    Doc.forEachFrom (Doc.customBody set) i l m !! k =
    match List.find (fun a => (attrName a =? k)%string) (rev l) with
    | Some a => Some (attrValue a)
    | None => m !! k
    end.
Proof.
  intros Hsame Hother Hk. induction l as [| a l IH]; intros i m; [reflexivity |].
  cbn [Doc.forEachFrom rev]. rewrite IH, find_app.
  destruct (List.find (fun a0 => (attrName a0 =? k)%string) (rev l)); [reflexivity |].
  cbn [List.find]. unfold Doc.customBody.
  destruct (attrName a =? k)%string eqn:Ea.
  - apply String.eqb_eq in Ea. rewrite Ea, Hk. cbn [negb]. apply Hsame.
  - apply String.eqb_neq in Ea.
    destruct (negb (Doc.startsWith (attrName a) "did/")); [| reflexivity].
    apply Hother. exact Ea.
Qed.

Lemma customSet_same (impl : Impl) (k : string) :
  impl = JavaImpl \/ k <> "__proto__"%string ->
  forall m v, customSet impl m k v !! k = Some v.
Proof.
  intros H m v.
  assert (Hput : Doc.mapPut m k v !! k = Some v) by apply lookup_insert_eq.
  destruct impl; cbn [customSet]; try exact Hput;
    (destruct H as [H | H]; [discriminate H |]);
    unfold Doc.objSet; apply String.eqb_neq in H; rewrite H; exact Hput.
Qed.

Lemma customSet_other (impl : Impl) (m : gmap string string) (k' v k : string) :
  k' <> k -> customSet impl m k' v !! k = m !! k.
Proof. destruct impl; cbn [customSet]; [apply objSet_other.. | apply mapPut_other]. Qed.

(** X7: the custom attributes of a document, key by key: under a name
    outside the reserved [did/] space the document holds the value of the
    last non-expired attribute stored with that name, and no entry if
    there is none (in TypeScript for every name but [__proto__]). *)
Theorem custom_attribute_is_last_valid_value
    (impl : Impl) (network0 did : string) (datum : IdentityDatum) (now : Z) (k : string) :
  Doc.startsWith k "did/" = false ->
  impl = JavaImpl \/ k <> "__proto__"%string ->
  viewCustomAttributes (project impl network0 did datum now) !! k
  = option_map attrValue
      (List.find (fun a => (attrName a =? k)%string) (rev (validAttributes impl datum now))).
Proof.
  intros Hk Himpl. rewrite project_custom. unfold Doc.forEach.
  rewrite (forEachFrom_customBody_lookup (customSet impl) k);
    [| apply customSet_same; exact Himpl | intros; apply customSet_other; assumption | exact Hk].
  destruct (List.find _ _); [reflexivity | apply lookup_empty].
Qed.

Lemma custom_attribute_is_last_valid_value_witness :
  let datum := mkIdentityDatum "id" "O" []
                 [mkAttribute "email" "old@x" 5; mkAttribute "email" "a@b" 0;
                  mkAttribute "email" "new@x" 2000; mkAttribute "email" "late@x" 900] 3 in
  Doc.startsWith "email" "did/" = false
  /\ (MeshImpl = JavaImpl \/ "email"%string <> "__proto__"%string)
  /\ viewCustomAttributes (project MeshImpl "preprod" "did:x" datum 1000) !! "email"%string
     = Some "new@x"%string.
Proof.
  cbv zeta. split; [reflexivity |]. split; [right; discriminate |].
  refine (custom_attribute_is_last_valid_value MeshImpl "preprod" "did:x" _ 1000 "email"
            eq_refl (or_intror _)).
  discriminate.
Defined.

Lemma forEachFrom_customBody_proto (l : list Attribute) :
  forall (i : nat) (m : gmap string string),
    Doc.forEachFrom (Doc.customBody Doc.objSet) i l m !! "__proto__"%string
    = m !! "__proto__"%string.
Proof.
  induction l as [| a l IH]; intros i m; [reflexivity |].
  cbn [Doc.forEachFrom]. rewrite IH. unfold Doc.customBody.
  destruct (negb (Doc.startsWith (attrName a) "did/")); [| reflexivity].
  unfold Doc.objSet. destruct (attrName a =? "__proto__")%string eqn:E; [reflexivity |].
  apply lookup_insert_ne. apply String.eqb_neq. exact E.
Qed.

Lemma forEachFrom_customBody_same_set (l : list Attribute) :
  (forall a, In a l -> attrName a <> "__proto__"%string) ->
  forall (i : nat) (m : gmap string string),
    Doc.forEachFrom (Doc.customBody Doc.mapPut) i l m
    = Doc.forEachFrom (Doc.customBody Doc.objSet) i l m.
Proof.
  induction l as [| a l IH]; intros Hno i m; [reflexivity |].
  cbn [Doc.forEachFrom]. rewrite IH by (intros; apply Hno; right; assumption).
  f_equal. unfold Doc.customBody, Doc.objSet, Doc.mapPut.
  destruct (negb (Doc.startsWith (attrName a) "did/")); [| reflexivity].
  assert (E : (attrName a =? "__proto__")%string = false)
    by (apply String.eqb_neq, Hno; left; reflexivity).
  rewrite E. reflexivity.
Qed.

Lemma project_parts (impl : Impl) (network0 did : string) (datum : IdentityDatum) (now : Z) :
  project impl network0 did datum now
  = mkDocView
      (Doc.ownerVM network0 did (owner datum)
         :: delegateEntries network0 did (validDelegates impl datum now))
      (Doc.ownerVMId did :: idsOfType did "veriKey" (validDelegates impl datum now))
      (Doc.ownerVMId did :: idsOfType did "sigAuth" (validDelegates impl datum now))
      (idsOfType did "enc" (validDelegates impl datum now))
      (serviceEntries did (validAttributes impl datum now))
      (Doc.forEach (Doc.customBody (customSet impl)) (validAttributes impl datum now) ∅).
Proof.
  destruct (project_view impl network0 did datum now) as (Hvm & Hau & Has & Hka & Hsv & _).
  pose proof (project_custom impl network0 did datum now) as Hcu.
  destruct (project impl network0 did datum now) as [vm au am ka sv cu].
  simpl in Hvm, Hau, Has, Hka, Hsv, Hcu.
  rewrite Hvm, Hau, Has, Hka, Hsv, Hcu. reflexivity.
Qed.

Lemma valid_same (impl : Impl) (datum : IdentityDatum) (now : Z) :
  validDelegates impl datum now = validDelegates MeshImpl datum now
  /\ validAttributes impl datum now = validAttributes MeshImpl datum now.
Proof. destruct impl; split; reflexivity. Qed.

(** X8: the three implementations project the same verification methods,
    relationships, services and custom attributes from the same datum at
    the same time, except for one attribute name.  The two TypeScript
    resolvers always agree and never hold a custom attribute named
    [__proto__]; the Java resolver agrees with them exactly when no
    non-expired attribute is named [__proto__], and otherwise publishes
    that attribute, which they drop.  The two TypeScript documents are
    equal as a whole while the nonce is at most 2^53 in magnitude. *)
Theorem projections_agree_except_on_proto
    (network0 did : string) (datum : IdentityDatum) (now : Z) :
  project LucidImpl network0 did datum now = project MeshImpl network0 did datum now
  /\ viewCustomAttributes (project MeshImpl network0 did datum now) !! "__proto__"%string = None
  /\ (project JavaImpl network0 did datum now = project MeshImpl network0 did datum now
      <-> forall a, In a (validAttributes JavaImpl datum now) ->
                    attrName a <> "__proto__"%string)
  /\ (- Num.MAX_EXACT <= nonce datum <= Num.MAX_EXACT ->
      CardanoDIDResolver.buildDIDDocument network0 did datum now
      = MeshDIDResolver.buildDIDDocument network0 did datum now).
Proof.
  split; [| split; [| split]]; cycle 3.
  - intros Hn. unfold CardanoDIDResolver.buildDIDDocument, MeshDIDResolver.buildDIDDocument,
      buildDIDDocumentTS.
    rewrite round_double_exact by exact Hn. reflexivity.
  - rewrite !project_parts. reflexivity.
  - rewrite project_custom. unfold Doc.forEach, customSet.
    rewrite forEachFrom_customBody_proto. apply lookup_empty.
  - split.
    + intros Heq a Hin Hname.
      pose proof (f_equal (fun v => viewCustomAttributes v !! "__proto__"%string) Heq) as E.
      cbv beta in E. rewrite !project_custom in E. unfold Doc.forEach in E.
      rewrite (forEachFrom_customBody_proto (validAttributes MeshImpl datum now)) in E.
      rewrite (forEachFrom_customBody_lookup (customSet JavaImpl) "__proto__") in E;
        [| intros; apply lookup_insert_eq | intros; apply mapPut_other; assumption
         | reflexivity].
      destruct (List.find _ _) as [x |] eqn:Ef; [rewrite lookup_empty in E; discriminate E |].
      pose proof (List.find_none _ _ Ef a (proj1 (List.in_rev _ _) Hin)) as Hf.
      cbv beta in Hf. rewrite Hname in Hf. discriminate Hf.
    + intros Hno. rewrite !project_parts.
      destruct (valid_same JavaImpl datum now) as [-> ->].
      f_equal. unfold Doc.forEach, customSet.
      apply forEachFrom_customBody_same_set. exact Hno.
Qed.

Lemma nil_iff_no_member {A : Type} (l : list A) : l = [] <-> forall x, ~ In x l.
Proof.
  split; [intros -> x [] |].
  destruct l as [| x l]; [reflexivity |]. intros H. exfalso. apply (H x). left. reflexivity.
Qed.

Lemma guard_none_iff_nil {A : Type} (l : list A) :
  (if (0 <? length l)%nat then Some l else None) = None <-> l = [].
Proof. destruct l; simpl; split; intros H; (reflexivity || discriminate H). Qed.

Lemma idsOfType_nil (did type : string) (valid : list Delegate) :
  idsOfType did type valid = [] <-> forall d, In d valid -> delegateType d <> type.
Proof.
  rewrite nil_iff_no_member. split.
  - intros H d Hin Ht. apply List.In_nth_error in Hin. destruct Hin as [i Hn].
    apply (H (Doc.delegateVMId did i)). apply In_idsOfType_inv. eauto.
  - intros H id Hin. apply In_idsOfType_inv in Hin. destruct Hin as (i & d & Hn & Ht & _).
    apply List.nth_error_In in Hn. exact (H d Hn Ht).
Qed.

Lemma serviceEntries_nil (did : string) (valid : list Attribute) :
  serviceEntries did valid = [] <->
  forall a, In a valid -> Doc.startsWith (attrName a) "did/svc/" = false.
Proof.
  rewrite nil_iff_no_member. split.
  - intros H a Hin. destruct (Doc.startsWith (attrName a) "did/svc/") eqn:E; [| reflexivity].
    exfalso. apply List.In_nth_error in Hin. destruct Hin as [i Hn].
    apply startsWith_split in E.
    apply (H (mkServiceEndpoint (Doc.serviceIdOf did i)
                (Doc.substringFrom (String.length "did/svc/") (attrName a)) (attrValue a))).
    apply In_serviceEntries. exists i, a, (Doc.substringFrom (String.length "did/svc/") (attrName a)).
    auto.
  - intros H s Hin. apply In_serviceEntries in Hin. destruct Hin as (i & a & rest & Hn & Hname & _).
    apply List.nth_error_In in Hn. specialize (H a Hn).
    rewrite Hname, startsWith_append in H. discriminate H.
Qed.

Lemma forEachFrom_customBody_none (l : list Attribute) :
  (forall a, In a l ->
     Doc.startsWith (attrName a) "did/" = true \/ attrName a = "__proto__"%string) ->
  forall (i : nat) (m : gmap string string),
    Doc.forEachFrom (Doc.customBody Doc.objSet) i l m = m.
Proof.
  induction l as [| a l IH]; intros H i m; [reflexivity |].
  cbn [Doc.forEachFrom]. rewrite IH by (intros; apply H; right; assumption).
  unfold Doc.customBody, Doc.objSet.
  destruct (H a (or_introl eq_refl)) as [E | E]; rewrite E; reflexivity.
Qed.

Lemma custom_objects_empty_iff (l : list Attribute) :
  size (Doc.forEachFrom (Doc.customBody Doc.objSet) 0 l ∅) = 0%nat <->
  forall a, In a l ->
    Doc.startsWith (attrName a) "did/" = true \/ attrName a = "__proto__"%string.
Proof.
  split.
  - intros Hsize a Hin.
    destruct (Doc.startsWith (attrName a) "did/") eqn:Ed; [left; reflexivity | right].
    destruct (String.eqb_spec (attrName a) "__proto__") as [E | Hne]; [exact E | exfalso].
    apply map_size_empty_inv in Hsize.
    pose proof (forEachFrom_customBody_lookup Doc.objSet (attrName a)) as Hl.
    specialize (Hl (fun m v => customSet_same MeshImpl _ (or_intror Hne) m v)
                   (fun m k' v Hk => objSet_other m k' v _ Hk) Ed l 0%nat ∅).
    rewrite Hsize, lookup_empty in Hl.
    destruct (List.find _ _) eqn:Ef; [discriminate Hl |].
    pose proof (List.find_none _ _ Ef a (proj1 (List.in_rev _ _) Hin)) as Hf.
    cbv beta in Hf. rewrite String.eqb_refl in Hf. discriminate Hf.
  - intros H. rewrite forEachFrom_customBody_none by exact H. apply map_size_empty.
Qed.

(** X9: the optional entries of a TypeScript document.  [keyAgreement] is
    left out exactly when no non-expired delegate has type [enc], [service]
    exactly when no non-expired attribute is named [did/svc/...], and
    [cardanoIdentity] exactly when every non-expired attribute is reserved
    ([did/...]) or named [__proto__]; when [cardanoIdentity] is present it
    carries the resolver's network and the datum's nonce. *)
Theorem optional_entries_present_iff_content
    (isDelegateValid0 : Delegate -> Z -> bool) (isAttributeValid0 : Attribute -> Z -> bool)
    (nonceToNumber : Z -> Z) (network0 did : string) (datum : IdentityDatum) (now : Z) :
  let doc := buildDIDDocumentTS isDelegateValid0 isAttributeValid0 nonceToNumber
                                network0 did datum now in
  let vd := List.filter (fun d => isDelegateValid0 d now) (delegates datum) in
  let va := List.filter (fun a => isAttributeValid0 a now) (attributes datum) in
  (keyAgreement doc = None <-> forall d, In d vd -> delegateType d <> "enc"%string)
  /\ (service doc = None <->
      forall a, In a va -> Doc.startsWith (attrName a) "did/svc/" = false)
  /\ (cardanoIdentity doc = None <->
      forall a, In a va ->
        Doc.startsWith (attrName a) "did/" = true \/ attrName a = "__proto__"%string)
  /\ (forall ci, cardanoIdentity doc = Some ci ->
        ciNetwork ci = network0 /\ ciNonce ci = nonceToNumber (nonce datum)
        /\ ciAttributes ci <> ∅).
Proof.
  cbv zeta. unfold buildDIDDocumentTS, Doc.forEach. cbv zeta.
  cbn [keyAgreement service cardanoIdentity].
  rewrite forEachFrom_delegateBody, forEachFrom_serviceBody. cbv zeta.
  cbn [keyAgreementIds List.app].
  set (vd := List.filter _ (delegates datum)). set (va := List.filter _ (attributes datum)).
  split; [| split; [| split]].
  - rewrite guard_none_iff_nil. apply (idsOfType_nil did "enc" vd).
  - rewrite guard_none_iff_nil. apply (serviceEntries_nil did va).
  - rewrite <- custom_objects_empty_iff.
    destruct (Nat.ltb_spec 0 (size (Doc.forEachFrom (Doc.customBody Doc.objSet) 0 va ∅)));
      split; intros H'; try reflexivity; try discriminate H'; lia.
  - intros ci H.
    destruct (Nat.ltb_spec 0 (size (Doc.forEachFrom (Doc.customBody Doc.objSet) 0 va ∅)))
      as [Hpos | _]; [| discriminate H].
    inversion H. cbn [ciNetwork ciNonce ciAttributes]. repeat split.
    intros E. rewrite E, map_size_empty in Hpos. lia.
Qed.

Lemma filter_split {A : Type} (f : A -> bool) (l1 l2 : list A) (x : A) :
  f x = true ->
  nth_error (List.filter f (l1 ++ x :: l2)) (length (List.filter f l1)) = Some x.
Proof.
  intros Hx. rewrite List.filter_app. cbn [List.filter]. rewrite Hx.
  rewrite List.nth_error_app2 by lia. rewrite Nat.sub_diag. reflexivity.
Qed.

(** X10: the id of a delegate's verification method is positional among
    the non-expired delegates: a non-expired delegate is published as
    [#delegate-k], where [k] counts the non-expired delegates stored before
    it, so the number moves down as earlier delegates expire.  The document
    holds the owner's method and one method per non-expired delegate. *)
Theorem delegate_id_counts_valid_predecessors
    (impl : Impl) (network0 did : string) (datum : IdentityDatum) (now : Z)
    (before after : list Delegate) (d : Delegate) :
  delegates datum = before ++ d :: after ->
  isDelegateValid impl d now = true ->
  let view := project impl network0 did datum now in
  let k := length (List.filter (fun x => isDelegateValid impl x now) before) in
  In (mkVerificationMethod (did +:+ "#delegate-" +:+ Doc.showIndex k)
        "Ed25519VerificationKey2020" did
        ("cardano:" +:+ network0 +:+ ":" +:+ delegateAddress d))
     (viewVerificationMethod view)
  /\ length (viewVerificationMethod view)
     = S (length (validDelegates impl datum now)).
Proof.
  intros Hd Hv. cbv zeta. rewrite project_parts. cbn [viewVerificationMethod]. split.
  - right. apply In_delegateEntries.
    exists (length (List.filter (fun x => isDelegateValid impl x now) before)), d.
    split; [| reflexivity].
    unfold validDelegates. rewrite Hd. apply filter_split. exact Hv.
  - cbn [length]. f_equal. unfold delegateEntries, indexed.
    rewrite List.length_map, List.length_combine, List.length_seq. lia.
Qed.

Lemma delegate_id_counts_valid_predecessors_witness :
  let datum := mkIdentityDatum "id" "O"
                 [mkDelegate "A" "veriKey" 500; mkDelegate "B" "sigAuth" 0] [] 2 in
  delegates datum = [mkDelegate "A" "veriKey" 500] ++ mkDelegate "B" "sigAuth" 0 :: []
  /\ isDelegateValid JavaImpl (mkDelegate "B" "sigAuth" 0) 400 = true
  /\ isDelegateValid JavaImpl (mkDelegate "B" "sigAuth" 0) 600 = true
  /\ In (mkVerificationMethod "did:x#delegate-1" "Ed25519VerificationKey2020" "did:x"
           "cardano:preprod:B")
        (viewVerificationMethod (project JavaImpl "preprod" "did:x" datum 400))
  /\ In (mkVerificationMethod "did:x#delegate-0" "Ed25519VerificationKey2020" "did:x"
           "cardano:preprod:B")
        (viewVerificationMethod (project JavaImpl "preprod" "did:x" datum 600)).
Proof.
  cbv zeta. split; [reflexivity |]. split; [reflexivity |]. split; [reflexivity |]. split.
  - exact (proj1 (delegate_id_counts_valid_predecessors JavaImpl "preprod" "did:x"
                    (mkIdentityDatum "id" "O"
                       [mkDelegate "A" "veriKey" 500; mkDelegate "B" "sigAuth" 0] [] 2)
                    400 [mkDelegate "A" "veriKey" 500] [] (mkDelegate "B" "sigAuth" 0)
                    eq_refl eq_refl)).
  - exact (proj1 (delegate_id_counts_valid_predecessors JavaImpl "preprod" "did:x"
                    (mkIdentityDatum "id" "O"
                       [mkDelegate "A" "veriKey" 500; mkDelegate "B" "sigAuth" 0] [] 2)
                    600 [mkDelegate "A" "veriKey" 500] [] (mkDelegate "B" "sigAuth" 0)
                    eq_refl eq_refl)).
Defined.

(* ===================================================================== *)
(** ** Queries and compositions of operations *)
(* ===================================================================== *)

Lemma unique_key_entry (l : list Delegate) (d d' : Delegate) :
  uniqueDelegates l -> In d l -> In d' l -> delegateKey d = delegateKey d' -> d = d'.
Proof.
  unfold uniqueDelegates. induction l as [| x l IH]; intros Hnd Hd Hd' Hk; [destruct Hd |].
  cbn [List.map] in Hnd. apply List.NoDup_cons_iff in Hnd. destruct Hnd as [Hx Hnd].
  destruct Hd as [-> | Hd], Hd' as [-> | Hd'].
  - reflexivity.
  - exfalso. apply Hx. rewrite Hk. apply List.in_map. exact Hd'.
  - exfalso. apply Hx. rewrite <- Hk. apply List.in_map. exact Hd.
  - exact (IH Hnd Hd Hd' Hk).
Qed.

Lemma query_predicate (type pkh : string) (d : Delegate) :
  (delegateType d =? type)%string && (delegateAddress d =? pkh)%string = true
  <-> delegateAddress d = pkh /\ delegateType d = type.
Proof.
  rewrite andb_true_iff, !String.eqb_eq. tauto.
Qed.

Lemma query_predicate_same (type pkh : string) (d : Delegate) :
  (delegateType d =? type)%string && (delegateAddress d =? pkh)%string
  = sameDelegate pkh type d.
Proof. unfold sameDelegate. apply andb_comm. Qed.

Lemma find_unique_entry (valid : Delegate -> Z -> bool) (l : list Delegate) (t : Z)
    (type pkh : string) :
  uniqueDelegates l ->
  match List.find (fun d => (delegateType d =? type)%string
                            && (delegateAddress d =? pkh)%string) l with
  | Some delegate => valid delegate t
  | None => false
  end = true
  <-> exists d, In d l /\ delegateAddress d = pkh /\ delegateType d = type
                /\ valid d t = true.
Proof.
  intros Hu. split.
  - destruct (List.find _ l) as [d |] eqn:Ef; [| discriminate].
    intros Hv. apply List.find_some in Ef. destruct Ef as [Hin Hp].
    apply query_predicate in Hp. exists d. tauto.
  - intros (d & Hin & Ha & Ht & Hv).
    destruct (List.find _ l) as [d' |] eqn:Ef.
    + apply List.find_some in Ef. destruct Ef as [Hin' Hp]. apply query_predicate in Hp.
      assert (d = d') as <-; [| exact Hv].
      apply (unique_key_entry l); try assumption.
      unfold delegateKey. destruct Hp as [-> ->]. rewrite Ha, Ht. reflexivity.
    + pose proof (List.find_none _ _ Ef d Hin) as Hf. cbv beta in Hf.
      rewrite (proj2 (query_predicate type pkh d) (conj Ha Ht)) in Hf. discriminate Hf.
Qed.

(** X11: on a datum whose delegate pairs are unique, [isValidDelegate]
    holds exactly when the datum stores a delegate with that key hash and
    that type whose [validUntil] is 0 or later than the clock reading; with
    no datum on chain it is false. *)
Theorem isValidDelegate_iff_stored_and_not_expired
    (D : IdentityDatum) (currentTime : Z) (type pkh : string) :
  uniqueDelegates (delegates D) ->
  (MeshIdentityContract.isValidDelegate (Some D) currentTime type pkh = true
   <-> exists d, In d (delegates D) /\ delegateAddress d = pkh /\ delegateType d = type
                 /\ (validUntil d = 0 \/ validUntil d > currentTime))
  /\ (DecentralizedIdentity.isValidDelegate (Some D) currentTime type pkh = true
      <-> exists d, In d (delegates D) /\ delegateAddress d = pkh /\ delegateType d = type
                    /\ (validUntil d = 0 \/ validUntil d > currentTime))
  /\ MeshIdentityContract.isValidDelegate None currentTime type pkh = false
  /\ DecentralizedIdentity.isValidDelegate None currentTime type pkh = false.
Proof.
  intros Hu. split; [| split; [| split; reflexivity]].
  - unfold MeshIdentityContract.isValidDelegate.
    rewrite (find_unique_entry Mesh.isDelegateValid _ _ _ _ Hu).
    split; intros (d & Hin & Ha & Ht & Hv); exists d; repeat (split; [assumption |]);
      apply (valid_until_test (validUntil d) currentTime); exact Hv.
  - unfold DecentralizedIdentity.isValidDelegate.
    rewrite (find_unique_entry Lucid.isDelegateValid _ _ _ _ Hu).
    split; intros (d & Hin & Ha & Ht & Hv); exists d; repeat (split; [assumption |]);
      apply (valid_until_test (validUntil d) currentTime); exact Hv.
Qed.

Lemma isValidDelegate_iff_stored_and_not_expired_witness :
  let D := mkIdentityDatum "id" "O"
             [mkDelegate "A" "veriKey" 500; mkDelegate "A" "sigAuth" 0] [] 2 in
  uniqueDelegates (delegates D)
  /\ MeshIdentityContract.isValidDelegate (Some D) 1000 "sigAuth" "A" = true
  /\ MeshIdentityContract.isValidDelegate (Some D) 1000 "veriKey" "A" = false.
Proof.
  cbv zeta.
  assert (Hu : uniqueDelegates
                 (delegates (mkIdentityDatum "id" "O"
                    [mkDelegate "A" "veriKey" 500; mkDelegate "A" "sigAuth" 0] [] 2))).
  { unfold uniqueDelegates. nodup_by_inspection. }
  split; [exact Hu |]. split; [| reflexivity].
  apply (proj1 (isValidDelegate_iff_stored_and_not_expired _ 1000 "sigAuth" "A" Hu)).
  exists (mkDelegate "A" "sigAuth" 0).
  split; [right; left; reflexivity |]. split; [reflexivity |]. split; [reflexivity |].
  left. reflexivity.
Defined.

Lemma find_after_replace (valid : Delegate -> Z -> bool) (l : list Delegate) (t : Z)
    (type pkh : string) (u : Z) :
  match List.find (fun d => (delegateType d =? type)%string
                            && (delegateAddress d =? pkh)%string)
                  (List.filter (fun d => negb (sameDelegate pkh type d)) l
                   ++ [mkDelegate pkh type u]) with
  | Some delegate => valid delegate t
  | None => false
  end = valid (mkDelegate pkh type u) t.
Proof.
  rewrite find_app.
  destruct (List.find _ (List.filter _ l)) as [d |] eqn:Ef.
  - exfalso. apply List.find_some in Ef. destruct Ef as [Hin Hp].
    apply List.filter_In in Hin. destruct Hin as [_ Hn].
    rewrite query_predicate_same in Hp. rewrite Hp in Hn. discriminate Hn.
  - cbn [List.find delegateType delegateAddress]. rewrite !String.eqb_refl. reflexivity.
Qed.

(** X12: after [addDelegate], on the record read back from the chain,
    [isValidDelegate] for the added pair is decided by the new entry
    alone, whatever the record held for the pair before.  For a key hash
    given in lower-case hexadecimal it holds exactly when the stored
    [validUntil] is 0 or later than the clock reading: with exact integers
    (Lucid) a validity of 0 makes the delegate valid at every time, a
    positive validity makes it valid exactly before [now + validity], and
    a negative validity stores a delegate that is already expired when it
    is created, unless [now + validity] is 0, which stores a delegate that
    never expires.  For a key hash given in any other spelling the query
    with that same text is false: the entry comes back in lower case and
    the query compares texts. *)
Theorem added_delegate_is_valid_until_expiry
    (env : Env) (D lucid mesh : IdentityDatum) (type pkh : string)
    (validityMs currentTime : Z) :
  asRead (delegates D) ->
  readBack LucidImpl (apply LucidImpl env D (AddDelegate type pkh validityMs)) = Some lucid ->
  readBack MeshImpl (apply MeshImpl env D (AddDelegate type pkh validityMs)) = Some mesh ->
  (canonicalHex pkh ->
   DecentralizedIdentity.isValidDelegate (Some lucid) currentTime type pkh
   = (validityMs =? 0) || (now0 env + validityMs =? 0)
     || (now0 env + validityMs >? currentTime)
   /\ MeshIdentityContract.isValidDelegate (Some mesh) currentTime type pkh
      = (storedValidUntil MeshImpl env validityMs =? 0)
        || (storedValidUntil MeshImpl env validityMs >? currentTime)
   /\ (0 <= now0 env -> 0 < validityMs ->
       (DecentralizedIdentity.isValidDelegate (Some lucid) currentTime type pkh = true
        <-> currentTime < now0 env + validityMs))
   /\ (validityMs < 0 -> now0 env + validityMs <> 0 ->
       DecentralizedIdentity.isValidDelegate (Some lucid) (now0 env) type pkh = false))
  /\ (~ canonicalHex pkh ->
      DecentralizedIdentity.isValidDelegate (Some lucid) currentTime type pkh = false
      /\ MeshIdentityContract.isValidDelegate (Some mesh) currentTime type pkh = false).
Proof.
  intros Hr HL HM. split.
  - intros Hc.
    assert (Hadd : forall t a v, AddDelegate type pkh validityMs = AddDelegate t a v ->
                                 canonicalHex a).
    { intros t a v E. inversion E. subst. exact Hc. }
    assert (EL : delegates lucid
                 = delegates (apply LucidImpl env D (AddDelegate type pkh validityMs))).
    { apply (readBack_delegates LucidImpl _ _ HL). apply apply_asRead; [exact Hr |].
      exact Hadd. }
    assert (EM : delegates mesh
                 = delegates (apply MeshImpl env D (AddDelegate type pkh validityMs))).
    { apply (readBack_delegates MeshImpl _ _ HM). apply apply_asRead; [exact Hr |].
      exact Hadd. }
    assert (HLf : forall time,
               DecentralizedIdentity.isValidDelegate (Some lucid) time type pkh
               = (validityMs =? 0) || (now0 env + validityMs =? 0)
                 || (now0 env + validityMs >? time)).
    { intros time. unfold DecentralizedIdentity.isValidDelegate.
      rewrite EL, apply_delegates, find_after_replace.
      unfold Lucid.isDelegateValid, storedValidUntil.
      cbn [validUntil]. destruct (validityMs =? 0); reflexivity. }
    split; [apply HLf |]. split; [| split].
    + unfold MeshIdentityContract.isValidDelegate.
      rewrite EM, apply_delegates, find_after_replace. reflexivity.
    + intros Hn Hv. rewrite HLf.
      rewrite !orb_true_iff, !Z.eqb_eq, Z.gtb_gt. lia.
    + intros Hv Hne. rewrite HLf.
      destruct (Z.eqb_spec validityMs 0) as [E | _]; [lia |].
      destruct (Z.eqb_spec (now0 env + validityMs) 0) as [E | _]; [contradiction |].
      destruct (Z.gtb_spec (now0 env + validityMs) (now0 env)); [lia | reflexivity].
  - intros Hn.
    assert (Hnone : forall (valid : Delegate -> Z -> bool) (R : IdentityDatum),
              fromChain R ->
              match List.find (fun d => (delegateType d =? type)%string
                                        && (delegateAddress d =? pkh)%string)
                              (delegates R) with
              | Some delegate => valid delegate currentTime
              | None => false
              end = false).
    { intros valid R (_ & _ & HR). destruct (List.find _ _) as [d |] eqn:Ef; [| reflexivity].
      exfalso. apply List.find_some in Ef. destruct Ef as [Hin Hp].
      apply query_predicate in Hp. destruct Hp as [Ha _].
      unfold asRead in HR. rewrite List.Forall_forall in HR.
      apply Hn. rewrite <- Ha. exact (HR d Hin). }
    split.
    + apply Hnone. exact (readBack_fromChain LucidImpl _ _ HL).
    + apply Hnone. exact (readBack_fromChain MeshImpl _ _ HM).
Qed.

Lemma added_delegate_is_valid_until_expiry_witness :
  let env := mkEnv "addr_test1vz" 1700000000000 1700000000001 1700000000002 7 in
  let D := mkIdentityDatum "1d" "0e" [mkDelegate "ab" "sigAuth" 5] [] 1 in
  let R := mkIdentityDatum "1d" "0e" [mkDelegate "ab" "sigAuth" 1700086400000] [] 2 in
  asRead (delegates D)
  /\ readBack LucidImpl (apply LucidImpl env D (AddDelegate "sigAuth" "ab" 86400000)) = Some R
  /\ readBack MeshImpl (apply MeshImpl env D (AddDelegate "sigAuth" "ab" 86400000)) = Some R
  /\ canonicalHex "ab"
  /\ DecentralizedIdentity.isValidDelegate (Some R) 1700086399999 "sigAuth" "ab" = true
  /\ DecentralizedIdentity.isValidDelegate (Some R) 1700086400000 "sigAuth" "ab" = false.
Proof.
  cbv zeta.
  assert (Hab : canonicalHex "ab") by (exists [Byte.xab]; reflexivity).
  assert (Hr : asRead (delegates (mkIdentityDatum "1d" "0e" [mkDelegate "ab" "sigAuth" 5]
                                    [] 1))).
  { repeat constructor. exact Hab. }
  split; [exact Hr |]. split; [reflexivity |]. split; [reflexivity |]. split; [exact Hab |].
  split.
  - exact (eq_trans
             (proj1 (proj1 (added_delegate_is_valid_until_expiry
                              (mkEnv "addr_test1vz" 1700000000000 1700000000001
                                     1700000000002 7)
                              _ _ _ "sigAuth" "ab" 86400000 1700086399999
                              Hr eq_refl eq_refl) Hab))
             eq_refl).
  - exact (eq_trans
             (proj1 (proj1 (added_delegate_is_valid_until_expiry
                              (mkEnv "addr_test1vz" 1700000000000 1700000000001
                                     1700000000002 7)
                              _ _ _ "sigAuth" "ab" 86400000 1700086400000
                              Hr eq_refl eq_refl) Hab))
             eq_refl).
Defined.


Lemma filter_replace_again {A : Type} (same : A -> bool) (l : list A) (x : A) :
  same x = true ->
  List.filter (fun y => negb (same y)) (List.filter (fun y => negb (same y)) l ++ [x])
  = List.filter (fun y => negb (same y)) l.
Proof.
  intros Hx. rewrite List.filter_app, filter_filter_same. cbn [List.filter].
  rewrite Hx. cbn [negb]. apply List.app_nil_r.
Qed.

(** X14: adding a delegate twice for the same pair, with the key hash in
    lower-case hexadecimal, or setting an attribute twice under the same
    name, the second operation working on the record read back after the
    first, leaves the lists exactly as the second operation alone would on
    the original record: the first entry is replaced, never kept beside
    the second. *)
Theorem second_write_replaces_first
    (impl : Impl) (env1 env2 : Env) (D afterAdd afterSet : IdentityDatum)
    (type pkh name value1 value2 : string) (validity1 validity2 : Z) :
  asRead (delegates D) ->
  canonicalHex pkh ->
  readBack impl (apply impl env1 D (AddDelegate type pkh validity1)) = Some afterAdd ->
  readBack impl (apply impl env1 D (SetAttribute name value1 validity1)) = Some afterSet ->
  delegates (apply impl env2 afterAdd (AddDelegate type pkh validity2))
  = delegates (apply impl env2 D (AddDelegate type pkh validity2))
  /\ attributes (apply impl env2 afterSet (SetAttribute name value2 validity2))
     = attributes (apply impl env2 D (SetAttribute name value2 validity2)).
Proof.
  intros Hr Hc Ha Hs.
  assert (Ea : delegates afterAdd
               = delegates (apply impl env1 D (AddDelegate type pkh validity1))).
  { apply (readBack_delegates impl _ _ Ha). apply apply_asRead; [exact Hr |].
    intros t a v E. inversion E. subst. exact Hc. }
  assert (Es : attributes afterSet
               = attributes (apply impl env1 D (SetAttribute name value1 validity1))).
  { exact (proj1 (proj2 (proj2 (proj2 (readBack_fields impl _ _ Hs))))). }
  rewrite (apply_delegates impl env2 afterAdd), (apply_attributes impl env2 afterSet), Ea, Es.
  rewrite !apply_delegates, !apply_attributes. split; f_equal.
  - apply (filter_replace_again (sameDelegate pkh type)). apply sameDelegate_refl.
  - apply (filter_replace_again (fun a => (attrName a =? name)%string)).
    apply String.eqb_refl.
Qed.

Lemma second_write_replaces_first_witness :
  let env1 := mkEnv "addr_test1vz" 1700000000000 1700000000001 1700000000002 7 in
  let env2 := mkEnv "addr_test1vz" 1700000600000 1700000600001 1700000600002 9 in
  let D := mkIdentityDatum "1d" "0e" [mkDelegate "cd" "enc" 0] [mkAttribute "email" "a@b" 0] 1 in
  let afterAdd := mkIdentityDatum "1d" "0e"
                    [mkDelegate "cd" "enc" 0; mkDelegate "ab" "sigAuth" 1700086400000]
                    [mkAttribute "email" "a@b" 0] 2 in
  let afterSet := mkIdentityDatum "1d" "0e" [mkDelegate "cd" "enc" 0]
                    [mkAttribute "email" "c@d" 1700086400000] 2 in
  asRead (delegates D)
  /\ canonicalHex "ab"
  /\ readBack LucidImpl (apply LucidImpl env1 D (AddDelegate "sigAuth" "ab" 86400000))
     = Some afterAdd
  /\ readBack LucidImpl (apply LucidImpl env1 D (SetAttribute "email" "c@d" 86400000))
     = Some afterSet
  /\ delegates (apply LucidImpl env2 afterAdd (AddDelegate "sigAuth" "ab" 0))
     = [mkDelegate "cd" "enc" 0; mkDelegate "ab" "sigAuth" 0].
Proof.
  cbv zeta.
  assert (Hab : canonicalHex "ab") by (exists [Byte.xab]; reflexivity).
  assert (Hr : asRead (delegates (mkIdentityDatum "1d" "0e" [mkDelegate "cd" "enc" 0]
                                    [mkAttribute "email" "a@b" 0] 1))).
  { repeat constructor. exists [Byte.xcd]. reflexivity. }
  split; [exact Hr |]. split; [exact Hab |]. split; [reflexivity |]. split; [reflexivity |].
  exact (eq_trans
           (proj1 (second_write_replaces_first LucidImpl
                     (mkEnv "addr_test1vz" 1700000000000 1700000000001 1700000000002 7)
                     (mkEnv "addr_test1vz" 1700000600000 1700000600001 1700000600002 9)
                     _ _ _ "sigAuth" "ab" "email" "c@d" "e@f" 86400000 0
                     Hr Hab eq_refl eq_refl))
           eq_refl).
Defined.

(** X15: [revokeAttribute] after [setAttribute].  Revoking the name with
    the value just set removes every attribute of that name, also a value
    the name held before the set; revoking the name with any other value
    removes nothing. *)
Theorem set_then_revoke_attribute
    (impl : Impl) (env1 env2 : Env) (D : IdentityDatum) (name value other : string)
    (validity : Z) :
  let set := apply impl env1 D (SetAttribute name value validity) in
  attributes (apply impl env2 set (RevokeAttribute name value))
  = List.filter (fun a => negb (attrName a =? name)%string) (attributes D)
  /\ (other <> value ->
      attributes (apply impl env2 set (RevokeAttribute name other)) = attributes set).
Proof.
  cbv zeta. rewrite !apply_attributes.
  assert (Hkeep : forall v,
            List.filter (fun a => negb (sameAttribute name v a))
                        (List.filter (fun a => negb (attrName a =? name)%string) (attributes D))
            = List.filter (fun a => negb (attrName a =? name)%string) (attributes D)).
  { intros v. apply filter_id. intros a Hin. apply List.filter_In in Hin.
    destruct Hin as [_ Hn]. apply negb_true_iff in Hn. apply negb_true_iff.
    destruct (sameAttribute name v a) eqn:Es; [| reflexivity].
    apply sameAttribute_spec in Es. destruct Es as [Es _].
    apply String.eqb_neq in Hn. contradiction. }
  split.
  - rewrite List.filter_app, Hkeep. cbn [List.filter].
    assert (Hs : sameAttribute name value
                   (mkAttribute name value (storedValidUntil impl env1 validity)) = true)
      by (apply sameAttribute_spec; split; reflexivity).
    rewrite Hs. cbn [negb]. apply List.app_nil_r.
  - intros Hne. rewrite List.filter_app, Hkeep. cbn [List.filter].
    destruct (sameAttribute name other
                (mkAttribute name value (storedValidUntil impl env1 validity))) eqn:Es;
      [| reflexivity].
    apply sameAttribute_spec in Es. cbn [attrName attrValue] in Es.
    destruct Es as [_ Es]. symmetry in Es. contradiction.
Qed.

Lemma apply_fromChain (impl : Impl) (env : Env) (D : IdentityDatum) (A : Action) :
  fromChain D ->
  (forall k, keyHashOf A = Some k -> canonicalHex k) ->
  fromChain (apply impl env D A).
Proof.
  intros (Hi & Ho & Hd) Hk. split; [rewrite apply_identity; exact Hi |]. split.
  - rewrite apply_owner. destruct A as [o | | | |]; try exact Ho.
    apply Hk. reflexivity.
  - apply apply_asRead; [exact Hd |]. intros t a v ->. apply Hk. reflexivity.
Qed.

(** A run of operations whose key hashes are in lower-case hexadecimal,
    from a record read from the chain. *)
Lemma run_invariants (impl : Impl) (steps : list (Env * Action)) :
  forall D,
    fromChain D -> onePerPair (delegates D) -> uniqueAttributes (attributes D) ->
    (forall step k, In step steps -> keyHashOf (snd step) = Some k -> canonicalHex k) ->
    exists R,
      run impl steps D = Some R
      /\ fromChain R
      /\ identity R = identity D
      /\ onePerPair (delegates R)
      /\ uniqueAttributes (attributes R)
      /\ ((forall step newOwner, In step steps -> snd step <> ChangeOwner newOwner) ->
          owner R = owner D)
      /\ (0 <= nonce D -> nonce D + Z.of_nat (length steps) <= Num.MAX_EXACT ->
          nonce R = nonce D + Z.of_nat (length steps)).
Proof.
  induction steps as [| step steps IH]; intros D Hc Hp Hu Hk.
  - exists D. cbn [run length]. repeat split; try assumption; try apply Hc. intros _ _. lia.
  - assert (Hk1 : forall k, keyHashOf (snd step) = Some k -> canonicalHex k).
    { intros k. apply Hk. left. reflexivity. }
    pose proof (apply_fromChain impl (fst step) D (snd step) Hc Hk1) as Hc1.
    destruct (apply_keeps_one_per_pair impl (fst step) D (snd step)
                (proj2 (proj2 Hc))
                (fun t a v E => Hk1 a ltac:(rewrite E; reflexivity)) Hp Hu) as [Hp1 Hu1].
    destruct (IH (apply impl (fst step) D (snd step)) Hc1 Hp1 Hu1) as
      (R & HR & HcR & Hi & HpR & HuR & Ho & Hn).
    { intros s k Hin. apply Hk. right. exact Hin. }
    exists R. cbn [run]. rewrite (readBack_of_fromChain impl _ Hc1).
    split; [exact HR |]. split; [exact HcR |].
    split; [rewrite Hi; apply apply_identity |].
    split; [exact HpR |]. split; [exact HuR |]. split.
    + intros Hno. rewrite Ho by (intros s o Hin; apply Hno; right; exact Hin).
      rewrite apply_owner. destruct (snd step) as [o | | | |] eqn:Es; try reflexivity.
      exfalso. apply (Hno step o); [left; reflexivity | exact Es].
    + cbn [length]. rewrite Nat2Z.inj_succ. intros H0 Hle.
      assert (Hinc : nonce (apply impl (fst step) D (snd step)) = nonce D + 1).
      { rewrite apply_nonce. apply increment_exact.
        assert (HM : Num.MAX_EXACT < Num.Long_MAX_VALUE) by reflexivity.
        assert (Hm : Num.Long_MIN_VALUE < 0) by reflexivity.
        destruct impl; cbn [nonceInRange]; [exact I | lia | lia]. }
      rewrite Hn; rewrite Hinc; lia.
Qed.

(** X16: what every record reachable from the initial record of
    [createIdentity] satisfies, when the creator's key hash and the key
    hashes the operations name are in lower-case hexadecimal, whatever the
    operations, their order and their times, every builder reading what
    its predecessor wrote: every record is written and read back; the
    identity is still the creator's key hash; no two delegates share a
    (key hash, type) pair of the Record and no two attributes share a
    name; the owner is still the creator unless an operation changed the
    owner; and the nonce is the number of operations applied (while that
    number is exact in the implementation's integer type). *)
Theorem reachable_datum_invariants (impl : Impl) (pkh : string) (steps : list (Env * Action)) :
  canonicalHex pkh ->
  (forall step k, In step steps -> keyHashOf (snd step) = Some k -> canonicalHex k) ->
  exists D,
    run impl steps (mkIdentityDatum pkh pkh [] [] 0) = Some D
    /\ identity D = pkh
    /\ onePerPair (delegates D)
    /\ uniqueAttributes (attributes D)
    /\ ((forall step newOwner, In step steps -> snd step <> ChangeOwner newOwner) ->
        owner D = pkh)
    /\ (Z.of_nat (length steps) <= Num.MAX_EXACT -> nonce D = Z.of_nat (length steps)).
Proof.
  intros Hp Hk.
  destruct (run_invariants impl steps (mkIdentityDatum pkh pkh [] [] 0)) as
    (R & HR & _ & Hi & HpR & HuR & Ho & Hn).
  - split; [exact Hp |]. split; [exact Hp | constructor].
  - constructor.
  - constructor.
  - exact Hk.
  - exists R. split; [exact HR |]. split; [exact Hi |]. split; [exact HpR |].
    split; [exact HuR |]. split; [exact Ho |].
    intros Hle. cbn [nonce] in Hn. rewrite Hn; lia.
Qed.

Lemma reachable_datum_invariants_witness :
  let env1 := mkEnv "addr_test1vz" 1700000000000 1700000000001 1700000000002 7 in
  let env2 := mkEnv "addr_test1vz" 1700000600000 1700000600001 1700000600002 9 in
  let steps := [(env1, AddDelegate "sigAuth" "ab" 30);
                (env2, AddDelegate "sigAuth" "ab" 0);
                (env2, SetAttribute "email" "a@b" 0)] in
  canonicalHex "1d"
  /\ (forall step k, In step steps -> keyHashOf (snd step) = Some k -> canonicalHex k)
  /\ run JavaImpl steps (mkIdentityDatum "1d" "1d" [] [] 0)
     = Some (mkIdentityDatum "1d" "1d" [mkDelegate "ab" "sigAuth" 0]
                             [mkAttribute "email" "a@b" 0] 3)
  /\ exists D,
       run JavaImpl steps (mkIdentityDatum "1d" "1d" [] [] 0) = Some D
       /\ onePerPair (delegates D).
Proof.
  cbv zeta.
  assert (H1d : canonicalHex "1d") by (exists [Byte.x1d]; reflexivity).
  assert (Hab : canonicalHex "ab") by (exists [Byte.xab]; reflexivity).
  assert (Hk : forall step k,
             In step [(mkEnv "addr_test1vz" 1700000000000 1700000000001 1700000000002 7,
                       AddDelegate "sigAuth" "ab" 30);
                      (mkEnv "addr_test1vz" 1700000600000 1700000600001 1700000600002 9,
                       AddDelegate "sigAuth" "ab" 0);
                      (mkEnv "addr_test1vz" 1700000600000 1700000600001 1700000600002 9,
                       SetAttribute "email" "a@b" 0)] ->
             keyHashOf (snd step) = Some k -> canonicalHex k).
  { intros step k [<- | [<- | [<- | []]]] E; cbn in E; try discriminate E;
      apply some_inj in E; subst k; exact Hab. }
  split; [exact H1d |]. split; [exact Hk |]. split; [reflexivity |].
  destruct (reachable_datum_invariants JavaImpl "1d" _ H1d Hk) as (D & HD & _ & Hp & _).
  exists D. split; [exact HD | exact Hp].
Defined.

Lemma valid_later_valid_earlier (u t1 t2 : Z) :
  t1 <= t2 -> (u =? 0) || (u >? t2) = true -> (u =? 0) || (u >? t1) = true.
Proof. rewrite !valid_until_test. lia. Qed.

Lemma filter_incl_pointwise {A : Type} (f g : A -> bool) (l : list A) :
  (forall x, f x = true -> g x = true) ->
  List.filter f l = List.filter f (List.filter g l).
Proof.
  intros H. induction l as [| x l IH]; [reflexivity |].
  cbn [List.filter]. destruct (g x) eqn:Eg.
  - cbn [List.filter]. destruct (f x); [f_equal |]; exact IH.
  - destruct (f x) eqn:Ef; [rewrite (H x Ef) in Eg; discriminate Eg | exact IH].
Qed.

(** X17: validity only shrinks with time.  For two clock readings
    [t1 <= t2], the valid delegates (attributes) at [t2] are exactly the
    valid delegates (attributes) at [t1] that are still valid at [t2], in
    the same order: an entry that has expired never becomes valid again,
    and an entry with [validUntil] 0 is valid at every time. *)
Theorem valid_entries_only_shrink_with_time (D : IdentityDatum) (t1 t2 : Z) :
  t1 <= t2 ->
  MeshIdentityContract.getValidDelegates (Some D) t2
  = List.filter (fun d => Mesh.isDelegateValid d t2)
                (MeshIdentityContract.getValidDelegates (Some D) t1)
  /\ MeshIdentityContract.getValidAttributes (Some D) t2
     = List.filter (fun a => Mesh.isAttributeValid a t2)
                   (MeshIdentityContract.getValidAttributes (Some D) t1)
  /\ DecentralizedIdentity.getValidDelegates (Some D) t2
     = List.filter (fun d => Lucid.isDelegateValid d t2)
                   (DecentralizedIdentity.getValidDelegates (Some D) t1)
  /\ DecentralizedIdentity.getValidAttributes (Some D) t2
     = List.filter (fun a => Lucid.isAttributeValid a t2)
                   (DecentralizedIdentity.getValidAttributes (Some D) t1)
  /\ Identity.getValidDelegates D t2
     = List.filter (fun d => Java.Delegate_isValid d t2) (Identity.getValidDelegates D t1)
  /\ Identity.getValidAttributes D t2
     = List.filter (fun a => Java.Attribute_isValid a t2) (Identity.getValidAttributes D t1)
  /\ (forall d, In d (delegates D) -> validUntil d = 0 ->
        In d (Identity.getValidDelegates D t2)
        /\ In d (MeshIdentityContract.getValidDelegates (Some D) t2)
        /\ In d (DecentralizedIdentity.getValidDelegates (Some D) t2)).
Proof.
  intros Hle.
  repeat (split; [apply filter_incl_pointwise; intros x; apply valid_later_valid_earlier;
                  exact Hle |]).
  intros d Hin Hz. repeat split; apply List.filter_In; (split; [exact Hin |]).
  - unfold Java.Delegate_isValid. rewrite Hz. reflexivity.
  - unfold Mesh.isDelegateValid. rewrite Hz. reflexivity.
  - unfold Lucid.isDelegateValid. rewrite Hz. reflexivity.
Qed.

Lemma valid_entries_only_shrink_with_time_witness :
  let D := mkIdentityDatum "id" "O"
             [mkDelegate "A" "veriKey" 500; mkDelegate "B" "sigAuth" 0;
              mkDelegate "C" "enc" 2000] [] 3 in
  400 <= 1000
  /\ Identity.getValidDelegates D 400 = delegates D
  /\ Identity.getValidDelegates D 1000
     = [mkDelegate "B" "sigAuth" 0; mkDelegate "C" "enc" 2000].
Proof.
  cbv zeta. split; [lia |]. split; [reflexivity |].
  refine (eq_trans
            (proj1 (proj2 (proj2 (proj2 (proj2
               (valid_entries_only_shrink_with_time
                  (mkIdentityDatum "id" "O"
                     [mkDelegate "A" "veriKey" 500; mkDelegate "B" "sigAuth" 0;
                      mkDelegate "C" "enc" 2000] [] 3) 400 1000 _)))))) _);
    [lia | reflexivity].
Defined.

(* ===================================================================== *)
(** ** Token names, the identity NFT and creation *)
(* ===================================================================== *)

Lemma bigEndian_mod (n : nat) :
  forall x y, x mod 256 ^ Z.of_nat n = y mod 256 ^ Z.of_nat n ->
              Bytes.bigEndian n x = Bytes.bigEndian n y.
Proof.
  induction n as [| n IH]; intros x y H; [reflexivity |].
  cbn [Bytes.bigEndian].
  rewrite Nat2Z.inj_succ, Z.pow_succ_r in H by lia.
  assert (Hp : 0 < 256 ^ Z.of_nat n) by (apply Z.pow_pos_nonneg; lia).
  f_equal.
  - apply IH.
    assert (E : forall z, (z / 256) mod 256 ^ Z.of_nat n
                          = (z mod (256 * 256 ^ Z.of_nat n)) / 256).
    { intros z. rewrite Z.rem_mul_r by lia.
      rewrite (Z.mul_comm 256 ((z / 256) mod _)), Z.div_add by lia.
      rewrite (Z.div_small (z mod 256)) by (apply Z.mod_pos_bound; lia). lia. }
    rewrite !E, H. reflexivity.
  - f_equal. apply of_Z_mod.
    assert (E : forall z, z mod 256 = (z mod (256 * 256 ^ Z.of_nat n)) mod 256).
    { intros z. rewrite Z.rem_mul_r by lia.
      rewrite (Z.mul_comm 256 ((z / 256) mod _)), Z.mod_add by lia.
      rewrite Z.mod_mod by lia. reflexivity. }
    rewrite (E x), (E y), H. reflexivity.
Qed.

Lemma encodeHex_length (bs : list Bytes.byte) :
  String.length (Hex.encodeHex bs) = (2 * length bs)%nat.
Proof. induction bs as [| b bs IH]; [reflexivity |]. cbn [Hex.encodeHex String.length length]. lia. Qed.

(** X18: token names across the three implementations.  For a transaction
    hash that is hexadecimal text of even length the three implementations
    compute the same token name.  The TypeScript helpers are defined
    exactly on such hashes; the Java helper also accepts the same text
    after a leading [0x] and gives the name of the text without it.
    Wherever a name is defined it is 64 hexadecimal digits (32 bytes), and
    it depends on the output index only through its low 32 bits. *)
Theorem token_name_is_well_formed_and_shared
    (impl : Impl) (txHash : string) (outputIndex other : Z) :
  (Hex.decodeHex txHash <> None ->
   computeIdentityTokenName impl txHash outputIndex
   = Mesh.computeIdentityTokenName txHash outputIndex
   /\ Java.computeIdentityTokenName ("0x" +:+ txHash) outputIndex
      = Mesh.computeIdentityTokenName txHash outputIndex)
  /\ Lucid.computeIdentityTokenName txHash outputIndex
     = Mesh.computeIdentityTokenName txHash outputIndex
  /\ (Mesh.computeIdentityTokenName txHash outputIndex = None
      <-> Hex.decodeHex txHash = None)
  /\ (forall name, computeIdentityTokenName impl txHash outputIndex = Some name ->
        String.length name = 64%nat
        /\ exists bytes, Hex.decodeHex name = Some bytes /\ length bytes = 32%nat)
  /\ (outputIndex mod 2 ^ 32 = other mod 2 ^ 32 ->
      computeIdentityTokenName impl txHash other
      = computeIdentityTokenName impl txHash outputIndex).
Proof.
  assert (Hname : forall bs name,
            Some (Hex.encodeHex (Sha256.sha256 bs)) = Some name ->
            String.length name = 64%nat
            /\ exists bytes, Hex.decodeHex name = Some bytes /\ length bytes = 32%nat).
  { intros bs name H. apply some_inj in H. subst name. split.
    - rewrite encodeHex_length. unfold Sha256.sha256. rewrite bigEndian_length. reflexivity.
    - exists (Sha256.sha256 bs). split; [apply decodeHex_encodeHex |].
      unfold Sha256.sha256. apply bigEndian_length. }
  split; [| split; [| split; [| split]]].
  - intros Hd. destruct (Hex.decodeHex txHash) as [h |] eqn:Eh; [| contradiction Hd; reflexivity].
    change (Mesh.computeIdentityTokenName txHash outputIndex)
      with (computeIdentityTokenName MeshImpl txHash outputIndex).
    rewrite !(computeIdentityTokenName_spec _ _ _ _ Eh). split; [reflexivity |].
    unfold Java.computeIdentityTokenName, Java.decodeHexString.
    change ("0x" +:+ txHash) with (String "0" (String "x" txHash)). cbv iota.
    rewrite Eh, putInt_bigEndian. reflexivity.
  - reflexivity.
  - unfold Mesh.computeIdentityTokenName.
    destruct (Hex.decodeHex txHash); split; (discriminate || reflexivity).
  - intros name. destruct impl; cbn [computeIdentityTokenName];
      unfold Lucid.computeIdentityTokenName, Mesh.computeIdentityTokenName,
        Java.computeIdentityTokenName;
      match goal with
      | |- context [match ?x with _ => _ end] => destruct x; [| discriminate]
      end;
      apply Hname.
  - intros Hmod.
    assert (E : Bytes.bigEndian 4 other = Bytes.bigEndian 4 outputIndex).
    { apply bigEndian_mod. symmetry. exact Hmod. }
    destruct impl; cbn [computeIdentityTokenName];
      unfold Lucid.computeIdentityTokenName, Mesh.computeIdentityTokenName,
        Java.computeIdentityTokenName;
      change (Lucid.setUint32 other) with (Mesh.setUint32 other);
      change (Lucid.setUint32 outputIndex) with (Mesh.setUint32 outputIndex);
      rewrite ?setUint32_bigEndian, ?putInt_bigEndian, E; reflexivity.
Qed.

(** X19: the identity NFT in the MeshJS builders.  Whenever
    [findIdentityUtxo] returns a UTxO, that UTxO is one of those at the
    script address, carries a datum and holds an asset of the NFT policy,
    so the builders' error [Identity NFT not found] cannot occur; and for a
    policy id of 56 characters the continuing output is given exactly the
    unit of that asset, with quantity 1. *)
Theorem identity_nft_is_found_and_carried_over
    (policyId : string) (utxos : list UTxO) (identityUtxo : UTxO) :
  MeshIdentityContract.findIdentityUtxo policyId utxos = Some identityUtxo ->
  In identityUtxo utxos
  /\ utxoPlutusData identityUtxo <> None
  /\ exists nftAsset,
       In nftAsset (utxoAmount identityUtxo)
       /\ Doc.startsWith (assetUnit nftAsset) policyId = true
       /\ MeshIdentityContract.nftTokenName policyId identityUtxo
          = inr (Doc.substringFrom 56 (assetUnit nftAsset))
       /\ (String.length policyId = 56%nat ->
           MeshIdentityContract.continuingAmount policyId
             (Doc.substringFrom 56 (assetUnit nftAsset))
           = [mkAsset "lovelace" 2000000; mkAsset (assetUnit nftAsset) 1]).
Proof.
  intros H. unfold MeshIdentityContract.findIdentityUtxo in H.
  apply List.find_some in H. destruct H as [Hin Hp].
  apply andb_true_iff in Hp. destruct Hp as [Hnft Hdata].
  split; [exact Hin |]. split.
  - unfold MeshIdentityContract.hasData in Hdata.
    destruct (utxoPlutusData identityUtxo); [discriminate | discriminate Hdata].
  - unfold MeshIdentityContract.hasNft in Hnft. unfold MeshIdentityContract.nftTokenName.
    destruct (List.find _ (utxoAmount identityUtxo)) as [nftAsset |] eqn:Ef.
    + apply List.find_some in Ef. destruct Ef as [Ha Hs].
      exists nftAsset. split; [exact Ha |]. split; [exact Hs |]. split; [reflexivity |].
      intros Hlen. unfold MeshIdentityContract.continuingAmount.
      apply startsWith_split in Hs. rewrite Hlen in Hs. rewrite <- Hs. reflexivity.
    + exfalso. apply List.existsb_exists in Hnft. destruct Hnft as (a & Ha & Hs).
      pose proof (List.find_none _ _ Ef a Ha) as Hf. cbv beta in Hf.
      rewrite Hs in Hf. discriminate Hf.
Qed.

Lemma identity_nft_is_found_and_carried_over_witness :
  let policyId := "0123456789abcdef0123456789abcdef0123456789abcdef01234567"%string in
  let nft := mkAsset (policyId +:+ "aabb") 1 in
  let other := mkUTxO "11" 0 [mkAsset "lovelace" 9000000] None in
  let identityUtxo := mkUTxO "22" 1 [mkAsset "lovelace" 2000000; nft]
                             (Some (MeshDatum.Integer 0)) in
  MeshIdentityContract.findIdentityUtxo policyId [other; identityUtxo] = Some identityUtxo
  /\ MeshIdentityContract.nftTokenName policyId identityUtxo = inr "aabb"%string
  /\ In identityUtxo [other; identityUtxo].
Proof.
  cbv zeta. split; [reflexivity |]. split; [reflexivity |].
  exact (proj1 (identity_nft_is_found_and_carried_over
                  "0123456789abcdef0123456789abcdef0123456789abcdef01234567"
                  [mkUTxO "11" 0 [mkAsset "lovelace" 9000000] None;
                   mkUTxO "22" 1
                     [mkAsset "lovelace" 2000000;
                      mkAsset ("0123456789abcdef0123456789abcdef0123456789abcdef01234567"
                               +:+ "aabb") 1]
                     (Some (MeshDatum.Integer 0))]
                  _ eq_refl)).
Defined.

(** X20: [createIdentity] of MeshJS.  It fails for want of a suitable UTxO
    exactly when the wallet has collateral and none of its UTxOs holds more
    than 5 000 000 lovelace.  When it builds a transaction, the input it
    spends is the first wallet UTxO holding more than 5 000 000 lovelace,
    the token it mints is named by [computeIdentityTokenName] of that very
    input under the policy loaded for that input, the script output holds
    2 000 000 lovelace and the minted token, and the initial datum has
    the wallet's key hash as identity and owner, no delegates, no
    attributes and nonce 0. *)
Theorem createIdentity_binds_token_to_spent_input
    (loadValidators : string -> Z -> option string) (pkh : string)
    (utxos collaterals : list UTxO) :
  (MeshIdentityContract.createIdentity loadValidators pkh utxos collaterals
   = inl MeshIdentityContract.NoSuitableUTXOFound
   <-> collaterals <> []
       /\ forall u, In u utxos -> MeshIdentityContract.suitable u = false)
  /\ (forall tx,
        MeshIdentityContract.createIdentity loadValidators pkh utxos collaterals = inr tx ->
        exists before selectedUtxo after policyId tokenName,
          utxos = before ++ selectedUtxo :: after
          /\ (forall u, In u before -> MeshIdentityContract.suitable u = false)
          /\ MeshIdentityContract.suitable selectedUtxo = true
          /\ mintInput tx = (utxoTxHash selectedUtxo, utxoOutputIndex selectedUtxo)
          /\ loadValidators (fst (mintInput tx)) (snd (mintInput tx)) = Some policyId
          /\ Mesh.computeIdentityTokenName (fst (mintInput tx)) (snd (mintInput tx))
             = Some tokenName
          /\ mintAsset tx = mkAsset (policyId +:+ tokenName) 1
          /\ mintOutput tx = [mkAsset "lovelace" 2000000; mintAsset tx]
          /\ mintDatum tx = mkIdentityDatum pkh pkh [] [] 0
          /\ mintSigner tx = pkh).
Proof.
  unfold MeshIdentityContract.createIdentity. split.
  - destruct collaterals as [| c cs].
    + split; [discriminate | intros [H _]; contradiction H; reflexivity].
    + destruct (List.find MeshIdentityContract.suitable utxos) as [u |] eqn:Ef.
      * split.
        -- destruct (loadValidators _ _); [| discriminate].
           destruct (Mesh.computeIdentityTokenName _ _); discriminate.
        -- intros [_ H]. apply List.find_some in Ef. destruct Ef as [Hin Hs].
           rewrite (H u Hin) in Hs. discriminate Hs.
      * split; [| reflexivity]. intros _. split; [discriminate |].
        intros u Hin. exact (List.find_none _ _ Ef u Hin).
  - intros tx H. destruct collaterals as [| c cs]; [discriminate H |].
    destruct (List.find MeshIdentityContract.suitable utxos) as [u |] eqn:Ef;
      [| discriminate H].
    destruct (loadValidators (utxoTxHash u) (utxoOutputIndex u)) as [policyId |] eqn:El;
      [| discriminate H].
    destruct (Mesh.computeIdentityTokenName (utxoTxHash u) (utxoOutputIndex u))
      as [tokenName |] eqn:Et; [| discriminate H].
    cbv zeta in H. inversion H. subst tx. clear H.
    cbn [mintInput mintAsset mintOutput mintDatum mintSigner fst snd].
    assert (Hsplit : exists before after,
              utxos = before ++ u :: after
              /\ forall x, In x before -> MeshIdentityContract.suitable x = false).
    { clear El Et. induction utxos as [| x l IH]; [discriminate Ef |].
      cbn [List.find] in Ef. destruct (MeshIdentityContract.suitable x) eqn:Ex.
      - inversion Ef. subst x. exists [], l. split; [reflexivity | intros ? []].
      - destruct (IH Ef) as (before & after & -> & Hb).
        exists (x :: before), after. split; [reflexivity |].
        intros y [<- | Hy]; [exact Ex | exact (Hb y Hy)]. }
    destruct Hsplit as (before & after & Hu & Hb).
    exists before, u, after, policyId, tokenName.
    apply List.find_some in Ef. destruct Ef as [_ Hs].
    repeat (split; [first [assumption | reflexivity] |]). reflexivity.
Qed.

Lemma createIdentity_binds_token_to_spent_input_witness :
  let small := mkUTxO "aa" 0 [mkAsset "lovelace" 5000000] None in
  let large := mkUTxO "bb" 3 [mkAsset "lovelace" 5000001; mkAsset "cc" 1] None in
  let load := fun (_ : string) (_ : Z) => Some "dd"%string in
  exists tx,
    MeshIdentityContract.createIdentity load "pkh" [small; large] [small] = inr tx
    /\ mintInput tx = ("bb"%string, 3)
    /\ exists tokenName,
         Mesh.computeIdentityTokenName "bb" 3 = Some tokenName
         /\ mintAsset tx = mkAsset ("dd" +:+ tokenName) 1.
Proof.
  cbv zeta.
  destruct (MeshIdentityContract.createIdentity (fun _ _ => Some "dd"%string) "pkh"
              [mkUTxO "aa" 0 [mkAsset "lovelace" 5000000] None;
               mkUTxO "bb" 3 [mkAsset "lovelace" 5000001; mkAsset "cc" 1] None]
              [mkUTxO "aa" 0 [mkAsset "lovelace" 5000000] None]) as [e | tx] eqn:E;
    [vm_compute in E; discriminate E |].
  exists tx. split; [reflexivity |].
  destruct (proj2 (createIdentity_binds_token_to_spent_input _ _ _ _) tx E)
    as (before & u & after & policyId & tokenName & Hu & Hb & Hs & Hi & Hl & Ht & Ha & _).
  assert (Hin : mintInput tx = ("bb"%string, 3)).
  { vm_compute in E. inversion E. reflexivity. }
  split; [exact Hin |].
  rewrite Hin in Ht. cbn [fst snd] in Ht. cbv beta in Hl. inversion Hl. subst policyId.
  exists tokenName. split; [exact Ht | exact Ha].
Defined.

(* ===================================================================== *)
(** ** The datum on chain: encoding and decoding *)
(* ===================================================================== *)

Lemma allSome_map_round_trip {A B : Type} (f : A -> B) (g : B -> option A) (l : list A) :
  (forall x, In x l -> g (f x) = Some x) ->
  allSome (List.map g (List.map f l)) = Some l.
Proof.
  induction l as [| x l IH]; intros H; [reflexivity |].
  cbn [List.map allSome]. rewrite (H x (or_introl eq_refl)).
  rewrite IH by (intros; apply H; right; assumption). reflexivity.
Qed.

Lemma textOfBytes_bytesOfText (s : string) : textOfBytes (bytesOfText s) = s.
Proof.
  unfold textOfBytes, bytesOfText. rewrite List.map_map.
  rewrite (List.map_ext _ (fun c => c)) by (intros c; apply ascii_of_byte_of_ascii).
  rewrite List.map_id. apply string_of_list_ascii_of_string.
Qed.

(** X21: the MeshJS datum survives the chain.  For a text codec whose
    decoding undoes its encoding, and a datum whose key hashes are
    hexadecimal and whose numbers a JavaScript number holds exactly,
    [parseIdentityDatum] applied to the data [createIdentityDatum] builds
    gives back the datum: the same identity and owner, the same delegates
    and attributes in the same order, the same nonce. *)
Theorem mesh_datum_round_trip
    (stringToHex hexToString : string -> string) (D : IdentityDatum) :
  (forall s, hexToString (stringToHex s) = s) ->
  meshDatum D ->
  MeshDatum.parseIdentityDatum hexToString (MeshDatum.createIdentityDatum stringToHex D)
  = Some D.
Proof.
  intros Hcodec (_ & _ & Hn & Hd & Ha).
  unfold MeshDatum.parseIdentityDatum, MeshDatum.createIdentityDatum, MeshDatum.conStr0.
  cbn [MeshDatum.fieldAt nth_error MeshDatum.bytesOf MeshDatum.listOrEmpty MeshDatum.numberOf].
  rewrite (allSome_map_round_trip (MeshDatum.createDelegateDatum stringToHex)
             (MeshDatum.parseDelegate hexToString)).
  2:{ intros d Hin. rewrite List.Forall_forall in Hd. specialize (Hd d Hin) as [_ Hd].
      unfold MeshDatum.parseDelegate, MeshDatum.createDelegateDatum, MeshDatum.conStr0.
      cbn [MeshDatum.fieldAt nth_error MeshDatum.bytesOf MeshDatum.numberOf].
      rewrite Hcodec, round_double_exact by exact Hd. destruct d; reflexivity. }
  rewrite (allSome_map_round_trip (MeshDatum.createAttributeDatum stringToHex)
             (MeshDatum.parseAttribute hexToString)).
  2:{ intros a Hin. rewrite List.Forall_forall in Ha. specialize (Ha a Hin).
      unfold MeshDatum.parseAttribute, MeshDatum.createAttributeDatum, MeshDatum.conStr0.
      cbn [MeshDatum.fieldAt nth_error MeshDatum.bytesOf MeshDatum.numberOf].
      rewrite !Hcodec, round_double_exact by exact Ha. destruct a; reflexivity. }
  rewrite round_double_exact by exact Hn. destruct D; reflexivity.
Qed.

Lemma mesh_datum_round_trip_witness :
  let stringToHex := fun s => Hex.encodeHex (bytesOfText s) in
  let hexToString := fun h => match Hex.decodeHex h with
                              | Some bs => textOfBytes bs
                              | None => EmptyString
                              end in
  let D := mkIdentityDatum "ab" "cd" [mkDelegate "ef" "sigAuth" 1702592000000]
                           [mkAttribute "did/svc/Hub" "https://hub.example" 0] 7 in
  (forall s, hexToString (stringToHex s) = s)
  /\ meshDatum D
  /\ MeshDatum.parseIdentityDatum hexToString (MeshDatum.createIdentityDatum stringToHex D)
     = Some D.
Proof.
  cbv zeta.
  assert (Hc : forall s, match Hex.decodeHex (Hex.encodeHex (bytesOfText s)) with
                         | Some bs => textOfBytes bs
                         | None => EmptyString
                         end = s).
  { intros s. rewrite decodeHex_encodeHex. apply textOfBytes_bytesOfText. }
  assert (Hx : meshDatum
                 (mkIdentityDatum "ab" "cd" [mkDelegate "ef" "sigAuth" 1702592000000]
                    [mkAttribute "did/svc/Hub" "https://hub.example" 0] 7)).
  { unfold meshDatum, hexText, Num.MAX_EXACT.
    cbn [identity owner nonce delegates attributes].
    split; [discriminate |]. split; [discriminate |]. split; [lia |].
    split; repeat constructor; cbn; try lia. discriminate. }
  split; [exact Hc |]. split; [exact Hx |].
  exact (mesh_datum_round_trip _ _ _ Hc Hx).
Defined.

Lemma canonicalHex_round_trip (s : string) :
  canonicalHex s -> exists bs, Hex.decodeHex s = Some bs /\ Hex.encodeHex bs = s.
Proof. intros [bs ->]. exists bs. split; [apply decodeHex_encodeHex | reflexivity]. Qed.

(** X22: the Java datum survives the chain.  For a datum as the Java
    records hold it (key hashes in lower-case hexadecimal, numbers in the
    range of [long]) and a platform charset in which [new String] undoes
    [getBytes], [toPlutusData] succeeds with a constructor of alternative 0
    and [fromPlutusData] applied to it gives back the datum. *)
Theorem java_datum_round_trip
    (getBytes : string -> list Bytes.byte) (newString : list Bytes.byte -> string)
    (D : IdentityDatum) :
  (forall s, newString (getBytes s) = s) ->
  javaDatum D ->
  exists fields,
    Identity.toPlutusData getBytes D = Some (Identity.ConstrPlutusData 0 fields)
    /\ Identity.fromPlutusData newString fields = Some D.
Proof.
  intros Hcodec (Hi & Ho & Hn & Hd & Ha).
  destruct (canonicalHex_round_trip _ Hi) as (ib & Hib & Hib').
  destruct (canonicalHex_round_trip _ Ho) as (ob & Hob & Hob').
  apply decodeHexString_decodeHex in Hib, Hob.
  assert (Hds : exists ds,
            allSome (List.map (Identity.Delegate_toPlutusData getBytes) (delegates D)) = Some ds
            /\ allSome (List.map (Identity.Delegate_fromPlutusData newString) ds)
               = Some (delegates D)).
  { induction Hd as [| d l [Hc Hl] Hd IH].
    - exists []. split; reflexivity.
    - destruct IH as (ds & E1 & E2).
      destruct (canonicalHex_round_trip _ Hc) as (ab & Hab & Hab').
      apply decodeHexString_decodeHex in Hab.
      exists (Identity.ConstrPlutusData 0
                [Identity.BytesPlutusData ab;
                 Identity.BytesPlutusData (getBytes (delegateType d));
                 Identity.BigIntPlutusData (validUntil d)] :: ds).
      cbn [List.map allSome]. unfold Identity.Delegate_toPlutusData at 1.
      rewrite Hab, E1. split; [reflexivity |].
      unfold Identity.Delegate_fromPlutusData at 1.
      cbn [Identity.asConstr nth_error Identity.asBytes Identity.asLong].
      rewrite E2, Hab', Hcodec, long_exact by exact Hl. destruct d; reflexivity. }
  destruct Hds as (ds & E1 & E2).
  assert (Has : allSome (List.map (Identity.Attribute_fromPlutusData newString)
                           (List.map (Identity.Attribute_toPlutusData getBytes)
                              (attributes D)))
                = Some (attributes D)).
  { apply allSome_map_round_trip. intros a Hin.
    rewrite List.Forall_forall in Ha. specialize (Ha a Hin).
    unfold Identity.Attribute_fromPlutusData, Identity.Attribute_toPlutusData.
    cbn [Identity.asConstr nth_error Identity.asBytes Identity.asLong].
    rewrite !Hcodec, long_exact by exact Ha. destruct a; reflexivity. }
  eexists. unfold Identity.toPlutusData. rewrite E1, Hib, Hob. split; [reflexivity |].
  unfold Identity.fromPlutusData.
  cbn [nth_error Identity.asBytes Identity.asList Identity.asLong].
  rewrite E2, Has, Hib', Hob', long_exact by exact Hn. destruct D; reflexivity.
Qed.

Lemma java_datum_round_trip_witness :
  let D := mkIdentityDatum "ab" "cd" [mkDelegate "ef01" "sigAuth" 1702592000000]
                           [mkAttribute "email" "a@b" 0] 7 in
  (forall s, textOfBytes (bytesOfText s) = s)
  /\ javaDatum D
  /\ exists fields,
       Identity.toPlutusData bytesOfText D = Some (Identity.ConstrPlutusData 0 fields)
       /\ Identity.fromPlutusData textOfBytes fields = Some D.
Proof.
  cbv zeta.
  assert (Hj : javaDatum (mkIdentityDatum "ab" "cd" [mkDelegate "ef01" "sigAuth" 1702592000000]
                            [mkAttribute "email" "a@b" 0] 7)).
  { unfold javaDatum, canonicalHex, Num.is_long, Num.Long_MIN_VALUE, Num.Long_MAX_VALUE.
    cbn [identity owner nonce delegates attributes].
    split; [exists [Byte.xab]; reflexivity |].
    split; [exists [Byte.xcd]; reflexivity |].
    split; [lia |].
    split; repeat constructor; cbn; try lia.
    exists [Byte.xef; Byte.x01]. reflexivity. }
  split; [exact textOfBytes_bytesOfText |]. split; [exact Hj |].
  exact (java_datum_round_trip _ _ _ textOfBytes_bytesOfText Hj).
Defined.

(** X23: the Java builders never overflow on the validity.  For every
    [int] number of days and a clock reading between 0 and 2^62, the
    validity sent in the redeemer is exactly [days * 86 400 000]
    milliseconds and the entry stored for the pair or the name expires
    exactly at the clock reading plus that validity (0 days store 0, no
    expiry), so datum and redeemer agree. *)
Theorem java_validity_is_exact
    (ownerAddress : string) (D : IdentityDatum) (currentTime slot0 : Z)
    (type pkh name value : string) (validityDays : Z) :
  Num.is_int validityDays ->
  0 <= currentTime <= 2 ^ 62 ->
  let stored := if validityDays =? 0 then 0 else currentTime + validityDays * 86400000 in
  let added := Java.addDelegate ownerAddress D currentTime slot0 type pkh validityDays in
  let set := Java.setAttribute ownerAddress D currentTime slot0 name value validityDays in
  txRedeemer added = AddDelegate type pkh (validityDays * 86400000)
  /\ List.filter (sameDelegate pkh type) (delegates (txDatum added))
     = [mkDelegate pkh type stored]
  /\ txRedeemer set = SetAttribute name value (validityDays * 86400000)
  /\ List.filter (fun a => (attrName a =? name)%string) (attributes (txDatum set))
     = [mkAttribute name value stored].
Proof.
  intros Hint Hnow. cbv zeta.
  assert (Hms : Java.validityMsOf validityDays = validityDays * 86400000).
  { unfold Java.validityMsOf. destruct (Z.eqb_spec validityDays 0) as [-> | _];
      [reflexivity | apply java_days_to_ms; exact Hint]. }
  assert (Hu : Java.validUntilOf currentTime validityDays
               = if validityDays =? 0 then 0 else currentTime + validityDays * 86400000).
  { unfold Java.validUntilOf. destruct (validityDays =? 0); [reflexivity |].
    rewrite java_days_to_ms by exact Hint. unfold Java.ladd. apply long_exact.
    unfold Num.is_int, Num.Integer_MIN_VALUE, Num.Integer_MAX_VALUE in Hint.
    unfold Num.is_long, Num.Long_MIN_VALUE, Num.Long_MAX_VALUE.
    change (2 ^ 31) with 2147483648 in Hint. change (2 ^ 62) with 4611686018427387904 in Hnow.
    change (2 ^ 63) with 9223372036854775808. lia. }
  unfold Java.addDelegate, Java.setAttribute. cbv zeta. cbn [txRedeemer txDatum].
  rewrite Hms, Hu.
  unfold Java.withAddedDelegate, Java.withSetAttribute, Java.removeIf, Java.add. cbv zeta.
  cbn [delegates attributes delegateAddress delegateType attrName].
  split; [reflexivity |]. split; [| split; [reflexivity |]].
  - apply (replace_by_key_single (sameDelegate pkh type)). apply sameDelegate_refl.
  - apply (replace_by_key_single (fun a => (attrName a =? name)%string)).
    apply String.eqb_refl.
Qed.

Lemma java_validity_is_exact_witness :
  Num.is_int 2147483647
  /\ 0 <= 1700000000000 <= 2 ^ 62
  /\ txRedeemer (Java.addDelegate "owner" (mkIdentityDatum "id" "o" [] [] 0)
                   1700000000000 500 "sigAuth" "d" 2147483647)
     = AddDelegate "sigAuth" "d" 185542587100800000.
Proof.
  assert (Hi : Num.is_int 2147483647).
  { unfold Num.is_int, Num.Integer_MIN_VALUE, Num.Integer_MAX_VALUE. lia. }
  assert (Hn : 0 <= 1700000000000 <= 2 ^ 62) by lia.
  split; [exact Hi |]. split; [exact Hn |].
  exact (proj1 (java_validity_is_exact "owner" (mkIdentityDatum "id" "o" [] [] 0)
                  1700000000000 500 "sigAuth" "d" "n" "v" 2147483647 Hi Hn)).
Defined.

(* ===================================================================== *)
(** ** The Java redeemers *)
(* ===================================================================== *)

(** X24: the Java redeemers tell the actions apart.  For actions whose
    key hashes are in lower-case hexadecimal and any charset in which
    [getBytes] loses no information, the redeemer is built, it is the
    constructor whose index is the action's (0 to 4) over the action's
    arguments in their order, the key hash as the bytes it spells, and
    two actions with the same redeemer are the same action with the same
    arguments. *)
Theorem java_redeemers_tell_actions_apart
    (getBytes : string -> list Bytes.byte) (A B : Action) :
  (forall s t, getBytes s = getBytes t -> s = t) ->
  (forall pkh, keyHashOf A = Some pkh -> canonicalHex pkh) ->
  (forall pkh, keyHashOf B = Some pkh -> canonicalHex pkh) ->
  (exists fields,
     Redeemer.ofAction getBytes A
     = Some (Identity.ConstrPlutusData
               match A with
               | ChangeOwner _ => 0
               | AddDelegate _ _ _ => 1
               | RevokeDelegate _ _ => 2
               | SetAttribute _ _ _ => 3
               | RevokeAttribute _ _ => 4
               end fields)
     /\ forall bytes,
          match A with
          | ChangeOwner o =>
              o = Hex.encodeHex bytes -> fields = [Identity.BytesPlutusData bytes]
          | AddDelegate t a v =>
              a = Hex.encodeHex bytes ->
              fields = [Identity.BytesPlutusData (getBytes t);
                        Identity.BytesPlutusData bytes;
                        Identity.BigIntPlutusData v]
          | RevokeDelegate t a =>
              a = Hex.encodeHex bytes ->
              fields = [Identity.BytesPlutusData (getBytes t);
                        Identity.BytesPlutusData bytes]
          | SetAttribute n v x =>
              fields = [Identity.BytesPlutusData (getBytes n);
                        Identity.BytesPlutusData (getBytes v);
                        Identity.BigIntPlutusData x]
          | RevokeAttribute n v =>
              fields = [Identity.BytesPlutusData (getBytes n);
                        Identity.BytesPlutusData (getBytes v)]
          end)
  /\ (Redeemer.ofAction getBytes A = Redeemer.ofAction getBytes B -> A = B).
Proof.
  intros Hinj HA HB.
  assert (Hdec : forall k, canonicalHex k ->
            exists bs, k = Hex.encodeHex bs /\ Java.decodeHexString k = Some bs).
  { intros k [bs ->]. exists bs. split; [reflexivity |].
    apply decodeHexString_decodeHex, decodeHex_encodeHex. }
  assert (Henc : forall a b, Hex.encodeHex a = Hex.encodeHex b -> a = b).
  { intros a b E. apply some_inj. rewrite <- (decodeHex_encodeHex a), E.
    apply decodeHex_encodeHex. }
  split.
  - destruct A as [o | t a v | t a | n v x | n v];
      cbn [Redeemer.ofAction keyHashOf] in *;
      unfold Redeemer.changeOwnerRedeemer, Redeemer.addDelegateRedeemer,
        Redeemer.revokeDelegateRedeemer, Redeemer.setAttributeRedeemer,
        Redeemer.revokeAttributeRedeemer;
      try (eexists; split; [reflexivity | intros _; reflexivity]).
    all: destruct (Hdec _ (HA _ eq_refl)) as (bs & -> & ->);
      eexists; (split; [reflexivity |]);
      intros bytes E; apply Henc in E; subst bytes; reflexivity.
  - destruct A as [o | t a v | t a | n v x | n v],
             B as [o' | t' a' v' | t' a' | n' v' x' | n' v'];
      cbn [Redeemer.ofAction keyHashOf] in *;
      unfold Redeemer.changeOwnerRedeemer, Redeemer.addDelegateRedeemer,
        Redeemer.revokeDelegateRedeemer, Redeemer.setAttributeRedeemer,
        Redeemer.revokeAttributeRedeemer;
      try (destruct (Hdec _ (HA _ eq_refl)) as (bs & -> & ->));
      try (destruct (Hdec _ (HB _ eq_refl)) as (bs' & -> & ->));
      intros Heq; try discriminate Heq;
      apply some_inj in Heq; injection Heq as Heq; subst;
      repeat match goal with
             | H : getBytes _ = getBytes _ |- _ => apply Hinj in H; subst
             end;
      reflexivity.
Qed.

Lemma java_redeemers_tell_actions_apart_witness :
  (forall s t, bytesOfText s = bytesOfText t -> s = t)
  /\ (forall pkh, keyHashOf (AddDelegate "sigAuth" "ab" 86400000) = Some pkh ->
      canonicalHex pkh)
  /\ (forall pkh, keyHashOf (RevokeDelegate "sigAuth" "ab") = Some pkh -> canonicalHex pkh)
  /\ Redeemer.ofAction bytesOfText (AddDelegate "sigAuth" "ab" 86400000)
     = Some (Identity.ConstrPlutusData 1
               [Identity.BytesPlutusData (bytesOfText "sigAuth");
                Identity.BytesPlutusData [Byte.xab];
                Identity.BigIntPlutusData 86400000])
  /\ (Redeemer.ofAction bytesOfText (AddDelegate "sigAuth" "ab" 86400000)
      = Redeemer.ofAction bytesOfText (RevokeDelegate "sigAuth" "ab") ->
      AddDelegate "sigAuth" "ab" 86400000 = RevokeDelegate "sigAuth" "ab").
Proof.
  assert (Hinj : forall s t, bytesOfText s = bytesOfText t -> s = t).
  { intros s t E. rewrite <- (textOfBytes_bytesOfText s), E.
    apply textOfBytes_bytesOfText. }
  assert (Hab : canonicalHex "ab") by (exists [Byte.xab]; reflexivity).
  assert (HA : forall pkh, keyHashOf (AddDelegate "sigAuth" "ab" 86400000) = Some pkh ->
                 canonicalHex pkh).
  { intros pkh E. cbn in E. apply some_inj in E. subst pkh. exact Hab. }
  assert (HB : forall pkh, keyHashOf (RevokeDelegate "sigAuth" "ab") = Some pkh ->
                 canonicalHex pkh).
  { intros pkh E. cbn in E. apply some_inj in E. subst pkh. exact Hab. }
  split; [exact Hinj |]. split; [exact HA |]. split; [exact HB |].
  split; [reflexivity |].
  exact (proj2 (java_redeemers_tell_actions_apart bytesOfText _ _ Hinj HA HB)).
Defined.

(* ===================================================================== *)
(** ** What the next Java builder reads *)
(* ===================================================================== *)

Lemma java_delegates_read_back
    (getBytes : string -> list Bytes.byte) (newString : list Bytes.byte -> string)
    (l : list Delegate) :
  (forall s, newString (getBytes s) = s) ->
  List.Forall (fun d => Num.is_long (validUntil d)) l ->
  match allSome (List.map (Identity.Delegate_toPlutusData getBytes) l) with
  | Some items => allSome (List.map (Identity.Delegate_fromPlutusData newString) items)
  | None => None
  end = allSome (List.map (readDelegate JavaImpl) l).
Proof.
  intros Hcodec Hl. induction Hl as [| d l Hd Hl IH]; [reflexivity |].
  cbn [List.map allSome]. unfold Identity.Delegate_toPlutusData at 1.
  unfold readDelegate at 1, readKeyHash, keyBytes.
  destruct (Java.decodeHexString (delegateAddress d)) as [address |]; [| reflexivity].
  rewrite <- IH.
  destruct (allSome (List.map (Identity.Delegate_toPlutusData getBytes) l)) as [items |];
    [| reflexivity].
  cbn [List.map allSome]. unfold Identity.Delegate_fromPlutusData at 1.
  cbn [Identity.asConstr nth_error Identity.asBytes Identity.asLong].
  rewrite Hcodec, long_exact by exact Hd. reflexivity.
Qed.

Lemma java_delegates_are_read
    (getBytes : string -> list Bytes.byte) (newString : list Bytes.byte -> string)
    (l : list Delegate) :
  forall items,
    allSome (List.map (Identity.Delegate_toPlutusData getBytes) l) = Some items ->
    allSome (List.map (Identity.Delegate_fromPlutusData newString) items) <> None.
Proof.
  induction l as [| d l IH]; intros items H.
  - apply some_inj in H. subst items. discriminate.
  - cbn [List.map allSome] in H. unfold Identity.Delegate_toPlutusData at 1 in H.
    destruct (Java.decodeHexString (delegateAddress d)); [| discriminate H].
    destruct (allSome (List.map (Identity.Delegate_toPlutusData getBytes) l)) as [items' |];
      [| discriminate H].
    apply some_inj in H. subst items. specialize (IH items' eq_refl).
    cbn [List.map allSome]. unfold Identity.Delegate_fromPlutusData at 1.
    cbn [Identity.asConstr nth_error Identity.asBytes Identity.asLong].
    destruct (allSome (List.map (Identity.Delegate_fromPlutusData newString) items'));
      [discriminate | contradiction IH; reflexivity].
Qed.

(** X25: what the next Java builder reads is what the chain model gives.
    For a record whose numbers are in the range of [long] and a platform
    charset in which [new String] undoes [getBytes]: [toPlutusData] fails
    exactly when the record cannot be written; when it succeeds it gives
    a constructor of alternative 0 with five fields, and
    [fromPlutusData] on these fields is the record read back: every key
    hash as the lower-case hexadecimal text of the bytes written, the
    rest unchanged. *)
Theorem java_codec_is_read_back
    (getBytes : string -> list Bytes.byte) (newString : list Bytes.byte -> string)
    (D : IdentityDatum) :
  (forall s, newString (getBytes s) = s) ->
  longNumbers D ->
  (Identity.toPlutusData getBytes D = None <-> readBack JavaImpl D = None)
  /\ forall p,
       Identity.toPlutusData getBytes D = Some p ->
       exists fields,
         p = Identity.ConstrPlutusData 0 fields
         /\ length fields = 5%nat
         /\ Identity.fromPlutusData newString fields = readBack JavaImpl D.
Proof.
  intros Hcodec (Hn & Hd & Ha).
  pose proof (java_delegates_read_back getBytes newString (delegates D) Hcodec Hd) as Hds.
  assert (Has : allSome (List.map (Identity.Attribute_fromPlutusData newString)
                           (List.map (Identity.Attribute_toPlutusData getBytes)
                              (attributes D)))
                = Some (attributes D)).
  { apply allSome_map_round_trip. intros a Hin.
    rewrite List.Forall_forall in Ha. specialize (Ha a Hin).
    unfold Identity.Attribute_fromPlutusData, Identity.Attribute_toPlutusData.
    cbn [Identity.asConstr nth_error Identity.asBytes Identity.asLong].
    rewrite !Hcodec, long_exact by exact Ha. destruct a; reflexivity. }
  unfold Identity.toPlutusData, readBack, readKeyHash, keyBytes.
  rewrite <- Hds.
  destruct (allSome (List.map (Identity.Delegate_toPlutusData getBytes) (delegates D)))
    as [items |] eqn:Hitems.
  - destruct (Java.decodeHexString (identity D)) as [i |],
             (Java.decodeHexString (owner D)) as [o |].
    + split.
      * split; [discriminate |].
        intros E. exfalso.
        apply (java_delegates_are_read getBytes newString (delegates D) items).
        -- exact Hitems.
        -- destruct (allSome (List.map (Identity.Delegate_fromPlutusData newString) items));
             [discriminate E | reflexivity].
      * intros p Hp. apply some_inj in Hp. subst p. eexists.
        split; [reflexivity |]. split; [reflexivity |].
        unfold Identity.fromPlutusData.
        cbn [nth_error Identity.asBytes Identity.asList Identity.asLong].
        rewrite Has, long_exact by exact Hn.
        destruct (allSome (List.map (Identity.Delegate_fromPlutusData newString) items));
          reflexivity.
    + split; [split; reflexivity | discriminate].
    + split; [split; reflexivity | discriminate].
    + split; [split; reflexivity | discriminate].
  - split; [| discriminate]. split; [| reflexivity]. intros _.
    destruct (Java.decodeHexString (identity D)), (Java.decodeHexString (owner D));
      reflexivity.
Qed.

Lemma java_codec_is_read_back_witness :
  let D := mkIdentityDatum "1D" "0x0e" [mkDelegate "AB" "sigAuth" 1702592000000]
                           [mkAttribute "email" "a@b" 0] 7 in
  (forall s, textOfBytes (bytesOfText s) = s)
  /\ longNumbers D
  /\ readBack JavaImpl D
     = Some (mkIdentityDatum "1d" "0e" [mkDelegate "ab" "sigAuth" 1702592000000]
                             [mkAttribute "email" "a@b" 0] 7)
  /\ forall p,
       Identity.toPlutusData bytesOfText D = Some p ->
       exists fields,
         p = Identity.ConstrPlutusData 0 fields
         /\ length fields = 5%nat
         /\ Identity.fromPlutusData textOfBytes fields = readBack JavaImpl D.
Proof.
  cbv zeta.
  assert (Hl : longNumbers
                 (mkIdentityDatum "1D" "0x0e" [mkDelegate "AB" "sigAuth" 1702592000000]
                    [mkAttribute "email" "a@b" 0] 7)).
  { unfold longNumbers, Num.is_long, Num.Long_MIN_VALUE, Num.Long_MAX_VALUE.
    cbn [nonce delegates attributes].
    split; [lia |]. split; repeat constructor; cbn; lia. }
  split; [exact textOfBytes_bytesOfText |]. split; [exact Hl |]. split; [reflexivity |].
  exact (proj2 (java_codec_is_read_back _ _ _ textOfBytes_bytesOfText Hl)).
Defined.
